(** * Equipment and kit reservations: availability check and lifecycle

    A shallow embedding of the reservation logic of the application:
    - [KitList.getKitStatus]                  (components/KitList.tsx)
    - [ReservationCalendar.isPickupEligible]  (components/ReservationCalendar.tsx)
    - [ReservationForm.checkAvailability], [ReservationForm.handleSubmit]
                                              (components/ReservationForm.tsx)
    - [PickupEquipment.sendSummaryEmail], [PickupEquipment.handlePickup]
                                              (components/PickupEquipment.tsx)
    - [ReturnEquipment.handleReturn]          (components/ReturnEquipment.tsx)
    - [ImageUpload.uploadImage]               (utils/imageUpload.ts)

    The hosted database, the object store and the notification endpoint are
    remote services.  The tables are modelled as lists of rows, every remote
    call is recorded in a log, and whether a call succeeds is decided by the
    environment (a list of replies consumed call by call).  The session has
    a user, and the row-level policies of the migrations decide what that
    user's requests see and write: a query on [reservations] runs over the
    caller's own rows, and an update of [equipment] reaches the rows the
    caller registered, the others being left out without an error. *)

From Stdlib Require Import String Ascii List Bool ZArith Lia.
Import ListNotations.

Local Open Scope string_scope.
Local Open Scope Z_scope.

(* ------------------------------------------------------------------ *)
(** ** Schema (lib/supabase.ts and the migrations)                      *)
(* ------------------------------------------------------------------ *)

Module Schema.

(** [equipment.status]: 'disponível' | 'reservado' | 'em uso'. *)
Inductive EquipmentStatus := Disponivel | Reservado | EmUso.

(** [reservations.status]: 'agendado' | 'em uso' | 'concluído' | 'cancelado'. *)
Inductive ReservationStatus := Agendado | REmUso | Concluido | Cancelado.

Definition equipment_status_eqb (a b : EquipmentStatus) : bool :=
  match a, b with
  | Disponivel, Disponivel | Reservado, Reservado | EmUso, EmUso => true
  | _, _ => false
  end.

Definition reservation_status_eqb (a b : ReservationStatus) : bool :=
  match a, b with
  | Agendado, Agendado | REmUso, REmUso
  | Concluido, Concluido | Cancelado, Cancelado => true
  | _, _ => false
  end.

(** A value of an SQL [date] column: a calendar day, counted in days since
    1970-01-01.  On the wire it is the text yyyy-mm-dd. *)
Definition date := Z.

(** Row of [equipment] (the descriptive columns play no role here).
    [created_by] is the profile that registered the row, or null. *)
Record Equipment := mkEquipment {
  eq_id : string;
  eq_name : string;
  eq_status : EquipmentStatus;
  eq_created_by : option string
}.

(** Row of [kits]; a kit has no status column. *)
Record Kit := mkKit {
  kit_id_of : string;
  kit_name : string
}.

(** Row of [kit_equipment]. *)
Record KitEquipment := mkKitEquipment {
  ke_kit_id : string;
  ke_equipment_id : string
}.

(** Row of [reservations].  [pickup_completed], [pickup_date] and
    [email_sent] are the columns written by the pickup dialog; the
    migrations at hand do not declare them, and they are taken to be
    there, with the defaults [false] and null, as the dialog expects. *)
Record Reservation := mkReservation {
  id : string;
  user_id : string;
  equipment_id : option string;
  kit_id : option string;
  start_date : date;
  end_date : date;
  reason : string;
  status : ReservationStatus;
  pickup_photos : list string;
  return_photos : list string;
  pickup_completed : bool;
  pickup_date : option date;
  email_sent : bool
}.

Record Profile := mkProfile {
  profile_id : string;
  email : string;
  full_name : string
}.

Record Database := mkDatabase {
  equipment : list Equipment;
  kit_equipment : list KitEquipment;
  reservations : list Reservation
}.

(** A browser [File]; only its name is used by the code below. *)
Record File := mkFile { file_name : string }.

(** JavaScript truthiness of a string and of an optional string. *)
Definition truthy (s : string) : bool := negb (String.eqb s "").

Definition truthy_opt (o : option string) : bool :=
  match o with Some s => truthy s | None => false end.

End Schema.
Import Schema.

(* ------------------------------------------------------------------ *)
(** ** JavaScript [Date] values                                         *)
(* ------------------------------------------------------------------ *)

Module JsDate.

Definition msPerDay : Z := 86400000.
Definition msPerMinute : Z := 60000.

(** A [Date] is its time value: milliseconds since the epoch, in UTC. *)
Definition time := Z.

(** [new Date('yyyy-mm-dd')]: a date-only text is read as midnight UTC. *)
Definition ofDateOnly (d : date) : time := d * msPerDay.

(** The calendar day of an instant for a clock [utcOffset] minutes ahead of
    UTC (negative to the west of Greenwich).  The offset is fixed: changes
    of daylight saving time are not modelled. *)
Definition localDay (utcOffset : Z) (t : time) : Z :=
  (t + utcOffset * msPerMinute) / msPerDay.

(** [d.setHours(0, 0, 0, 0)]: midnight, local time, of the local day of [t]. *)
Definition setHours0 (utcOffset : Z) (t : time) : time :=
  localDay utcOffset t * msPerDay - utcOffset * msPerMinute.

(** [d.toISOString().split('T')[0]]: the UTC calendar day of [t]. *)
Definition isoDay (t : time) : date := t / msPerDay.

End JsDate.

(* ------------------------------------------------------------------ *)
(** ** KitList.tsx                                                      *)
(* ------------------------------------------------------------------ *)

Module KitList.

(** [interface KitWithEquipment extends Kit { equipment: Equipment[] }] *)
Record KitWithEquipment := mkKitWithEquipment {
  kit : Kit;
  members : list Equipment
}.

(** What [getKitStatus] returns: 'vazio', 'disponível', 'em uso', 'reservado'. *)
Inductive KitStatus := Vazio | KitDisponivel | KitEmUso | KitReservado.

Definition getKitStatus (k : KitWithEquipment) : KitStatus :=
  if (length (members k) =? 0)%nat then Vazio
  else
    let allAvailable :=
      forallb (fun eq => equipment_status_eqb (eq_status eq) Disponivel) (members k) in
    if allAvailable then KitDisponivel
    else
      let anyInUse :=
        existsb (fun eq => equipment_status_eqb (eq_status eq) EmUso) (members k) in
      if anyInUse then KitEmUso else KitReservado.

End KitList.

(* ------------------------------------------------------------------ *)
(** ** ReservationCalendar.tsx                                          *)
(* ------------------------------------------------------------------ *)

Module ReservationCalendar.

(** [utcOffset] is the offset of the browser's clock and [now] the value
    of [new Date()]. *)
Definition isPickupEligible (utcOffset : Z) (now : JsDate.time) (reservation : Reservation)
  : bool :=
  if negb (reservation_status_eqb (status reservation) Agendado) then false
  else
    let today := JsDate.setHours0 utcOffset now in
    let startDate :=
      JsDate.setHours0 utcOffset (JsDate.ofDateOnly (start_date reservation)) in
    startDate <=? today.

End ReservationCalendar.

(* ------------------------------------------------------------------ *)
(** ** The remote services                                              *)
(* ------------------------------------------------------------------ *)

Module Remote.

(** Outcome of one remote call, as the client library reports it: the
    [error] field of the reply is null ([Ok]) or carries a message. *)
Inductive Reply := Ok | Err (message : string).

(** The value of an [<input type="date">]: '' ([None]) or a date. *)
Definition DateField := option date.

Definition truthy_date (d : DateField) : bool :=
  match d with Some _ => true | None => false end.

(** The column a reservation query filters on. *)
Inductive ForeignKey := EquipmentId | KitId.

(** The object given to [insert] by the reservation form. *)
Record ReservationData := mkReservationData {
  d_user_id : string;
  d_start_date : DateField;
  d_end_date : DateField;
  d_reason : string;
  d_status : ReservationStatus;
  d_pickup_photos : list string;
  d_equipment_id : option string;
  d_kit_id : option string
}.

(** The three objects given to [update] on [reservations]. *)
Inductive ReservationPatch :=
| PickupPatch (photoUrls : list string) (pickupDate : date)
    (* { status: 'em uso', pickup_photos, pickup_completed: true, pickup_date } *)
| EmailSentPatch
    (* { email_sent: true } *)
| ReturnPatch (photoUrls : list string).
    (* { status: 'concluído', return_photos } *)

(** Body of the notification request. *)
Record EmailData := mkEmailData {
  reservationId : string;
  userId : string;
  userEmail : string;
  userName : string;
  itemName : string;
  itemType : string;
  e_startDate : date;
  e_endDate : date;
  e_reason : string;
  pickupDate : date
}.

(** Every request the client sends. *)
Inductive Call :=
| StorageUpload (filePath : string) (file : File)
| SelectReservations (field : ForeignKey) (target : string)
                     (candidateEnd candidateStart : DateField)
| InsertReservation (row : ReservationData)
| UpdateReservation (rid : string) (patch : ReservationPatch)
| UpdateEquipmentEq (eid : string) (st : EquipmentStatus)
| SelectKitEquipment (kid : string)
| UpdateEquipmentIn (eids : list string) (st : EquipmentStatus)
| PostSummaryEmail (payload : EmailData).

Definition is_post (c : Call) : bool :=
  match c with PostSummaryEmail _ => true | _ => false end.

(** The tables, the environment's coming behaviour and what the client has
    done so far.  [replies] are the outcomes of the next remote calls, in
    order (a call past the end of the list succeeds); [fresh] are the
    values generated outside the program (random file names, row ids);
    [clock] is the value of [new Date()]; [uid] is the user of the session,
    the value of [auth.uid()] in the policies of the tables. *)
Record World := mkWorld {
  db : Database;
  replies : list Reply;
  fresh : list string;
  clock : JsDate.time;
  supabaseUrl : string;
  uid : string;
  log : list Call;
  console : list string
}.

(** A thrown value: an [Error] with its message, or any other object (the
    [error] object of a database reply). *)
Inductive Exn := JsError (message : string) | Thrown.

Definition M (A : Type) : Type := World -> (Exn + A) * World.

Definition ret {A} (a : A) : M A := fun w => (inr a, w).

Definition throw {A} (e : Exn) : M A := fun w => (inl e, w).

Definition bind {A B} (c : M A) (k : A -> M B) : M B :=
  fun w =>
    match c w with
    | (inr a, w') => k a w'
    | (inl e, w') => (inl e, w')
    end.

Declare Scope remote_scope.
Delimit Scope remote_scope with remote.
Notation "x <- c ;; k" := (bind c (fun x => k))
  (at level 61, c at next level, right associativity) : remote_scope.
Notation "c ;;; k" := (bind c (fun _ => k))
  (at level 61, right associativity) : remote_scope.
Local Open Scope remote_scope.

Definition set_db (d : Database) (w : World) : World :=
  mkWorld d (replies w) (fresh w) (clock w) (supabaseUrl w) (uid w) (log w) (console w).

(** Send a request: it is logged and the environment's next reply is
    consumed. *)
Definition remote (c : Call) : M Reply :=
  fun w =>
    (inr (hd Ok (replies w)),
     mkWorld (db w) (tl (replies w)) (fresh w) (clock w) (supabaseUrl w) (uid w)
             (log w ++ [c]) (console w)).

Definition is_ok (r : Reply) : bool :=
  match r with Ok => true | Err _ => false end.

(** A value generated outside the program. *)
Definition draw : M string :=
  fun w =>
    (inr (hd "" (fresh w)),
     mkWorld (db w) (replies w) (tl (fresh w)) (clock w) (supabaseUrl w) (uid w)
             (log w) (console w)).

Definition modify_db (f : Database -> Database) : M unit :=
  fun w => (inr tt, set_db (f (db w)) w).

Definition get_db : M Database := fun w => (inr (db w), w).

Definition get_clock : M JsDate.time := fun w => (inr (clock w), w).

Definition get_uid : M string := fun w => (inr (uid w), w).

Definition console_error (line : string) : M unit :=
  fun w => (inr tt, mkWorld (db w) (replies w) (fresh w) (clock w) (supabaseUrl w) (uid w)
                            (log w) (console w ++ [line])).

(** *** Tables *)

Definition fk_value (field : ForeignKey) (r : Reservation) : option string :=
  match field with
  | EquipmentId => equipment_id r
  | KitId => kit_id r
  end.

Definition opt_eqb (o : option string) (s : string) : bool :=
  match o with Some x => String.eqb x s | None => false end.

Definition status_in (l : list ReservationStatus) (s : ReservationStatus) : bool :=
  existsb (reservation_status_eqb s) l.

(** The filter of the availability query:
    [.eq(field, target).in('status', ['agendado', 'em uso'])
     .or(`start_date.lte.${end},end_date.gte.${start}`)].
    The conditions listed in [.or(...)] are joined by OR. *)
Definition conflict_filter (field : ForeignKey) (target : string)
           (candidateEnd candidateStart : date) (r : Reservation) : bool :=
  opt_eqb (fk_value field r) target
  && status_in [Agendado; REmUso] (status r)
  && ((start_date r <=? candidateEnd) || (end_date r >=? candidateStart)).

(** The tables as the policies on SELECT show them to [caller]: every row
    of [equipment] and of [kit_equipment], and the rows of [reservations]
    that are the caller's own ("Usuários podem ver suas reservas":
    [auth.uid() = user_id]). *)
Definition seenBy (caller : string) (d : Database) : Database :=
  mkDatabase (equipment d) (kit_equipment d)
             (filter (fun r => String.eqb (user_id r) caller) (reservations d)).

(** [from('reservations').select('*')...]: [data] is null when the request
    fails; a filter value that is not a date makes it fail.  The query
    runs over the rows the session may see. *)
Definition select_reservations (field : ForeignKey) (target : string)
           (candidateEnd candidateStart : DateField)
  : M (option (list Reservation)) :=
  r <- remote (SelectReservations field target candidateEnd candidateStart) ;;
  d <- get_db ;;
  caller <- get_uid ;;
  match is_ok r, candidateEnd, candidateStart with
  | true, Some e, Some s =>
      ret (Some (filter (conflict_filter field target e s)
                        (reservations (seenBy caller d))))
  | _, _, _ => ret None
  end.

(** The row stored for an inserted object: the id is generated by the
    database, the remaining columns take their defaults. *)
Definition new_row (rid : string) (row : ReservationData) (s e : date) : Reservation :=
  mkReservation rid (d_user_id row) (d_equipment_id row) (d_kit_id row) s e
                (d_reason row) (d_status row) (d_pickup_photos row) []
                false None false.

Definition add_reservation (r : Reservation) (d : Database) : Database :=
  mkDatabase (equipment d) (kit_equipment d) (reservations d ++ [r]).

(** [from('reservations').insert([row])]; returns whether [error] is null.
    The table refuses a row without dates (NOT NULL) or with
    [end_date < start_date] (CHECK).  The policy on INSERT
    ([auth.uid() = user_id]) lets the row through: the form stamps it with
    the profile of the session. *)
Definition insert_reservation (row : ReservationData) : M bool :=
  r <- remote (InsertReservation row) ;;
  match is_ok r, d_start_date row, d_end_date row with
  | true, Some s, Some e =>
      if s <=? e then
        rid <- draw ;;
        modify_db (add_reservation (new_row rid row s e)) ;;;
        ret true
      else ret false
  | _, _, _ => ret false
  end.

Definition apply_patch (p : ReservationPatch) (r : Reservation) : Reservation :=
  match p with
  | PickupPatch urls day =>
      mkReservation (id r) (user_id r) (equipment_id r) (kit_id r)
                    (start_date r) (end_date r) (reason r)
                    REmUso urls (return_photos r) true (Some day) (email_sent r)
  | EmailSentPatch =>
      mkReservation (id r) (user_id r) (equipment_id r) (kit_id r)
                    (start_date r) (end_date r) (reason r)
                    (status r) (pickup_photos r) (return_photos r)
                    (pickup_completed r) (pickup_date r) true
  | ReturnPatch urls =>
      mkReservation (id r) (user_id r) (equipment_id r) (kit_id r)
                    (start_date r) (end_date r) (reason r)
                    Concluido (pickup_photos r) urls
                    (pickup_completed r) (pickup_date r) (email_sent r)
  end.

Definition patch_reservations (rid : string) (p : ReservationPatch) (d : Database)
  : Database :=
  mkDatabase (equipment d) (kit_equipment d)
             (map (fun r => if String.eqb (id r) rid then apply_patch p r else r)
                  (reservations d)).

(** [from('reservations').update(patch).eq('id', rid)].  The policy on
    UPDATE ([auth.uid() = user_id]) lets the request through: the dialogs
    offer rows that a query of the session returned, which are the
    caller's own. *)
Definition update_reservation (rid : string) (p : ReservationPatch) : M bool :=
  r <- remote (UpdateReservation rid p) ;;
  if is_ok r then modify_db (patch_reservations rid p) ;;; ret true
  else ret false.

Definition mem (s : string) (l : list string) : bool := existsb (String.eqb s) l.

Definition set_status (st : EquipmentStatus) (e : Equipment) : Equipment :=
  mkEquipment (eq_id e) (eq_name e) st (eq_created_by e).

(** The rows an update of [equipment] may write for [caller]: the policy
    on UPDATE ("Criadores podem atualizar seus equipamentos":
    [auth.uid() = created_by]) lets through the rows the caller created. *)
Definition may_update (caller : string) (e : Equipment) : bool :=
  opt_eqb (eq_created_by e) caller.

(** The table after an update of [status] for the ids [eids] sent by
    [caller]: the rows the policy does not let through are left as they
    are, and the reply carries no error for them. *)
Definition set_equipment_status (caller : string) (eids : list string)
           (st : EquipmentStatus) (d : Database) : Database :=
  mkDatabase (map (fun e => if mem (eq_id e) eids && may_update caller e
                            then set_status st e else e)
                  (equipment d))
             (kit_equipment d) (reservations d).

(** [from('equipment').update({ status }).eq('id', eid)]. *)
Definition update_equipment_eq (eid : string) (st : EquipmentStatus) : M bool :=
  r <- remote (UpdateEquipmentEq eid st) ;;
  caller <- get_uid ;;
  if is_ok r then modify_db (set_equipment_status caller [eid] st) ;;; ret true
  else ret false.

(** [from('equipment').update({ status }).in('id', eids)]. *)
Definition update_equipment_in (eids : list string) (st : EquipmentStatus) : M bool :=
  r <- remote (UpdateEquipmentIn eids st) ;;
  caller <- get_uid ;;
  if is_ok r then modify_db (set_equipment_status caller eids st) ;;; ret true
  else ret false.

(** [from('kit_equipment').select('equipment_id').eq('kit_id', kid)]. *)
Definition select_kit_equipment (kid : string) : M (option (list KitEquipment)) :=
  r <- remote (SelectKitEquipment kid) ;;
  d <- get_db ;;
  if is_ok r
  then ret (Some (filter (fun ke => String.eqb (ke_kit_id ke) kid) (kit_equipment d)))
  else ret None.

(** *** [Promise.all(xs.map(f))]: every call is started; the result is the
    list of values, or the first rejection. *)

Fixpoint runAll {A B} (f : A -> M B) (xs : list A) (w : World)
  : list (Exn + B) * World :=
  match xs with
  | [] => ([], w)
  | x :: rest =>
      let '(o, w1) := f x w in
      let '(os, w2) := runAll f rest w1 in
      (o :: os, w2)
  end.

Fixpoint settle {B} (os : list (Exn + B)) : Exn + list B :=
  match os with
  | [] => inr []
  | inl e :: _ => inl e
  | inr b :: rest =>
      match settle rest with
      | inl e => inl e
      | inr bs => inr (b :: bs)
      end
  end.

Definition promiseAll {A B} (f : A -> M B) (xs : list A) : M (list B) :=
  fun w => let '(os, w') := runAll f xs w in (settle os, w').

End Remote.
Import Remote.
Local Open Scope remote_scope.

(* ------------------------------------------------------------------ *)
(** ** utils/imageUpload.ts                                             *)
(* ------------------------------------------------------------------ *)

Module ImageUpload.

(** [name.split('.').pop()]: what follows the last dot, or the whole name. *)
Fixpoint lastSegment (s acc : string) : string :=
  match s with
  | EmptyString => acc
  | String c rest =>
      if Ascii.eqb c "."%char then lastSegment rest EmptyString
      else lastSegment rest (acc ++ String c EmptyString)
  end.

Definition getPublicUrl (base filePath : string) : string :=
  base ++ "/storage/v1/object/public/equipment-images/" ++ filePath.

Definition uploadImage (file : File) (folder : string) : M string :=
  let fileExt := lastSegment (file_name file) EmptyString in
  stem <- draw ;;
  let fileName := stem ++ "." ++ fileExt in
  let filePath := folder ++ "/" ++ fileName in
  uploadError <- remote (StorageUpload filePath file) ;;
  match uploadError with
  | Err message => throw (JsError message)
  | Ok => fun w => (inr (getPublicUrl (supabaseUrl w) filePath), w)
  end.

End ImageUpload.
Import ImageUpload.

(* ------------------------------------------------------------------ *)
(** ** The state of a form component                                    *)
(* ------------------------------------------------------------------ *)

Module Component.

(** The [error], [success] and [loading] state once a handler has run. *)
Record Ui := mkUi {
  error : string;
  success : bool;
  loading : bool
}.

(** [try { body; setSuccess(true) } catch (err) { setError(err instanceof
    Error ? err.message : fallback) } finally { setLoading(false) }],
    entered after [setError(''); setSuccess(false); setLoading(true)]. *)
Definition handler (fallback : string) (body : M unit) (w : World) : Ui * World :=
  match body w with
  | (inr _, w') => (mkUi "" true false, w')
  | (inl (JsError message), w') => (mkUi message false false, w')
  | (inl Thrown, w') => (mkUi fallback false false, w')
  end.

End Component.
Import Component.

(* ------------------------------------------------------------------ *)
(** ** ReservationForm.tsx                                              *)
(* ------------------------------------------------------------------ *)

Module ReservationForm.

(** [type ReservationType = 'equipment' | 'kit'] *)
Inductive ReservationType := TEquipment | TKit.

Record FormData := mkFormData {
  selectedId : string;
  startDate : DateField;
  endDate : DateField;
  reason : string
}.

Definition checkAvailability (reservationType : ReservationType) (formData : FormData)
  : M bool :=
  if negb (truthy (selectedId formData))
     || negb (truthy_date (startDate formData))
     || negb (truthy_date (endDate formData))
  then ret true
  else
    let field :=
      match reservationType with TEquipment => EquipmentId | TKit => KitId end in
    data <- select_reservations field (selectedId formData)
                                (endDate formData) (startDate formData) ;;
    ret (match data with
         | None => true
         | Some rows => (length rows =? 0)%nat
         end).

Definition handleSubmit (profile : option Profile) (reservationType : ReservationType)
           (formData : FormData) (pickupPhotos : list File) : World -> Ui * World :=
  handler "Erro ao criar reserva"
    match profile with
    | None => throw (JsError "Usuário não autenticado")
    | Some profile =>
      if (length pickupPhotos =? 0)%nat
      then throw (JsError "Adicione pelo menos uma foto da retirada")
      else
        isAvailable <- checkAvailability reservationType formData ;;
        if negb isAvailable
        then throw (JsError "Este item já está reservado para o período selecionado")
        else
          photoUrls <- promiseAll
                         (fun photo =>
                            uploadImage photo ("reservations/" ++ profile_id profile))
                         pickupPhotos ;;
          let reservationData :=
            mkReservationData (profile_id profile) (startDate formData)
                              (endDate formData) (reason formData) REmUso photoUrls
                              (match reservationType with
                               | TEquipment => Some (selectedId formData)
                               | TKit => None
                               end)
                              (match reservationType with
                               | TEquipment => None
                               | TKit => Some (selectedId formData)
                               end) in
          inserted <- insert_reservation reservationData ;;
          if negb inserted then throw Thrown
          else
            match reservationType with
            | TEquipment =>
                update_equipment_eq (selectedId formData) EmUso ;;; ret tt
            | TKit =>
                kitEquipment <- select_kit_equipment (selectedId formData) ;;
                match kitEquipment with
                | Some rows =>
                    let equipmentIds := map ke_equipment_id rows in
                    update_equipment_in equipmentIds EmUso ;;; ret tt
                | None => ret tt
                end
            end
    end.

End ReservationForm.

(* ------------------------------------------------------------------ *)
(** ** PickupEquipment.tsx                                              *)
(* ------------------------------------------------------------------ *)

(** An element of the [reservations] prop of the pickup and return dialogs:
    [Reservation & { equipment?: Equipment; kit?: Kit }]. *)
Record ReservationItem := mkReservationItem {
  row : Reservation;
  item_equipment : option Equipment;
  item_kit : option Kit
}.

Module PickupEquipment.

(** What [fetch] does with the notification request: a response with its
    [ok] flag and body, or a rejected promise (network failure). *)
Inductive FetchReply :=
| Responded (ok : bool) (body : string)
| NetworkError.

(** [a || b] on names: an absent or empty name is falsy. *)
Definition orElse (a : option string) (b : string) : string :=
  match a with
  | Some s => if truthy s then s else b
  | None => b
  end.

(** [fetch(apiUrl, { method: 'POST', ... })]: the request is logged. *)
Definition post (payload : EmailData) : M unit :=
  fun w => (inr tt, mkWorld (db w) (replies w) (fresh w) (clock w) (supabaseUrl w) (uid w)
                            (log w ++ [PostSummaryEmail payload]) (console w)).

Definition sendSummaryEmail (net : FetchReply) (profile : option Profile)
           (reservation : ReservationItem) : M unit :=
  match profile with
  | None => ret tt
  | Some profile =>
      let itemName :=
        orElse (option_map eq_name (item_equipment reservation))
               (orElse (option_map kit_name (item_kit reservation)) "Item") in
      let itemType :=
        match item_equipment reservation with
        | Some _ => "equipamento"
        | None => "kit"
        end in
      now <- get_clock ;;
      let emailData :=
        mkEmailData (id (row reservation)) (user_id (row reservation))
                    (email profile) (full_name profile) itemName itemType
                    (start_date (row reservation)) (end_date (row reservation))
                    (Schema.reason (row reservation)) (JsDate.isoDay now) in
      post emailData ;;;
      match net with
      | Responded true _ => ret tt
      | Responded false body => console_error ("Error sending email: " ++ body)
      | NetworkError => console_error "Error calling email function:"
      end
  end.

Definition handlePickup (net : FetchReply) (profile : option Profile)
           (reservations : list ReservationItem) (selectedReservationId : string)
           (pickupPhotos : list File) : World -> Ui * World :=
  handler "Erro ao processar retirada"
    (if negb (truthy selectedReservationId)
     then throw (JsError "Selecione um equipamento ou kit para retirada")
     else if (length pickupPhotos =? 0)%nat
     then throw (JsError "Adicione pelo menos uma foto da retirada")
     else
       match find (fun r => String.eqb (id (row r)) selectedReservationId) reservations with
       | None => throw (JsError "Reserva não encontrada")
       | Some reservation =>
         match profile with
         | None => throw (JsError "Usuário não autenticado")
         | Some p =>
           photoUrls <- promiseAll
                          (fun photo => uploadImage photo ("reservations/" ++ profile_id p))
                          pickupPhotos ;;
           now <- get_clock ;;
           update_reservation selectedReservationId
                              (PickupPatch photoUrls (JsDate.isoDay now)) ;;;
           (if truthy_opt (equipment_id (row reservation)) then
              match equipment_id (row reservation) with
              | Some eid => update_equipment_eq eid EmUso ;;; ret tt
              | None => ret tt
              end
            else if truthy_opt (kit_id (row reservation)) then
              match kit_id (row reservation) with
              | Some kid =>
                  kitEquipment <- select_kit_equipment kid ;;
                  match kitEquipment with
                  | Some rows =>
                      let equipmentIds := map ke_equipment_id rows in
                      update_equipment_in equipmentIds EmUso ;;; ret tt
                  | None => ret tt
                  end
              | None => ret tt
              end
            else ret tt) ;;;
           update_reservation selectedReservationId EmailSentPatch ;;;
           sendSummaryEmail net profile reservation
         end
       end).

End PickupEquipment.

(* ------------------------------------------------------------------ *)
(** ** ReturnEquipment.tsx                                              *)
(* ------------------------------------------------------------------ *)

Module ReturnEquipment.

Definition handleReturn (reservations : list ReservationItem)
           (selectedReservationId : string) (returnPhotos : list File)
  : World -> Ui * World :=
  handler "Erro ao processar devolução"
    (if negb (truthy selectedReservationId)
     then throw (JsError "Selecione um equipamento ou kit para devolver")
     else if (length returnPhotos =? 0)%nat
     then throw (JsError "Adicione pelo menos uma foto da devolução")
     else
       match find (fun r => String.eqb (id (row r)) selectedReservationId) reservations with
       | None => throw (JsError "Reserva não encontrada")
       | Some reservation =>
         photoUrls <- promiseAll
                        (fun photo =>
                           uploadImage photo ("returns/" ++ user_id (row reservation)))
                        returnPhotos ;;
         updated <- update_reservation selectedReservationId (ReturnPatch photoUrls) ;;
         if negb updated then throw Thrown
         else if truthy_opt (equipment_id (row reservation)) then
           match equipment_id (row reservation) with
           | Some eid => update_equipment_eq eid Disponivel ;;; ret tt
           | None => ret tt
           end
         else if truthy_opt (kit_id (row reservation)) then
           match kit_id (row reservation) with
           | Some kid =>
               kitEquipment <- select_kit_equipment kid ;;
               match kitEquipment with
               | Some rows =>
                   let equipmentIds := map ke_equipment_id rows in
                   update_equipment_in equipmentIds Disponivel ;;; ret tt
               | None => ret tt
               end
           | None => ret tt
           end
         else ret tt
       end).

End ReturnEquipment.

(* ------------------------------------------------------------------ *)
(** ** The properties the lifecycle is checked against                  *)
(* ------------------------------------------------------------------ *)

Module Lifecycle.

Import ReservationForm PickupEquipment ReturnEquipment.

(** The interval test of the availability rule: both conditions hold. *)
Definition overlaps (existingStart existingEnd candidateStart candidateEnd : date)
  : Prop :=
  existingStart <= candidateEnd /\ existingEnd >= candidateStart.

(** An active reservation on [target] whose dates intersect the candidate
    window. *)
Definition Conflict (d : Database) (field : ForeignKey) (target : string)
           (candidateStart candidateEnd : date) : Prop :=
  exists r,
    In r (reservations d)
    /\ fk_value field r = Some target
    /\ (status r = Agendado \/ status r = REmUso)
    /\ overlaps (start_date r) (end_date r) candidateStart candidateEnd.

(** What the query of [checkAvailability] selects: an active reservation on
    [target] for which one of the two conditions holds. *)
Definition Blocking (d : Database) (field : ForeignKey) (target : string)
           (candidateStart candidateEnd : date) : Prop :=
  exists r,
    In r (reservations d)
    /\ fk_value field r = Some target
    /\ (status r = Agendado \/ status r = REmUso)
    /\ (start_date r <= candidateEnd \/ end_date r >= candidateStart).

Definition field_of (ty : ReservationType) : ForeignKey :=
  match ty with TEquipment => EquipmentId | TKit => KitId end.

(** The equipment ids joined to a kit. *)
Definition kit_members (d : Database) (kid : string) : list string :=
  map ke_equipment_id
      (filter (fun ke => String.eqb (ke_kit_id ke) kid) (kit_equipment d)).

(** The equipment rows a handler writes for a reservation: the equipment
    itself, or the members of the kit. *)
Definition target_ids (d : Database) (r : Reservation) : list string :=
  if truthy_opt (equipment_id r) then
    match equipment_id r with Some eid => [eid] | None => [] end
  else if truthy_opt (kit_id r) then
    match kit_id r with Some kid => kit_members d kid | None => [] end
  else [].

(** Whether the next remote call is answered without an error. *)
Definition answers (w : World) : bool := is_ok (hd Ok (replies w)).

(** The environment answers every remote call without an error. *)
Definition unfailing (w : World) : Prop :=
  Forall (fun r => r = Ok) (replies w).

(** A reservation claims an equipment unit directly or through its kit. *)
Definition claims (d : Database) (r : Reservation) (eid : string) : Prop :=
  equipment_id r = Some eid
  \/ exists kid, kit_id r = Some kid /\ In eid (kit_members d kid).


(** Active: in use, or scheduled with the pickup completed. *)
Definition active (r : Reservation) : Prop :=
  status r = REmUso \/ (status r = Agendado /\ pickup_completed r = true).

(** Equipment is 'em uso' exactly when an active reservation claims it. *)
Definition StatusInvariant (d : Database) : Prop :=
  forall e,
    In e (equipment d) ->
    (eq_status e = EmUso <->
     exists r, In r (reservations d) /\ active r /\ claims d r (eq_id e)).

(** The dialogs are given rows of the table. *)
Definition loaded (d : Database) (items : list ReservationItem) : Prop :=
  forall it, In it items -> In (row it) (reservations d).

(** States reached from [d0] by Create, Pickup and Return, whatever the
    environment does at each of them. *)
Inductive Reachable (d0 : Database) : Database -> Prop :=
| reach_init : Reachable d0 d0
| reach_create w profile ty form photos :
    Reachable d0 (db w) ->
    Reachable d0 (db (snd (handleSubmit profile ty form photos w)))
| reach_pickup w net profile items sel photos :
    Reachable d0 (db w) ->
    loaded (db w) items ->
    Reachable d0 (db (snd (handlePickup net profile items sel photos w)))
| reach_return w items sel photos :
    Reachable d0 (db w) ->
    loaded (db w) items ->
    Reachable d0 (db (snd (handleReturn items sel photos w))).

(** The public URLs of a run of uploads that all succeed. *)
Fixpoint uploadedUrls (base folder : string) (photos : list File) (stems : list string)
  : list string :=
  match photos with
  | [] => []
  | photo :: rest =>
      let stem := hd "" stems in
      getPublicUrl base
        (folder ++ "/" ++ (stem ++ "." ++ lastSegment (file_name photo) EmptyString))
      :: uploadedUrls base folder rest (tl stems)
  end.

(** The upload requests of such a run. *)
Fixpoint uploadCalls (folder : string) (photos : list File) (stems : list string)
  : list Call :=
  match photos with
  | [] => []
  | photo :: rest =>
      let stem := hd "" stems in
      StorageUpload
        (folder ++ "/" ++ (stem ++ "." ++ lastSegment (file_name photo) EmptyString))
        photo
      :: uploadCalls folder rest (tl stems)
  end.

(** The world once the uploads of [photos] have been sent. *)
Definition after_uploads (folder : string) (photos : list File) (w : World) : World :=
  mkWorld (db w) (skipn (length photos) (replies w))
          (skipn (length photos) (fresh w)) (clock w) (supabaseUrl w) (uid w)
          (log w ++ uploadCalls folder photos (fresh w)) (console w).

(** The body of the notification request for a reservation. *)
Definition emailDataOf (p : Profile) (it : ReservationItem) (now : JsDate.time)
  : EmailData :=
  mkEmailData (id (row it)) (user_id (row it)) (email p) (full_name p)
              (orElse (option_map eq_name (item_equipment it))
                      (orElse (option_map kit_name (item_kit it)) "Item"))
              (match item_equipment it with
               | Some _ => "equipamento"
               | None => "kit"
               end)
              (start_date (row it)) (end_date (row it)) (Schema.reason (row it))
              (JsDate.isoDay now).

(** What a notification attempt writes to the console. *)
Definition console_lines (net : FetchReply) : list string :=
  match net with
  | Responded true _ => []
  | Responded false body => ["Error sending email: " ++ body]
  | NetworkError => ["Error calling email function:"]
  end.


(** The row stored by a Create. *)
Definition created_row (p : Profile) (ty : ReservationType) (f : FormData)
           (photos : list File) (w : World) (s e : date) : Reservation :=
  mkReservation (hd "" (skipn (length photos) (fresh w))) (profile_id p)
                (match ty with TEquipment => Some (selectedId f) | TKit => None end)
                (match ty with TEquipment => None | TKit => Some (selectedId f) end)
                s e (reason f) REmUso
                (uploadedUrls (supabaseUrl w) ("reservations/" ++ profile_id p)
                              photos (fresh w))
                [] false None false.

(** The equipment rows a Create writes. *)
Definition created_targets (ty : ReservationType) (f : FormData) (d : Database)
  : list string :=
  match ty with
  | TEquipment => [selectedId f]
  | TKit => kit_members d (selectedId f)
  end.

End Lifecycle.

(* ------------------------------------------------------------------ *)
(** ** Sample data                                                      *)
(* ------------------------------------------------------------------ *)

Module Sample.

Import ReservationForm PickupEquipment ReturnEquipment.

(** 2025-01-10 is day 20098 since the epoch. *)
Definition jan (day : Z) : date := 20088 + day.

Definition camera : Equipment := mkEquipment "E1" "Camera" Disponivel (Some "U1").
Definition tripod : Equipment := mkEquipment "E2" "Tripe" Disponivel (Some "U1").
Definition studio : Kit := mkKit "K1" "Estudio".

Definition ana : Profile := mkProfile "U1" "ana@example.org" "Ana Souza".

Definition photo : File := mkFile "frente.jpg".

Definition booking (rid : string) (eid kid : option string) (s e : date)
           (st : ReservationStatus) : Reservation :=
  mkReservation rid "U1" eid kid s e "gravacao" st [] [] false None false.

(** One camera, also a member of the kit; no reservation yet. *)
Definition db_empty : Database :=
  mkDatabase [camera] [mkKitEquipment "K1" "E1"] [].

(** The camera is out from the 10th to the 12th. *)
Definition db_10_12 : Database :=
  mkDatabase [set_status EmUso camera] []
             [booking "R1" (Some "E1") None (jan 10) (jan 12) REmUso].

(** A kit of three; the camera is out under a reservation of its own. *)
Definition db_kit_busy : Database :=
  mkDatabase [set_status EmUso camera; tripod; mkEquipment "E3" "Refletor" Disponivel (Some "U1")]
             [mkKitEquipment "K1" "E1"; mkKitEquipment "K1" "E2";
              mkKitEquipment "K1" "E3"]
             [booking "R1" (Some "E1") None (jan 10) (jan 12) REmUso].

(** The same reservations, with every member marked available. *)
Definition db_kit_idle : Database :=
  mkDatabase [camera; tripod; mkEquipment "E3" "Refletor" Disponivel (Some "U1")]
             (kit_equipment db_kit_busy) (reservations db_kit_busy).


(** The camera is booked from the 10th and not yet picked up. *)
Definition db_scheduled : Database :=
  mkDatabase [camera] [mkKitEquipment "K1" "E1"]
             [booking "R1" (Some "E1") None (jan 10) (jan 12) Agendado].

Definition item_R1 (st : ReservationStatus) : ReservationItem :=
  mkReservationItem (booking "R1" (Some "E1") None (jan 10) (jan 12) st)
                    (Some camera) None.

Definition world_of (d : Database) (rs : list Reply) (stems : list string) : World :=
  mkWorld d rs stems (JsDate.ofDateOnly (jan 9) + 15 * 3600000)
          "https://project.supabase.co" "U1" [] [].

Definition form (target : string) (s e : Z) : FormData :=
  mkFormData target (Some (jan s)) (Some (jan e)) "gravacao".


(** Create for the camera, Create for the kit, Return of the camera; every
    remote call is answered.  The tables after each step: *)
Definition url (folder stem : string) : string :=
  "https://project.supabase.co/storage/v1/object/public/equipment-images/"
  ++ folder ++ "/U1/" ++ stem ++ ".jpg".

Definition row_R1 (st : ReservationStatus) (returned : list string) : Reservation :=
  mkReservation "R1" "U1" (Some "E1") None (jan 10) (jan 12) "gravacao" st
                [url "reservations" "a1"] returned false None false.

Definition row_R2 : Reservation :=
  mkReservation "R2" "U1" None (Some "K1") (jan 10) (jan 12) "gravacao" REmUso
                [url "reservations" "a2"] [] false None false.

Definition db_after_camera : Database :=
  mkDatabase [set_status EmUso camera] [mkKitEquipment "K1" "E1"]
             [row_R1 REmUso []].

Definition db_after_kit : Database :=
  mkDatabase [set_status EmUso camera] [mkKitEquipment "K1" "E1"]
             [row_R1 REmUso []; row_R2].

Definition db_after_return : Database :=
  mkDatabase [camera] [mkKitEquipment "K1" "E1"]
             [row_R1 Concluido [url "returns" "a3"]; row_R2].

Definition create_camera : Ui * World :=
  handleSubmit (Some ana) TEquipment (form "E1" 10 12) [photo]
               (world_of db_empty [] ["a1"; "R1"]).

Definition create_kit : Ui * World :=
  handleSubmit (Some ana) TKit (form "K1" 10 12) [photo]
               (world_of db_after_camera [] ["a2"; "R2"]).

Definition return_camera : Ui * World :=
  handleReturn [mkReservationItem (row_R1 REmUso []) (Some camera) None]
               "R1" [photo]
               (world_of db_after_kit [] ["a3"]).

End Sample.

(* ------------------------------------------------------------------ *)
(** ** Calendar days of the JavaScript [Date] constructor               *)
(* ------------------------------------------------------------------ *)

Module JsCalendar.

(** Day number, counted from 1970-01-01, of the civil date [y]-[m]-[d] of
    the Gregorian calendar, for [m] from 1 to 12. *)
Definition daysFromCivil (y m d : Z) : Z :=
  let y' := if m <=? 2 then y - 1 else y in
  let era := y' / 400 in
  let yoe := y' - era * 400 in
  let mp := if m >? 2 then m - 3 else m + 9 in
  let doy := (153 * mp + 2) / 5 + d - 1 in
  let doe := yoe * 365 + yoe / 4 - yoe / 100 + doy in
  era * 146097 + doe - 719468.

(** [new Date(year, month, date)], as the local calendar day it denotes:
    months count from 0 and overflow into the following years; day 0 is the
    last day of the month before. *)
Definition makeDay (year month date : Z) : Z :=
  daysFromCivil (year + month / 12) (month mod 12 + 1) 1 + date - 1.

(** The time value of midnight, local time, of a calendar day. *)
Definition localMidnight (utcOffset day : Z) : JsDate.time :=
  day * JsDate.msPerDay - utcOffset * JsDate.msPerMinute.

(** [getDay()] of a calendar day: 0 is Sunday; 1970-01-01 was a Thursday. *)
Definition weekDay (day : Z) : Z := (day + 4) mod 7.

End JsCalendar.

(* ------------------------------------------------------------------ *)
(** ** utils/imageUpload.ts: validation and deletion                    *)
(* ------------------------------------------------------------------ *)

Module ImageFile.

(** A browser [File] with the attributes [validateImageFile] reads. *)
Record PickedFile := mkPickedFile {
  picked : File;
  file_type : string;
  file_size : Z
}.

Definition validTypes : list string :=
  ["image/jpeg"; "image/jpg"; "image/png"; "image/webp"].

(** Returns the message to show, or [None] for [null]. *)
Definition validateImageFile (file : PickedFile) : option string :=
  if negb (mem (file_type file) validTypes)
  then Some "Apenas imagens JPG, PNG ou WEBP são permitidas"
  else if file_size file >? 5 * 1024 * 1024
  then Some "A imagem deve ter no máximo 5MB"
  else None.

(** [s] without the leading [p], when [s] starts with [p]. *)
Fixpoint dropPrefix (p s : string) : option string :=
  match p with
  | EmptyString => Some s
  | String a p' =>
      match s with
      | EmptyString => None
      | String b s' => if Ascii.eqb a b then dropPrefix p' s' else None
      end
  end.

(** The text before and after the first occurrence of [sep] in [s]. *)
Fixpoint cut (sep s : string) : option (string * string) :=
  match dropPrefix sep s with
  | Some rest => Some (EmptyString, rest)
  | None =>
      match s with
      | EmptyString => None
      | String c s' =>
          match cut sep s' with
          | Some (before, rest) => Some (String c before, rest)
          | None => None
          end
      end
  end.

(** [s.split(sep)[1]] for a separator that is not empty: the text between
    the first and the second occurrence of [sep]; [None] for [undefined]. *)
Definition secondPiece (sep s : string) : option string :=
  match cut sep s with
  | None => None
  | Some (_, rest) =>
      Some (match cut sep rest with
            | Some (piece, _) => piece
            | None => rest
            end)
  end.

(** [deleteImage]: the path given to [remove], or [None] when the function
    returns without a request. *)
Definition deleteImage (url : string) : option string :=
  match secondPiece "/equipment-images/" url with
  | Some path => if truthy path then Some path else None
  | None => None
  end.

End ImageFile.

(* ------------------------------------------------------------------ *)
(** ** The photo list of the reservation, pickup and return forms       *)
(* ------------------------------------------------------------------ *)

Module PhotoInput.

Import ImageFile.

(** [pickupPhotos] ([returnPhotos] in the return dialog), [photoPreviews]
    and [error]. *)
Record PhotoState := mkPhotoState {
  pickupPhotos : list PickedFile;
  photoPreviews : list string;
  error : string
}.

(** The loop of [handlePhotoAdd]: the message of the first file that is
    refused. *)
Fixpoint firstError (files : list PickedFile) : option string :=
  match files with
  | [] => None
  | file :: rest =>
      match validateImageFile file with
      | Some validationError => Some validationError
      | None => firstError rest
      end
  end.

(** The previews are added later, one by one, by [onloadend]. *)
Definition handlePhotoAdd (files : list PickedFile) (st : PhotoState) : PhotoState :=
  match firstError files with
  | Some validationError =>
      mkPhotoState (pickupPhotos st) (photoPreviews st) validationError
  | None =>
      mkPhotoState (pickupPhotos st ++ files) (photoPreviews st) (error st)
  end.

(** [reader.onloadend]: [setPhotoPreviews(prev => [...prev, reader.result])]. *)
Definition onloadend (result : string) (st : PhotoState) : PhotoState :=
  mkPhotoState (pickupPhotos st) (photoPreviews st ++ [result]) (error st).

(** [l.filter((_, i) => keep(i))], for the elements from index [i] on. *)
Fixpoint filterIndex {A} (keep : nat -> bool) (i : nat) (l : list A) : list A :=
  match l with
  | [] => []
  | x :: rest =>
      if keep i then x :: filterIndex keep (S i) rest
      else filterIndex keep (S i) rest
  end.

Definition removePhoto (index : nat) (st : PhotoState) : PhotoState :=
  mkPhotoState (filterIndex (fun i => negb (i =? index)%nat) 0 (pickupPhotos st))
               (filterIndex (fun i => negb (i =? index)%nat) 0 (photoPreviews st))
               (error st).

(** A file that [validateImageFile] accepts. *)
Definition Valid (file : PickedFile) : Prop :=
  In (file_type file) validTypes /\ file_size file <= 5242880.

End PhotoInput.

(* ------------------------------------------------------------------ *)
(** ** ReservationCalendar.tsx: the month view                          *)
(* ------------------------------------------------------------------ *)

Module CalendarMonth.

Import JsCalendar.

(** [interface ReservationWithDetails extends Reservation]: the row with the
    rows joined by the query, under the names of their tables. *)
Record ReservationWithDetails := mkDetails {
  details_row : Reservation;
  details_equipment : option Equipment;
  details_kits : option Kit;
  details_profiles : option Profile
}.

Definition joinEquipment (d : Database) (r : Reservation) : option Equipment :=
  match equipment_id r with
  | Some eid => find (fun e => String.eqb (eq_id e) eid) (equipment d)
  | None => None
  end.

Definition joinKit (kitsTable : list Kit) (r : Reservation) : option Kit :=
  match kit_id r with
  | Some kid => find (fun k => String.eqb (kit_id_of k) kid) kitsTable
  | None => None
  end.

Definition joinProfile (profilesTable : list Profile) (r : Reservation) : option Profile :=
  find (fun p => String.eqb (profile_id p) (user_id r)) profilesTable.

(** [loadReservations] for the month shown ([year] and [month] are
    [currentDate.getFullYear()] and [currentDate.getMonth()]).  [kitsTable]
    and [profilesTable] are the tables [kits] and [profiles]; [d] are the
    tables as the session sees them ([seenBy]); [current] is the list shown
    so far, kept when the query fails. *)
Definition loadReservations (reply : Reply) (utcOffset year month : Z)
           (kitsTable : list Kit) (profilesTable : list Profile) (d : Database)
           (current : list ReservationWithDetails) : list ReservationWithDetails :=
  let startOfMonth := localMidnight utcOffset (makeDay year month 1) in
  let endOfMonth := localMidnight utcOffset (makeDay year (month + 1) 0) in
  if is_ok reply then
    map (fun r => mkDetails r (joinEquipment d r) (joinKit kitsTable r)
                            (joinProfile profilesTable r))
        (filter (fun r => (start_date r >=? JsDate.isoDay startOfMonth)
                          && (end_date r <=? JsDate.isoDay endOfMonth)
                          && status_in [Agendado; REmUso] (status r))
                (reservations d))
  else current.

(** The cells of the month grid: [None] for the empty cells before the
    first day, then the days of the month (each [Date] is the local
    midnight of a calendar day, given here by its day number). *)
Definition getDaysInMonth (year month : Z) : list (option Z) :=
  let firstDay := makeDay year month 1 in
  let lastDay := makeDay year (month + 1) 0 in
  let daysInMonth := lastDay - firstDay + 1 in
  let startingDayOfWeek := weekDay firstDay in
  repeat None (Z.to_nat startingDayOfWeek)
  ++ map (fun day => Some (makeDay year month (Z.of_nat day)))
         (seq 1 (Z.to_nat daysInMonth)).

Definition getReservationsForDate (utcOffset : Z)
           (reservations : list ReservationWithDetails) (date : JsDate.time)
  : list ReservationWithDetails :=
  filter (fun reservation =>
            let start :=
              JsDate.setHours0 utcOffset
                (JsDate.ofDateOnly (start_date (details_row reservation))) in
            let end_ :=
              JsDate.setHours0 utcOffset
                (JsDate.ofDateOnly (end_date (details_row reservation))) in
            let checkDate := JsDate.setHours0 utcOffset date in
            (checkDate >=? start) && (checkDate <=? end_))
         reservations.

(** [handlePickupClick]: the list given to the pickup dialog as its
    [reservations] prop.  The dialog reads the joined kit under the name
    [kit], which the rows of the calendar do not have. *)
Definition handlePickupClick (reservation : ReservationWithDetails)
  : list ReservationItem :=
  [mkReservationItem (details_row reservation) (details_equipment reservation) None].

End CalendarMonth.

(* ------------------------------------------------------------------ *)
(** ** KitList.tsx: loading the kits                                    *)
(* ------------------------------------------------------------------ *)

Module KitListView.

Import KitList.

(** [loadKits].  [kitsData] are the rows of [kits] as the first query
    returns them; [membershipReply] and [equipmentReply] are the outcomes of
    the two queries made for each kit; [current] is the list shown so far. *)
Definition loadKits (kitsReply : Reply) (kitsData : list Kit)
           (membershipReply equipmentReply : Kit -> Reply) (d : Database)
           (current : list KitWithEquipment) : list KitWithEquipment :=
  if is_ok kitsReply then
    map (fun kit =>
           let kitEquipment :=
             if is_ok (membershipReply kit)
             then Some (filter (fun ke => String.eqb (ke_kit_id ke) (kit_id_of kit))
                               (kit_equipment d))
             else None in
           match kitEquipment with
           | Some rows =>
               if (0 <? length rows)%nat then
                 let equipmentIds := map ke_equipment_id rows in
                 let equipment :=
                   if is_ok (equipmentReply kit)
                   then Some (filter (fun e => mem (eq_id e) equipmentIds) (equipment d))
                   else None in
                 mkKitWithEquipment kit (match equipment with
                                         | Some rows => rows
                                         | None => []
                                         end)
               else mkKitWithEquipment kit []
           | None => mkKitWithEquipment kit []
           end)
        kitsData
  else current.

End KitListView.

(* ------------------------------------------------------------------ *)
(** ** Dashboard.tsx                                                    *)
(* ------------------------------------------------------------------ *)

Module DashboardView.

(** [loadPendingReturns]: the reservations of the user that are in use, each
    with its joined equipment (the joined kit comes under the name [kits],
    which the return dialog does not read).  [d] are the tables as the
    session sees them ([seenBy]); the query asks for the rows of the
    profile of the session, which the policy shows. *)
Definition loadPendingReturns (reply : Reply) (profile : option Profile) (d : Database)
           (current : list ReservationItem) : list ReservationItem :=
  match profile with
  | None => current
  | Some p =>
      if is_ok reply then
        map (fun r => mkReservationItem r (CalendarMonth.joinEquipment d r) None)
            (filter (fun r => String.eqb (user_id r) (profile_id p)
                              && reservation_status_eqb (status r) REmUso)
                    (reservations d))
      else current
  end.

(** [s.split(c)]. *)
Fixpoint splitOn (c : ascii) (s : string) : list string :=
  match s with
  | EmptyString => [EmptyString]
  | String a rest =>
      if Ascii.eqb a c then EmptyString :: splitOn c rest
      else match splitOn c rest with
           | piece :: pieces => String a piece :: pieces
           | [] => [String a EmptyString]
           end
  end.

(** [l.join(sep)]. *)
Fixpoint join (sep : string) (l : list string) : string :=
  match l with
  | [] => EmptyString
  | [piece] => piece
  | piece :: rest => piece ++ sep ++ join sep rest
  end.

Definition getFirstTwoNames (fullName : string) : string :=
  let names := splitOn " "%char fullName in
  join " " (firstn 2 names).

End DashboardView.

(* ------------------------------------------------------------------ *)
(** ** ReservationForm.tsx: the lists offered by the form               *)
(* ------------------------------------------------------------------ *)

Module FormLists.

(** [loadEquipment]: the available equipment, in the order of the names.
    [orderByName] is the ordering done by the database. *)
Definition loadEquipment (orderByName : list Equipment -> list Equipment)
           (reply : Reply) (d : Database) (current : list Equipment) : list Equipment :=
  if is_ok reply then
    orderByName (filter (fun e => equipment_status_eqb (eq_status e) Disponivel)
                        (equipment d))
  else current.

End FormLists.

(* ------------------------------------------------------------------ *)
(** ** Characters of a text                                             *)
(* ------------------------------------------------------------------ *)

Module Text.

(** Whether the character [c] occurs in [s]. *)
Fixpoint hasChar (c : ascii) (s : string) : bool :=
  match s with
  | EmptyString => false
  | String a rest => Ascii.eqb a c || hasChar c rest
  end.

(** The number of occurrences of [c] in [s]. *)
Fixpoint countChar (c : ascii) (s : string) : nat :=
  match s with
  | EmptyString => 0%nat
  | String a rest => ((if Ascii.eqb a c then 1 else 0) + countChar c rest)%nat
  end.

End Text.

(* ------------------------------------------------------------------ *)
(** ** What a computation does to the tables and to the log             *)
(* ------------------------------------------------------------------ *)

Module Effects.

(** The computation never writes to a table. *)
Definition reads {A} (c : M A) : Prop :=
  forall w, db (snd (c w)) = db w.

(** The computation never throws. *)
Definition total {A} (c : M A) : Prop :=
  forall w, exists a, fst (c w) = inr a.

(** The tables before and after the computation are related by [R]. *)
Definition keeps {A} (R : Database -> Database -> Prop) (c : M A) : Prop :=
  forall w, R (db w) (db (snd (c w))).

(** When the computation throws, it has written to no table. *)
Definition failsClean {A} (c : M A) : Prop :=
  forall w e, fst (c w) = inl e -> db (snd (c w)) = db w.

(** The computation only appends to the log, and only requests in [Q]. *)
Definition sends {A} (Q : Call -> Prop) (c : M A) : Prop :=
  forall w, exists news, log (snd (c w)) = (log w ++ news)%list /\ Forall Q news.

(** Only the [status] of equipment rows may differ. *)
Definition statusOnly (d d' : Database) : Prop :=
  reservations d' = reservations d
  /\ kit_equipment d' = kit_equipment d
  /\ map eq_id (equipment d') = map eq_id (equipment d)
  /\ map eq_name (equipment d') = map eq_name (equipment d).

(** No row is added or removed, equipment rows may differ in [status] only,
    and only the reservation rows with id [sel] may differ. *)
Definition touchesOnly (sel : string) (d d' : Database) : Prop :=
  kit_equipment d' = kit_equipment d
  /\ map eq_id (equipment d') = map eq_id (equipment d)
  /\ map eq_name (equipment d') = map eq_name (equipment d)
  /\ map id (reservations d') = map id (reservations d)
  /\ filter (fun r => negb (String.eqb (id r) sel)) (reservations d')
     = filter (fun r => negb (String.eqb (id r) sel)) (reservations d).

(** At most one reservation row is appended to the table; otherwise only the
    [status] of equipment rows may differ. *)
Definition appendsRow (d d' : Database) : Prop :=
  kit_equipment d' = kit_equipment d
  /\ map eq_id (equipment d') = map eq_id (equipment d)
  /\ map eq_name (equipment d') = map eq_name (equipment d)
  /\ exists extra,
      reservations d' = (reservations d ++ extra)%list /\ (length extra <= 1)%nat.

(** No row is removed and no id, name or kit membership changes:
    reservation rows are only added, at the end. *)
Definition rowsKept (d d' : Database) : Prop :=
  kit_equipment d' = kit_equipment d
  /\ map eq_id (equipment d') = map eq_id (equipment d)
  /\ map eq_name (equipment d') = map eq_name (equipment d)
  /\ exists added,
      map id (reservations d') = (map id (reservations d) ++ added)%list.

(** When the computation returns [a], the tables before and after it are
    related by [Post a]. *)
Definition yields {A} (c : M A) (Post : A -> Database -> Database -> Prop) : Prop :=
  forall w a, fst (c w) = inr a -> Post a (db w) (db (snd (c w))).

(** The notification requests among the requests satisfy [P]. *)
Definition postsOnly (P : EmailData -> Prop) (c : Call) : Prop :=
  match c with
  | PostSummaryEmail payload => P payload
  | _ => True
  end.

End Effects.

(* ================================================================== *)
(** * Theorems                                                          *)
(* ================================================================== *)

Import KitList ReservationCalendar ReservationForm PickupEquipment ReturnEquipment.
Import Lifecycle.

(* ------------------------------------------------------------------ *)
(** ** Derived kit status                                               *)
(* ------------------------------------------------------------------ *)

Lemma equipment_status_eqb_eq (a b : EquipmentStatus) :
  equipment_status_eqb a b = true <-> a = b.
Proof. destruct a, b; simpl; split; congruence. Qed.

Lemma reservation_status_eqb_eq (a b : ReservationStatus) :
  reservation_status_eqb a b = true <-> a = b.
Proof. destruct a, b; simpl; split; congruence. Qed.

Lemma all_available_iff (l : list Equipment) :
  forallb (fun eq => equipment_status_eqb (eq_status eq) Disponivel) l = true
  <-> forall e, In e l -> eq_status e = Disponivel.
Proof.
  rewrite forallb_forall.
  split; intros H e He; apply equipment_status_eqb_eq; auto.
Qed.

Lemma any_in_use_iff (l : list Equipment) :
  existsb (fun eq => equipment_status_eqb (eq_status eq) EmUso) l = true
  <-> exists e, In e l /\ eq_status e = EmUso.
Proof.
  rewrite existsb_exists.
  split; intros [e [He Hs]]; exists e; split; auto; apply equipment_status_eqb_eq; auto.
Qed.

(** C4. The derived status of a kit is 'vazio' when the kit has no member;
    otherwise 'disponível' when every member is available; otherwise
    'em uso' when some member is in use; otherwise 'reservado'. *)
Theorem getKitStatus_rule (k : KitWithEquipment) :
  (members k = [] -> getKitStatus k = Vazio)
  /\ (members k <> [] ->
      (forall e, In e (members k) -> eq_status e = Disponivel) ->
      getKitStatus k = KitDisponivel)
  /\ (members k <> [] ->
      ~ (forall e, In e (members k) -> eq_status e = Disponivel) ->
      (exists e, In e (members k) /\ eq_status e = EmUso) ->
      getKitStatus k = KitEmUso)
  /\ (members k <> [] ->
      ~ (forall e, In e (members k) -> eq_status e = Disponivel) ->
      ~ (exists e, In e (members k) /\ eq_status e = EmUso) ->
      getKitStatus k = KitReservado).
Proof.
  unfold getKitStatus.
  destruct (members k) as [|m ms] eqn:Hm.
  - repeat split; intros; try reflexivity; congruence.
  - cbn [length Nat.eqb].
    split; [discriminate|].
    split; [|split].
    + intros _ Hall. apply all_available_iff in Hall. now rewrite Hall.
    + intros _ Hnall Hany.
      destruct (forallb _ (m :: ms)) eqn:Hf.
      * exfalso. apply Hnall. now apply all_available_iff.
      * apply any_in_use_iff in Hany. now rewrite Hany.
    + intros _ Hnall Hnany.
      destruct (forallb _ (m :: ms)) eqn:Hf.
      * exfalso. apply Hnall. now apply all_available_iff.
      * destruct (existsb _ (m :: ms)) eqn:He; [|reflexivity].
        exfalso. apply Hnany. now apply any_in_use_iff.
Qed.

Lemma getKitStatus_rule_witness :
  getKitStatus (mkKitWithEquipment Sample.studio []) = Vazio
  /\ getKitStatus (mkKitWithEquipment Sample.studio [Sample.camera; Sample.tripod])
     = KitDisponivel
  /\ getKitStatus (mkKitWithEquipment Sample.studio
                     [Sample.camera; set_status EmUso Sample.tripod]) = KitEmUso
  /\ getKitStatus (mkKitWithEquipment Sample.studio
                     [Sample.camera; set_status Reservado Sample.tripod]) = KitReservado.
Proof.
  split; [|split; [|split]].
  - apply (proj1 (getKitStatus_rule (mkKitWithEquipment Sample.studio []))).
    reflexivity.
  - apply (proj1 (proj2 (getKitStatus_rule
             (mkKitWithEquipment Sample.studio [Sample.camera; Sample.tripod])))).
    + discriminate.
    + simpl. intros e [<-|[<-|[]]]; reflexivity.
  - apply (proj1 (proj2 (proj2 (getKitStatus_rule
             (mkKitWithEquipment Sample.studio
                [Sample.camera; set_status EmUso Sample.tripod]))))).
    + discriminate.
    + simpl. intros H. specialize (H _ (or_intror (or_introl eq_refl))). discriminate.
    + exists (set_status EmUso Sample.tripod). simpl. auto.
  - apply (proj2 (proj2 (proj2 (getKitStatus_rule
             (mkKitWithEquipment Sample.studio
                [Sample.camera; set_status Reservado Sample.tripod]))))).
    + discriminate.
    + simpl. intros H. specialize (H _ (or_intror (or_introl eq_refl))). discriminate.
    + simpl. intros [e [[<-|[<-|[]]] He]]; discriminate.
Defined.

(* ------------------------------------------------------------------ *)
(** ** Pickup eligibility                                               *)
(* ------------------------------------------------------------------ *)

Lemma setHours0_le (off a b : Z) :
  (JsDate.setHours0 off a <=? JsDate.setHours0 off b) = true
  <-> JsDate.localDay off a <= JsDate.localDay off b.
Proof.
  unfold JsDate.setHours0, JsDate.msPerDay.
  rewrite Z.leb_le. lia.
Qed.

(** East of Greenwich (and at UTC) the start day is compared with the
    local day as it is. *)
Lemma isPickupEligible_east (off : Z) (now : JsDate.time) (r : Reservation) :
  0 <= off * JsDate.msPerMinute < JsDate.msPerDay ->
  (isPickupEligible off now r = true
   <-> status r = Agendado /\ start_date r <= JsDate.localDay off now).
Proof.
  intros Hoff. unfold isPickupEligible.
  destruct (reservation_status_eqb (status r) Agendado) eqn:Hs; cbn [negb].
  - apply reservation_status_eqb_eq in Hs.
    rewrite setHours0_le.
    unfold JsDate.localDay at 1. unfold JsDate.ofDateOnly.
    rewrite Z.div_add_l by (unfold JsDate.msPerDay; lia).
    rewrite (Z.div_small _ _ Hoff). intuition lia.
  - split; [discriminate|].
    intros [H _]. apply reservation_status_eqb_eq in H. congruence.
Qed.

(** West of Greenwich the reservation is eligible from the day before its
    start day. *)
Lemma isPickupEligible_west (off : Z) (now : JsDate.time) (r : Reservation) :
  - JsDate.msPerDay <= off * JsDate.msPerMinute < 0 ->
  (isPickupEligible off now r = true
   <-> status r = Agendado /\ start_date r - 1 <= JsDate.localDay off now).
Proof.
  intros Hoff. unfold isPickupEligible.
  destruct (reservation_status_eqb (status r) Agendado) eqn:Hs; cbn [negb].
  - apply reservation_status_eqb_eq in Hs.
    rewrite setHours0_le.
    unfold JsDate.localDay at 1. unfold JsDate.ofDateOnly.
    replace (start_date r * JsDate.msPerDay + off * JsDate.msPerMinute)
      with ((start_date r - 1) * JsDate.msPerDay
            + (off * JsDate.msPerMinute + JsDate.msPerDay)) by lia.
    rewrite Z.div_add_l by (unfold JsDate.msPerDay; lia).
    rewrite Z.div_small by lia. intuition lia.
  - split; [discriminate|].
    intros [H _]. apply reservation_status_eqb_eq in H. congruence.
Qed.

(** C6. With the browser's clock at UTC-3 a reservation that is scheduled to
    start on 2025-01-10 is eligible for pickup at noon of 2025-01-09: the
    start date is read as midnight UTC, which is still the 9th locally. *)
Theorem isPickupEligible_one_day_early :
  let r := Sample.booking "R1" (Some "E1") None (Sample.jan 10) (Sample.jan 12) Agendado in
  let now := JsDate.ofDateOnly (Sample.jan 9) + 15 * 3600000 in
  isPickupEligible (-180) now r = true
  /\ status r = Agendado
  /\ JsDate.localDay (-180) now = Sample.jan 9
  /\ Sample.jan 9 < start_date r.
Proof. vm_compute. repeat split; reflexivity. Qed.

(* ------------------------------------------------------------------ *)
(** ** The availability check                                           *)
(* ------------------------------------------------------------------ *)

Lemma length_zero_false {A} (l : list A) :
  (length l =? 0)%nat = false <-> exists x, In x l.
Proof.
  destruct l as [|x l]; simpl; split; try discriminate; auto.
  - intros [x []].
  - intros _. exists x. now left.
Qed.

Lemma opt_eqb_eq (o : option string) (s : string) :
  opt_eqb o s = true <-> o = Some s.
Proof.
  destruct o as [x|]; simpl.
  - rewrite String.eqb_eq. split; congruence.
  - split; discriminate.
Qed.

Lemma status_in_active (s : ReservationStatus) :
  status_in [Agendado; REmUso] s = true <-> s = Agendado \/ s = REmUso.
Proof. destruct s; simpl; split; intuition discriminate. Qed.

Lemma conflict_filter_iff field target e s r :
  conflict_filter field target e s r = true
  <-> fk_value field r = Some target
      /\ (status r = Agendado \/ status r = REmUso)
      /\ (start_date r <= e \/ end_date r >= s).
Proof.
  unfold conflict_filter.
  rewrite !andb_true_iff, orb_true_iff, opt_eqb_eq, status_in_active,
    Z.leb_le, Z.geb_le.
  intuition lia.
Qed.

(** What [checkAvailability] returns for a complete form. *)
Lemma checkAvailability_complete ty f w s e :
  truthy (selectedId f) = true ->
  startDate f = Some s ->
  endDate f = Some e ->
  fst (checkAvailability ty f w)
  = inr (negb (answers w)
         || (length (filter (conflict_filter (field_of ty) (selectedId f) e s)
                            (reservations (seenBy (uid w) (db w)))) =? 0)%nat).
Proof.
  intros Hid Hs He. unfold checkAvailability, answers.
  rewrite Hid, Hs, He. cbn [negb orb truthy_date].
  unfold select_reservations, bind, remote, get_db, get_uid, ret, field_of.
  cbn. destruct (is_ok (hd Ok (replies w))); destruct ty; reflexivity.
Qed.

(** The check reports a conflict exactly when the query is answered and an
    active reservation on the target, among those the session may see,
    satisfies one of the two date conditions. *)
Lemma checkAvailability_false_iff ty f w s e :
  truthy (selectedId f) = true ->
  startDate f = Some s ->
  endDate f = Some e ->
  (fst (checkAvailability ty f w) = inr false
   <-> answers w = true
       /\ Blocking (seenBy (uid w) (db w)) (field_of ty) (selectedId f) s e).
Proof.
  intros Hid Hs He.
  rewrite (checkAvailability_complete ty f w s e Hid Hs He).
  split.
  - intros H. injection H as H.
    apply orb_false_iff in H. destruct H as [Ha Hl].
    apply negb_false_iff in Ha. split; [exact Ha|].
    apply length_zero_false in Hl. destruct Hl as [r Hr].
    apply filter_In in Hr. destruct Hr as [Hin Hf].
    apply conflict_filter_iff in Hf.
    exists r. tauto.
  - intros [Ha [r [Hin Hr]]]. rewrite Ha. cbn [negb orb]. f_equal.
    apply length_zero_false. exists r.
    apply filter_In. split; [exact Hin|].
    apply conflict_filter_iff. tauto.
Qed.

(** For date ranges in order, one of the two date conditions always holds:
    every active reservation on the target blocks every window. *)
Lemma any_active_reservation_blocks d field target s e r :
  In r (reservations d) ->
  fk_value field r = Some target ->
  status r = Agendado \/ status r = REmUso ->
  start_date r <= end_date r ->
  s <= e ->
  Blocking d field target s e.
Proof.
  intros Hin Hfk Hst Hr Hc. exists r.
  repeat split; auto.
  destruct (Z_le_gt_dec (start_date r) e); [left|right]; lia.
Qed.

(** C1. The camera is reserved from the 10th to the 12th; a request for the
    13th to the 15th overlaps no reservation, and [checkAvailability]
    reports a conflict. *)
Theorem checkAvailability_rejects_free_window :
  fst (checkAvailability TEquipment (Sample.form "E1" 13 15)
                         (Sample.world_of Sample.db_10_12 [] []))
  = inr false
  /\ ~ Conflict Sample.db_10_12 EquipmentId "E1" (Sample.jan 13) (Sample.jan 15).
Proof.
  split; [reflexivity|].
  intros [r [Hin [_ [_ [_ Hend]]]]].
  destruct Hin as [<-|[]]. vm_compute in Hend. apply Hend. reflexivity.
Qed.

(** C9. When the target id, the start date or the end date of the form is
    empty, [checkAvailability] answers [true] and sends no request. *)
Theorem checkAvailability_incomplete_form ty f w :
  selectedId f = "" \/ startDate f = None \/ endDate f = None ->
  checkAvailability ty f w = (inr true, w).
Proof.
  intros H. unfold checkAvailability.
  destruct H as [H|[H|H]]; rewrite H; cbn [truthy String.eqb negb truthy_date orb].
  - reflexivity.
  - rewrite orb_true_r. reflexivity.
  - rewrite orb_true_r. reflexivity.
Qed.

Lemma checkAvailability_incomplete_form_witness :
  checkAvailability TEquipment (mkFormData "" (Some (Sample.jan 13)) None "gravacao")
                    (Sample.world_of Sample.db_10_12 [] [])
  = (inr true, Sample.world_of Sample.db_10_12 [] []).
Proof.
  apply checkAvailability_incomplete_form. left. reflexivity.
Defined.

(** C5. [checkAvailability] reads the reservation rows only: two states in
    which the session sees the same reservations (as for the same user and
    the same reservation rows) give the same answer, whatever the equipment
    rows say; and a kit none of whose own reservations is active is
    reported available, whatever its members are doing. *)
Theorem checkAvailability_ignores_equipment_status :
  (forall ty f w1 w2,
      reservations (seenBy (uid w1) (db w1)) = reservations (seenBy (uid w2) (db w2)) ->
      replies w1 = replies w2 ->
      fst (checkAvailability ty f w1) = fst (checkAvailability ty f w2))
  /\ (forall f w,
         (forall r, In r (reservations (db w)) ->
                    kit_id r = Some (selectedId f) ->
                    status r = Concluido \/ status r = Cancelado) ->
         fst (checkAvailability TKit f w) = inr true).
Proof.
  split.
  - intros ty f w1 w2 Hres Hrep. unfold checkAvailability.
    destruct (negb (truthy (selectedId f)) || negb (truthy_date (startDate f))
              || negb (truthy_date (endDate f))); [reflexivity|].
    unfold select_reservations, bind, remote, get_db, get_uid, ret.
    cbn [fst snd db uid replies]. rewrite Hrep.
    destruct (is_ok (hd Ok (replies w2))), (endDate f), (startDate f);
      cbn [fst snd db uid replies]; rewrite ?Hres; reflexivity.
  - intros f w Hnone.
    destruct (truthy (selectedId f)) eqn:Hid.
    2:{ unfold checkAvailability. rewrite Hid. reflexivity. }
    destruct (startDate f) as [s|] eqn:Hs.
    2:{ unfold checkAvailability. rewrite Hid, Hs. reflexivity. }
    destruct (endDate f) as [e|] eqn:He.
    2:{ unfold checkAvailability. rewrite Hid, Hs, He. reflexivity. }
    destruct (fst (checkAvailability TKit f w)) as [x|[|]] eqn:Hc.
    + rewrite (checkAvailability_complete TKit f w s e Hid Hs He) in Hc. discriminate.
    + reflexivity.
    + apply (checkAvailability_false_iff TKit f w s e Hid Hs He) in Hc.
      destruct Hc as [_ [r [Hin [Hfk [Hst _]]]]].
      apply filter_In in Hin. destruct Hin as [Hin _].
      destruct (Hnone r Hin Hfk) as [H|H]; rewrite H in Hst;
        destruct Hst; discriminate.
Qed.

Lemma checkAvailability_ignores_equipment_status_witness :
  fst (checkAvailability TKit (Sample.form "K1" 10 12)
                         (Sample.world_of Sample.db_kit_idle [] []))
  = fst (checkAvailability TKit (Sample.form "K1" 10 12)
                           (Sample.world_of Sample.db_kit_busy [] []))
  /\ getKitStatus (mkKitWithEquipment Sample.studio (equipment Sample.db_kit_busy))
     = KitEmUso
  /\ fst (checkAvailability TKit (Sample.form "K1" 10 12)
                            (Sample.world_of Sample.db_kit_busy [] []))
     = inr true.
Proof.
  split; [|split].
  - apply (proj1 checkAvailability_ignores_equipment_status); reflexivity.
  - reflexivity.
  - apply (proj2 checkAvailability_ignores_equipment_status).
    simpl. intros r [<-|[]] H. discriminate.
Defined.

(* ------------------------------------------------------------------ *)
(** ** Empty photo lists                                                *)
(* ------------------------------------------------------------------ *)

(** C8. Create, Pickup and Return with an empty photo list end with an error
    message and leave the world as it was: no request is logged and no
    table changes. *)
Theorem empty_photo_list_sends_nothing (w : World) :
  (forall profile ty f,
      handleSubmit profile ty f [] w
      = (mkUi (match profile with
               | None => "Usuário não autenticado"
               | Some _ => "Adicione pelo menos uma foto da retirada"
               end) false false, w))
  /\ (forall net profile items sel,
         handlePickup net profile items sel [] w
         = (mkUi (if truthy sel
                  then "Adicione pelo menos uma foto da retirada"
                  else "Selecione um equipamento ou kit para retirada") false false, w))
  /\ (forall items sel,
         handleReturn items sel [] w
         = (mkUi (if truthy sel
                  then "Adicione pelo menos uma foto da devolução"
                  else "Selecione um equipamento ou kit para devolver") false false, w)).
Proof.
  split; [|split].
  - intros [p|] ty f; reflexivity.
  - intros net profile items sel. unfold handlePickup.
    destruct (truthy sel); reflexivity.
  - intros items sel. unfold handleReturn.
    destruct (truthy sel); reflexivity.
Qed.

(* ------------------------------------------------------------------ *)
(** ** Uploads                                                          *)
(* ------------------------------------------------------------------ *)

Lemma skipn_S_tl {A} (n : nat) (l : list A) : skipn (S n) l = skipn n (tl l).
Proof. destruct l; simpl; [now rewrite skipn_nil|reflexivity]. Qed.

Lemma unfailing_hd rs : Forall (fun r => r = Ok) rs -> hd Ok rs = Ok.
Proof. intros H. destruct H; [reflexivity|assumption]. Qed.

Lemma unfailing_tl rs : Forall (fun r => r = Ok) rs -> Forall (fun r => r = Ok) (tl rs).
Proof. intros H. destruct H; [constructor|assumption]. Qed.

Lemma unfailing_skipn n rs :
  Forall (fun r => r = Ok) rs -> Forall (fun r => r = Ok) (skipn n rs).
Proof.
  revert rs. induction n as [|n IH]; intros rs H; [exact H|].
  rewrite skipn_S_tl. apply IH. now apply unfailing_tl.
Qed.

(** Whatever the store answers, every upload is sent. *)
Lemma runAll_upload_world folder photos w :
  snd (runAll (fun photo => uploadImage photo folder) photos w)
  = after_uploads folder photos w.
Proof.
  revert w. induction photos as [|photo rest IH]; intros w.
  - destruct w. unfold after_uploads. cbn. now rewrite app_nil_r.
  - cbn [runAll].
    destruct (uploadImage photo folder w) as [o w1] eqn:Hup.
    specialize (IH w1).
    destruct (runAll _ rest w1) as [os w2]. cbn [snd] in *. subst w2.
    unfold uploadImage, bind, draw, remote in Hup. cbn in Hup.
    assert (Hw1 : w1 = mkWorld (db w) (tl (replies w)) (tl (fresh w)) (clock w)
                               (supabaseUrl w) (uid w)
                               (log w ++ [StorageUpload
                                  (folder ++ "/" ++ (hd "" (fresh w) ++ "."
                                     ++ lastSegment (file_name photo) EmptyString))
                                  photo])
                               (console w)).
    { destruct (hd Ok (replies w)); cbn in Hup; injection Hup as _ <-; reflexivity. }
    subst w1. unfold after_uploads.
    cbn [db replies fresh clock supabaseUrl log console length uploadCalls].
    rewrite !skipn_S_tl, <- app_assoc. reflexivity.
Qed.

(** When the store accepts every file, the result is the list of public
    URLs, in the order of the photos. *)
Lemma runAll_upload_ok folder photos w :
  unfailing w ->
  fst (runAll (fun photo => uploadImage photo folder) photos w)
  = map inr (uploadedUrls (supabaseUrl w) folder photos (fresh w)).
Proof.
  unfold unfailing. revert w. induction photos as [|photo rest IH]; intros w Hw.
  - reflexivity.
  - cbn [runAll].
    destruct (uploadImage photo folder w) as [o w1] eqn:Hup.
    unfold uploadImage, bind, draw, remote in Hup. cbn in Hup.
    rewrite (unfailing_hd _ Hw) in Hup. cbn in Hup.
    injection Hup as <- <-.
    match goal with |- context [runAll ?f rest ?w1] =>
      specialize (IH w1); destruct (runAll f rest w1) as [os w2] end.
    cbn [fst replies supabaseUrl fresh] in *.
    rewrite IH by now apply unfailing_tl.
    reflexivity.
Qed.

Lemma settle_values {B} (l : list B) : settle (map inr l) = inr l.
Proof. induction l as [|b l IH]; cbn; [reflexivity|now rewrite IH]. Qed.

Lemma promiseAll_upload_world folder photos w :
  snd (promiseAll (fun photo => uploadImage photo folder) photos w)
  = after_uploads folder photos w.
Proof.
  unfold promiseAll. rewrite <- runAll_upload_world.
  destruct (runAll _ photos w). reflexivity.
Qed.

Lemma promiseAll_upload_ok folder photos w :
  unfailing w ->
  promiseAll (fun photo => uploadImage photo folder) photos w
  = (inr (uploadedUrls (supabaseUrl w) folder photos (fresh w)),
     after_uploads folder photos w).
Proof.
  intros Hw. unfold promiseAll.
  pose proof (runAll_upload_ok folder photos w Hw) as Hf.
  pose proof (runAll_upload_world folder photos w) as Hs.
  destruct (runAll _ photos w) as [os w']. cbn [fst snd] in *. subst.
  now rewrite settle_values.
Qed.

(* ------------------------------------------------------------------ *)
(** ** Database calls that are answered without an error                *)
(* ------------------------------------------------------------------ *)

Ltac unfailing_tac :=
  unfold unfailing in *; cbn [replies after_uploads];
  repeat (apply unfailing_tl || apply unfailing_skipn); assumption.

Lemma update_reservation_ok rid p w :
  unfailing w ->
  update_reservation rid p w
  = (inr true,
     mkWorld (patch_reservations rid p (db w)) (tl (replies w)) (fresh w) (clock w)
             (supabaseUrl w) (uid w) (log w ++ [UpdateReservation rid p]) (console w)).
Proof.
  intros H. unfold update_reservation, bind, remote.
  rewrite (unfailing_hd _ H). reflexivity.
Qed.

Lemma update_equipment_eq_ok eid st w :
  unfailing w ->
  update_equipment_eq eid st w
  = (inr true,
     mkWorld (set_equipment_status (uid w) [eid] st (db w)) (tl (replies w)) (fresh w) (clock w)
             (supabaseUrl w) (uid w) (log w ++ [UpdateEquipmentEq eid st]) (console w)).
Proof.
  intros H. unfold update_equipment_eq, bind, remote.
  rewrite (unfailing_hd _ H). reflexivity.
Qed.

Lemma update_equipment_in_ok eids st w :
  unfailing w ->
  update_equipment_in eids st w
  = (inr true,
     mkWorld (set_equipment_status (uid w) eids st (db w)) (tl (replies w)) (fresh w) (clock w)
             (supabaseUrl w) (uid w) (log w ++ [UpdateEquipmentIn eids st]) (console w)).
Proof.
  intros H. unfold update_equipment_in, bind, remote.
  rewrite (unfailing_hd _ H). reflexivity.
Qed.

Lemma select_kit_equipment_ok kid w :
  unfailing w ->
  select_kit_equipment kid w
  = (inr (Some (filter (fun ke => String.eqb (ke_kit_id ke) kid) (kit_equipment (db w)))),
     mkWorld (db w) (tl (replies w)) (fresh w) (clock w)
             (supabaseUrl w) (uid w) (log w ++ [SelectKitEquipment kid]) (console w)).
Proof.
  intros H. unfold select_kit_equipment, bind, remote, get_db.
  rewrite (unfailing_hd _ H). reflexivity.
Qed.

Lemma apply_patch_id p r : id (apply_patch p r) = id r.
Proof. destruct p; reflexivity. Qed.

Lemma nonempty_length {A} (l : list A) : l <> [] -> (length l =? 0)%nat = false.
Proof. destruct l; [congruence|reflexivity]. Qed.

(* ------------------------------------------------------------------ *)
(** ** Return                                                           *)
(* ------------------------------------------------------------------ *)


(* ------------------------------------------------------------------ *)
(** ** Rows after an update                                             *)
(* ------------------------------------------------------------------ *)

Lemma mem_In s l : mem s l = true <-> In s l.
Proof.
  unfold mem. rewrite existsb_exists. split.
  - intros [x [Hx He]]. apply String.eqb_eq in He. now subst.
  - intros H. exists s. split; [exact H|apply String.eqb_refl].
Qed.

Lemma patched_row_in (f : Reservation -> Reservation) rid l r :
  In r l -> id r = rid ->
  In (f r) (map (fun r => if String.eqb (id r) rid then f r else r) l).
Proof.
  intros Hin Hid. apply in_map_iff. exists r. split; [|exact Hin].
  subst rid. now rewrite String.eqb_refl.
Qed.

Lemma patched_rows (f : Reservation -> Reservation) rid l r' :
  In r' (map (fun r => if String.eqb (id r) rid then f r else r) l) ->
  id r' = rid ->
  exists r, In r l /\ id r = rid /\ r' = f r.
Proof.
  intros Hin Hid. apply in_map_iff in Hin. destruct Hin as [r [Hr Hin]].
  exists r. destruct (String.eqb (id r) rid) eqn:E.
  - apply String.eqb_eq in E. auto.
  - subst r'. apply String.eqb_neq in E. contradiction.
Qed.

Lemma status_set_ids caller ts st l :
  map eq_id (map (fun e => if mem (eq_id e) ts && may_update caller e
                           then set_status st e else e) l)
  = map eq_id l.
Proof.
  rewrite map_map. apply map_ext. intros e.
  destruct (mem (eq_id e) ts && may_update caller e); reflexivity.
Qed.

Lemma may_update_iff caller e :
  may_update caller e = true <-> eq_created_by e = Some caller.
Proof. apply opt_eqb_eq. Qed.

(** The rows the caller created among the targets carry the new status. *)
Lemma status_set_targets caller ts st l e' :
  In e' (map (fun e => if mem (eq_id e) ts && may_update caller e
                       then set_status st e else e) l) ->
  In (eq_id e') ts ->
  eq_created_by e' = Some caller ->
  eq_status e' = st.
Proof.
  intros Hin Ht Hc. apply in_map_iff in Hin. destruct Hin as [e [He Hin]].
  destruct (mem (eq_id e) ts && may_update caller e) eqn:E.
  - subst e'. reflexivity.
  - subst e'. apply mem_In in Ht. apply may_update_iff in Hc.
    rewrite Ht, Hc in E. discriminate.
Qed.

(** The rows someone else created are left as they are. *)
Lemma status_set_foreign caller ts st l e :
  In e l ->
  eq_created_by e <> Some caller ->
  In e (map (fun e => if mem (eq_id e) ts && may_update caller e
                      then set_status st e else e) l).
Proof.
  intros Hin Hc. apply in_map_iff. exists e. split; [|exact Hin].
  destruct (may_update caller e) eqn:E.
  - apply may_update_iff in E. contradiction.
  - now rewrite andb_false_r.
Qed.






(** The same with every request answered, for equipment that another user
    registered: the policy on UPDATE leaves the row out and the reply
    carries no error. *)
Lemma return_leaves_foreign_equipment_in_use :
  let microphone := mkEquipment "E9" "Microfone" EmUso (Some "U2") in
  let d := mkDatabase [microphone] []
             [Sample.booking "R9" (Some "E9") None (Sample.jan 10) (Sample.jan 12) REmUso] in
  let item := mkReservationItem
                (Sample.booking "R9" (Some "E9") None (Sample.jan 10) (Sample.jan 12) REmUso)
                (Some microphone) None in
  let run := handleReturn [item] "R9" [Sample.photo] (Sample.world_of d [] ["a3"]) in
  fst run = mkUi "" true false
  /\ map status (reservations (db (snd run))) = [Concluido]
  /\ equipment (db (snd run)) = [microphone].
Proof.
  intros microphone d item run.
  split; [vm_compute; reflexivity|].
  split; vm_compute; reflexivity.
Qed.

(* ------------------------------------------------------------------ *)
(** ** Database calls, whatever the answer                              *)
(* ------------------------------------------------------------------ *)

Lemma update_reservation_run rid p w :
  update_reservation rid p w
  = (inr (answers w),
     mkWorld (if answers w then patch_reservations rid p (db w) else db w)
             (tl (replies w)) (fresh w) (clock w) (supabaseUrl w) (uid w)
             (log w ++ [UpdateReservation rid p]) (console w)).
Proof.
  unfold update_reservation, bind, remote, answers.
  destruct (is_ok (hd Ok (replies w))); reflexivity.
Qed.

Lemma update_equipment_eq_run eid st w :
  update_equipment_eq eid st w
  = (inr (answers w),
     mkWorld (if answers w then set_equipment_status (uid w) [eid] st (db w) else db w)
             (tl (replies w)) (fresh w) (clock w) (supabaseUrl w) (uid w)
             (log w ++ [UpdateEquipmentEq eid st]) (console w)).
Proof.
  unfold update_equipment_eq, bind, remote, answers.
  destruct (is_ok (hd Ok (replies w))); reflexivity.
Qed.

Lemma update_equipment_in_run eids st w :
  update_equipment_in eids st w
  = (inr (answers w),
     mkWorld (if answers w then set_equipment_status (uid w) eids st (db w) else db w)
             (tl (replies w)) (fresh w) (clock w) (supabaseUrl w) (uid w)
             (log w ++ [UpdateEquipmentIn eids st]) (console w)).
Proof.
  unfold update_equipment_in, bind, remote, answers.
  destruct (is_ok (hd Ok (replies w))); reflexivity.
Qed.

Lemma select_kit_equipment_run kid w :
  select_kit_equipment kid w
  = (inr (if answers w
          then Some (filter (fun ke => String.eqb (ke_kit_id ke) kid)
                            (kit_equipment (db w)))
          else None),
     mkWorld (db w) (tl (replies w)) (fresh w) (clock w) (supabaseUrl w) (uid w)
             (log w ++ [SelectKitEquipment kid]) (console w)).
Proof.
  unfold select_kit_equipment, bind, remote, get_db, answers.
  destruct (is_ok (hd Ok (replies w))); reflexivity.
Qed.

Lemma sendSummaryEmail_run net p it w :
  sendSummaryEmail net (Some p) it w
  = (inr tt,
     mkWorld (db w) (replies w) (fresh w) (clock w) (supabaseUrl w) (uid w)
             (log w ++ [PostSummaryEmail (emailDataOf p it (clock w))])
             (console w ++ console_lines net)).
Proof.
  unfold sendSummaryEmail, bind, get_clock, post, console_error, ret, emailDataOf.
  destruct net as [[|] body|]; cbn [console_lines db replies fresh clock supabaseUrl
                                    log console];
    rewrite ?app_nil_r; reflexivity.
Qed.

Lemma uploadCalls_no_post folder photos stems :
  existsb is_post (uploadCalls folder photos stems) = false.
Proof.
  revert stems. induction photos as [|p ps IH]; intros stems; cbn; auto.
Qed.

(* ------------------------------------------------------------------ *)
(** ** Pickup                                                           *)
(* ------------------------------------------------------------------ *)

Ltac step H :=
  unfold bind at 1 in H;
  rewrite ?update_reservation_run, ?update_equipment_eq_run,
    ?update_equipment_in_run, ?select_kit_equipment_run,
    ?sendSummaryEmail_run in H;
  unfold get_clock, ret in H;
  cbv beta iota in H.

(** The shape of every run of [handlePickup]: the message shown, the tables
    and the requests sent do not depend on what happens to the notification;
    a run that succeeds ends with the update of [email_sent] followed by the
    one notification request. *)
Lemma handlePickup_shape profile items sel photos w :
  exists (ui : Ui) (d' : Database) (news : list Call),
    (forall net,
        fst (handlePickup net profile items sel photos w) = ui
        /\ db (snd (handlePickup net profile items sel photos w)) = d'
        /\ log (snd (handlePickup net profile items sel photos w)) = (log w ++ news)%list
        /\ console (snd (handlePickup net profile items sel photos w))
           = (console w ++ (if success ui then console_lines net else []))%list)
    /\ (success ui = false /\ existsb is_post news = false
        \/ success ui = true /\ error ui = ""
           /\ exists pre payload,
               news = (pre ++ [UpdateReservation sel EmailSentPatch;
                               PostSummaryEmail payload])%list
               /\ existsb is_post pre = false).
Proof.
  destruct (truthy sel) eqn:Hsel.
  2:{ exists (mkUi "Selecione um equipamento ou kit para retirada" false false), (db w), [].
      split; [|left; auto].
      intros net. unfold handlePickup, handler. rewrite Hsel. cbn.
      rewrite !app_nil_r. auto. }
  destruct photos as [|ph phs].
  { exists (mkUi "Adicione pelo menos uma foto da retirada" false false), (db w), [].
    split; [|left; auto].
    intros net. unfold handlePickup, handler. rewrite Hsel. cbn.
    rewrite !app_nil_r. auto. }
  destruct (find (fun r => String.eqb (id (row r)) sel) items) as [it|] eqn:Hfind.
  2:{ exists (mkUi "Reserva não encontrada" false false), (db w), [].
      split; [|left; auto].
      intros net. unfold handlePickup, handler. rewrite Hsel, Hfind. cbn.
      rewrite !app_nil_r. auto. }
  destruct profile as [p|].
  2:{ exists (mkUi "Usuário não autenticado" false false), (db w), [].
      split; [|left; auto].
      intros net. unfold handlePickup, handler. rewrite Hsel, Hfind. cbn.
      rewrite !app_nil_r. auto. }
  set (folder := "reservations/" ++ profile_id p).
  destruct (promiseAll (fun photo => uploadImage photo folder) (ph :: phs) w)
    as [[e|urls] w1] eqn:Hup;
    pose proof (promiseAll_upload_world folder (ph :: phs) w) as Hw1;
    rewrite Hup in Hw1; cbn [snd] in Hw1.
  - exists (match e with
            | JsError message => mkUi message false false
            | Thrown => mkUi "Erro ao processar retirada" false false
            end), (db w), (uploadCalls folder (ph :: phs) (fresh w)).
    split.
    + intros net.
      remember (handlePickup net (Some p) items sel (ph :: phs) w) as res eqn:Hres.
      unfold handlePickup, handler in Hres.
      rewrite Hsel, Hfind in Hres. cbn [negb length Nat.eqb] in Hres.
      unfold bind at 1 in Hres. fold folder in Hres. rewrite Hup in Hres.
      subst w1. destruct e; subst res; cbn [fst snd success after_uploads db log console];
        rewrite app_nil_r; auto.
    + left. split; [destruct e; reflexivity|apply uploadCalls_no_post].
  - assert (Hrun : exists d' fan,
               existsb is_post fan = false
               /\ forall net,
                 handlePickup net (Some p) items sel (ph :: phs) w
                 = (mkUi "" true false,
                    mkWorld d' (replies (snd (handlePickup net (Some p) items sel (ph :: phs) w)))
                            (fresh w1) (clock w1) (supabaseUrl w1) (uid w1)
                            (log w1
                             ++ [UpdateReservation sel
                                   (PickupPatch urls (JsDate.isoDay (clock w1)))]
                             ++ fan
                             ++ [UpdateReservation sel EmailSentPatch;
                                 PostSummaryEmail (emailDataOf p it (clock w1))])
                            (console w1 ++ console_lines net))).
    { assert (Hstart : forall net,
                 handlePickup net (Some p) items sel (ph :: phs) w
                 = handler "Erro ao processar retirada"
                     (now <- get_clock ;;
                      update_reservation sel (PickupPatch urls (JsDate.isoDay now)) ;;;
                      (if truthy_opt (equipment_id (row it)) then
                         match equipment_id (row it) with
                         | Some eid => update_equipment_eq eid EmUso ;;; ret tt
                         | None => ret tt
                         end
                       else if truthy_opt (kit_id (row it)) then
                         match kit_id (row it) with
                         | Some kid =>
                             kitEquipment <- select_kit_equipment kid ;;
                             match kitEquipment with
                             | Some rows =>
                                 let equipmentIds := map ke_equipment_id rows in
                                 update_equipment_in equipmentIds EmUso ;;; ret tt
                             | None => ret tt
                             end
                         | None => ret tt
                         end
                       else ret tt) ;;;
                      update_reservation sel EmailSentPatch ;;;
                      sendSummaryEmail net (Some p) it) w1).
      { intros net. unfold handlePickup, handler.
        rewrite Hsel, Hfind. cbn [negb length Nat.eqb].
        unfold bind at 1. fold folder. rewrite Hup. reflexivity. }
      destruct (is_ok (hd Ok (replies w1))) eqn:Hu1;
        (destruct (truthy_opt (equipment_id (row it))) eqn:He;
         [ destruct (equipment_id (row it)) as [eid|] eqn:Heid; [|discriminate He];
           eexists; exists [UpdateEquipmentEq eid EmUso]
         | destruct (truthy_opt (kit_id (row it))) eqn:Hk;
           [ destruct (kit_id (row it)) as [kid|] eqn:Hkid; [|discriminate Hk];
             destruct (is_ok (hd Ok (tl (replies w1)))) eqn:Hsk;
             [ eexists;
               exists [SelectKitEquipment kid;
                       UpdateEquipmentIn
                         (map ke_equipment_id
                              (filter (fun ke => String.eqb (ke_kit_id ke) kid)
                                      (kit_equipment (db w1)))) EmUso]
             | eexists; exists [SelectKitEquipment kid] ]
           | eexists; exists [] ] ]);
        (split; [reflexivity|]);
        intros net;
        remember (handlePickup net (Some p) items sel (ph :: phs) w) as res eqn:Hres;
        rewrite Hstart in Hres; unfold handler in Hres;
        do 4 step Hres;
        unfold answers in Hres;
        cbn [replies db fresh clock supabaseUrl log console] in Hres;
        rewrite ?Hu1, ?Hsk in Hres; cbv beta iota in Hres;
        repeat step Hres;
        cbn [replies db fresh clock supabaseUrl log console
             kit_equipment patch_reservations] in Hres;
        subst res; cbn [snd replies db fresh clock supabaseUrl log console];
        rewrite <- ?app_assoc; cbn [app]; reflexivity. }
    destruct Hrun as [d' [fan [Hfan Hrun]]].
    exists (mkUi "" true false), d',
      (uploadCalls folder (ph :: phs) (fresh w)
       ++ [UpdateReservation sel (PickupPatch urls (JsDate.isoDay (clock w1)))]
       ++ fan
       ++ [UpdateReservation sel EmailSentPatch;
           PostSummaryEmail (emailDataOf p it (clock w1))])%list.
    split.
    + intros net. rewrite Hrun.
      cbn [fst snd db log console success]. subst w1.
      unfold after_uploads. cbn [log console clock].
      rewrite <- !app_assoc. repeat split; reflexivity.
    + right. split; [reflexivity|]. split; [reflexivity|].
      exists (uploadCalls folder (ph :: phs) (fresh w)
              ++ [UpdateReservation sel (PickupPatch urls (JsDate.isoDay (clock w1)))]
              ++ fan)%list,
        (emailDataOf p it (clock w1)).
      split; [rewrite <- !app_assoc; reflexivity|].
      rewrite !existsb_app, uploadCalls_no_post, Hfan. reflexivity.
Qed.

Ltac run H :=
  unfold bind at 1 in H;
  rewrite ?update_reservation_ok, ?update_equipment_eq_ok,
    ?update_equipment_in_ok, ?select_kit_equipment_ok in H by unfailing_tac;
  rewrite ?sendSummaryEmail_run in H;
  unfold get_clock, ret in H;
  cbv beta iota in H.

Lemma patch_twice rid p1 p2 l :
  map (fun r => if String.eqb (id r) rid then apply_patch p2 r else r)
      (map (fun r => if String.eqb (id r) rid then apply_patch p1 r else r) l)
  = map (fun r => if String.eqb (id r) rid
                  then apply_patch p2 (apply_patch p1 r) else r) l.
Proof.
  rewrite map_map. apply map_ext. intros r.
  destruct (String.eqb (id r) rid) eqn:E; [|now rewrite E].
  now rewrite apply_patch_id, E.
Qed.

(** The tables after a Pickup all of whose database and storage calls are
    answered, whatever happens to the notification. *)
Lemma handlePickup_run net p items sel photos w it :
  truthy sel = true ->
  photos <> [] ->
  find (fun r => String.eqb (id (row r)) sel) items = Some it ->
  unfailing w ->
  let urls :=
    uploadedUrls (supabaseUrl w) ("reservations/" ++ profile_id p) photos (fresh w) in
  let w' := snd (handlePickup net (Some p) items sel photos w) in
  fst (handlePickup net (Some p) items sel photos w) = mkUi "" true false
  /\ reservations (db w')
     = map (fun r => if String.eqb (id r) sel
                     then apply_patch EmailSentPatch
                            (apply_patch (PickupPatch urls (JsDate.isoDay (clock w))) r)
                     else r)
           (reservations (db w))
  /\ equipment (db w')
     = map (fun e => if mem (eq_id e) (target_ids (db w) (row it))
                        && may_update (uid w) e
                     then set_status EmUso e else e)
           (equipment (db w))
  /\ kit_equipment (db w') = kit_equipment (db w).
Proof.
  intros Hsel Hph Hfind Hw. cbv zeta.
  remember (handlePickup net (Some p) items sel photos w) as res eqn:Hres.
  unfold handlePickup, handler in Hres.
  rewrite Hsel, (nonempty_length _ Hph), Hfind in Hres. cbn [negb] in Hres.
  unfold bind at 1 in Hres. rewrite (promiseAll_upload_ok _ _ _ Hw) in Hres.
  do 2 run Hres.
  unfold target_ids.
  destruct (truthy_opt (equipment_id (row it))) eqn:He.
  - destruct (equipment_id (row it)) as [eid|]; [|discriminate He].
    repeat run Hres.
    subst res.
      cbn [fst snd db reservations equipment kit_equipment patch_reservations
           set_equipment_status after_uploads clock].
      rewrite patch_twice. repeat split; reflexivity.
  - destruct (truthy_opt (kit_id (row it))) eqn:Hk.
    + destruct (kit_id (row it)) as [kid|]; [|discriminate Hk].
      repeat run Hres.
      subst res.
      cbn [fst snd db reservations equipment kit_equipment patch_reservations
           set_equipment_status after_uploads clock].
      rewrite patch_twice. repeat split; reflexivity.
    + repeat run Hres.
      subst res.
      cbn [fst snd db reservations equipment kit_equipment patch_reservations
           set_equipment_status after_uploads clock].
      rewrite patch_twice. repeat split; try reflexivity.
      symmetry. apply map_id.
Qed.

Lemma filter_none {A} (f : A -> bool) (l : list A) :
  existsb f l = false -> filter f l = [].
Proof.
  induction l as [|a l IH]; cbn; [reflexivity|].
  intros H. apply orb_false_iff in H. destruct H as [Ha Hl].
  rewrite Ha. auto.
Qed.

(** C7. Whatever happens to the notification request (a response that is not
    OK, or a network failure), the message shown, the tables and the
    requests sent by [handlePickup] are those of a run whose notification
    succeeds; the request is sent at most once, and the failure goes to the
    console only.  When the database and the store answer, the pickup ends
    successfully with the reservation 'em uso', the uploaded photos stored
    and the target equipment that the caller registered 'em uso'; the
    equipment rows that someone else registered are left as they are. *)
Theorem pickup_survives_notification_failure net profile items sel photos w :
  let run := handlePickup net profile items sel photos w in
  let reference := handlePickup (Responded true "") profile items sel photos w in
  fst run = fst reference
  /\ db (snd run) = db (snd reference)
  /\ log (snd run) = log (snd reference)
  /\ (exists news,
         log (snd run) = (log w ++ news)%list
         /\ (length (filter is_post news) <= 1)%nat)
  /\ console (snd run)
     = (console w ++ (if success (fst run) then console_lines net else []))%list
  /\ (forall p it,
         profile = Some p ->
         truthy sel = true ->
         photos <> [] ->
         find (fun r => String.eqb (id (row r)) sel) items = Some it ->
         unfailing w ->
         let urls :=
           uploadedUrls (supabaseUrl w) ("reservations/" ++ profile_id p) photos
                        (fresh w) in
         fst run = mkUi "" true false
         /\ (In (row it) (reservations (db w)) ->
             exists r', In r' (reservations (db (snd run))) /\ id r' = sel)
         /\ (forall r', In r' (reservations (db (snd run))) -> id r' = sel ->
                        status r' = REmUso /\ pickup_photos r' = urls)
         /\ map eq_id (equipment (db (snd run))) = map eq_id (equipment (db w))
         /\ (forall e', In e' (equipment (db (snd run))) ->
                        In (eq_id e') (target_ids (db w) (row it)) ->
                        eq_created_by e' = Some (uid w) ->
                        eq_status e' = EmUso)
         /\ (forall e0, In e0 (equipment (db w)) ->
                        eq_created_by e0 <> Some (uid w) ->
                        In e0 (equipment (db (snd run))))).
Proof.
  cbv zeta.
  destruct (handlePickup_shape profile items sel photos w)
    as [ui [d' [news [Hall Hshape]]]].
  destruct (Hall net) as [Hui [Hdb [Hlog Hcon]]].
  destruct (Hall (Responded true "")) as [Hui0 [Hdb0 [Hlog0 _]]].
  split; [congruence|]. split; [congruence|]. split; [congruence|].
  split.
  { exists news. split; [exact Hlog|].
    destruct Hshape as [[_ Hno]|[_ [_ [pre [payload [-> Hno]]]]]].
    - rewrite (filter_none _ _ Hno). cbn. lia.
    - rewrite filter_app, (filter_none _ _ Hno). cbn. lia. }
  split; [now rewrite Hui|].
  intros p it -> Hsel Hph Hfind Hw.
  destruct (handlePickup_run net p items sel photos w it Hsel Hph Hfind Hw)
    as [Hok [Hres [Heq _]]].
  apply find_some in Hfind. destruct Hfind as [_ Hid]. apply String.eqb_eq in Hid.
  rewrite Hok, Hres, Heq.
  split; [reflexivity|].
  split.
  { intros Hin. eexists.
    split; [apply (patched_row_in (fun r => apply_patch _ (apply_patch _ r)));
            eassumption|].
    now rewrite !apply_patch_id. }
  split.
  { intros r' Hin Hr'. destruct (patched_rows _ _ _ _ Hin Hr') as [r [_ [_ ->]]].
    split; reflexivity. }
  split; [apply status_set_ids|].
  split.
  - intros e' Hin Ht Hc. exact (status_set_targets _ _ _ _ _ Hin Ht Hc).
  - intros e0 Hin Hc. now apply status_set_foreign.
Qed.

Lemma pickup_survives_notification_failure_witness :
  let w := Sample.world_of Sample.db_scheduled [] ["a1"] in
  let run := handlePickup NetworkError (Some Sample.ana)
                          [Sample.item_R1 Agendado] "R1" [Sample.photo] w in
  fst run = mkUi "" true false
  /\ (forall r', In r' (reservations (db (snd run))) -> id r' = "R1" ->
                 status r' = REmUso
                 /\ pickup_photos r'
                    = ["https://project.supabase.co/storage/v1/object/public/equipment-images/reservations/U1/a1.jpg"])
  /\ (forall e', In e' (equipment (db (snd run))) -> eq_id e' = "E1" ->
                 eq_created_by e' = Some "U1" ->
                 eq_status e' = EmUso)
  /\ console (snd run) = ["Error calling email function:"].
Proof.
  intros w run.
  assert (Hw : unfailing w) by constructor.
  destruct (pickup_survives_notification_failure
              NetworkError (Some Sample.ana) [Sample.item_R1 Agendado] "R1"
              [Sample.photo] w)
    as [_ [_ [_ [_ [Hcon Hrun]]]]].
  destruct (Hrun Sample.ana (Sample.item_R1 Agendado) eq_refl eq_refl
                 ltac:(discriminate) eq_refl Hw)
    as [Hok [_ [Hrow [_ [Heq _]]]]].
  split; [exact Hok|].
  split; [exact Hrow|].
  split.
  - intros e' Hin He Hc. apply (Heq e' Hin); [|exact Hc].
    rewrite He. left. reflexivity.
  - fold run in Hcon. rewrite Hcon. fold run in Hok. rewrite Hok. reflexivity.
Defined.

(** C10 (amended). In every run of [handlePickup] that sends the
    notification request, the request that sets [email_sent] is the one
    sent just before it; when the database and the store answer every
    request, the reservation ends with [email_sent] true whatever happens
    to the notification. *)
Theorem email_sent_is_written_before_notification net profile items sel photos w :
  let run := handlePickup net profile items sel photos w in
  (exists news,
      log (snd run) = (log w ++ news)%list
      /\ (existsb is_post news = true ->
          exists pre payload,
            news = (pre ++ [UpdateReservation sel EmailSentPatch;
                            PostSummaryEmail payload])%list
            /\ existsb is_post pre = false))
  /\ (forall p it,
         profile = Some p ->
         truthy sel = true ->
         photos <> [] ->
         find (fun r => String.eqb (id (row r)) sel) items = Some it ->
         unfailing w ->
         (In (row it) (reservations (db w)) ->
          exists r', In r' (reservations (db (snd run))) /\ id r' = sel)
         /\ (forall r', In r' (reservations (db (snd run))) -> id r' = sel ->
                        email_sent r' = true)).
Proof.
  cbv zeta.
  destruct (handlePickup_shape profile items sel photos w)
    as [ui [d' [news [Hall Hshape]]]].
  destruct (Hall net) as [_ [_ [Hlog _]]].
  split.
  { exists news. split; [exact Hlog|].
    intros Hpost.
    destruct Hshape as [[_ Hno]|[_ [_ Hpre]]]; [congruence|exact Hpre]. }
  intros p it -> Hsel Hph Hfind Hw.
  destruct (handlePickup_run net p items sel photos w it Hsel Hph Hfind Hw)
    as [_ [Hres _]].
  apply find_some in Hfind. destruct Hfind as [_ Hid]. apply String.eqb_eq in Hid.
  rewrite Hres.
  split.
  { intros Hin. eexists.
    split; [apply (patched_row_in (fun r => apply_patch _ (apply_patch _ r)));
            eassumption|].
    now rewrite !apply_patch_id. }
  intros r' Hin Hr'. destruct (patched_rows _ _ _ _ Hin Hr') as [r [_ [_ ->]]].
  reflexivity.
Qed.

Lemma email_sent_is_written_before_notification_witness :
  let w := Sample.world_of Sample.db_scheduled [] ["a1"] in
  let run := handlePickup (Responded false "Internal Server Error") (Some Sample.ana)
                          [Sample.item_R1 Agendado] "R1" [Sample.photo] w in
  (exists r', In r' (reservations (db (snd run))) /\ id r' = "R1")
  /\ (forall r', In r' (reservations (db (snd run))) -> id r' = "R1" ->
                 email_sent r' = true).
Proof.
  intros w run.
  assert (Hw : unfailing w) by constructor.
  destruct (email_sent_is_written_before_notification
              (Responded false "Internal Server Error") (Some Sample.ana)
              [Sample.item_R1 Agendado] "R1" [Sample.photo] w)
    as [_ Hrun].
  destruct (Hrun Sample.ana (Sample.item_R1 Agendado) eq_refl eq_refl
                 ltac:(discriminate) eq_refl Hw)
    as [Hex Hall].
  split; [|exact Hall].
  apply Hex. left. reflexivity.
Defined.

(** C10 (as stated). The reply to the update that sets [email_sent] is not
    read: when that request is refused, the Pickup reports success, sends
    the notification request and leaves [email_sent] false. *)
Lemma pickup_notifies_with_email_sent_false :
  let w := Sample.world_of Sample.db_scheduled [Ok; Ok; Ok; Err "timeout"] ["a1"] in
  let run := handlePickup (Responded true "") (Some Sample.ana)
                          [Sample.item_R1 Agendado] "R1" [Sample.photo] w in
  fst run = mkUi "" true false
  /\ existsb is_post (log (snd run)) = true
  /\ map id (reservations (db (snd run))) = ["R1"]
  /\ map status (reservations (db (snd run))) = [REmUso]
  /\ map email_sent (reservations (db (snd run))) = [false]
  /\ ~ (forall r', In r' (reservations (db (snd run))) -> id r' = "R1" ->
                   email_sent r' = true).
Proof.
  intros w run.
  assert (Hrows : exists r, reservations (db (snd run)) = [r]
                            /\ id r = "R1" /\ email_sent r = false)
    by (eexists; split; [vm_compute; reflexivity|split; reflexivity]).
  split; [vm_compute; reflexivity|].
  split; [vm_compute; reflexivity|].
  split; [vm_compute; reflexivity|].
  split; [vm_compute; reflexivity|].
  split; [vm_compute; reflexivity|].
  intros Hall. destruct Hrows as [r [Hr [Hid Hfalse]]].
  rewrite Hr in Hall. specialize (Hall r (or_introl eq_refl) Hid).
  congruence.
Qed.

(* ------------------------------------------------------------------ *)
(** ** Create                                                           *)
(* ------------------------------------------------------------------ *)

Lemma checkAvailability_run ty f w s e :
  truthy (selectedId f) = true ->
  startDate f = Some s ->
  endDate f = Some e ->
  checkAvailability ty f w
  = (inr (negb (answers w)
          || (length (filter (conflict_filter (field_of ty) (selectedId f) e s)
                             (reservations (seenBy (uid w) (db w)))) =? 0)%nat),
     mkWorld (db w) (tl (replies w)) (fresh w) (clock w) (supabaseUrl w) (uid w)
             (log w ++ [SelectReservations (field_of ty) (selectedId f)
                                           (Some e) (Some s)])
             (console w)).
Proof.
  intros Hid Hs He. unfold checkAvailability, answers.
  rewrite Hid, Hs, He. cbn [negb orb truthy_date].
  unfold select_reservations, bind, remote, get_db, get_uid, ret, field_of.
  cbn. destruct (is_ok (hd Ok (replies w))); destruct ty; reflexivity.
Qed.

Lemma insert_reservation_ok data w s e :
  unfailing w ->
  d_start_date data = Some s ->
  d_end_date data = Some e ->
  s <= e ->
  insert_reservation data w
  = (inr true,
     mkWorld (add_reservation (new_row (hd "" (fresh w)) data s e) (db w))
             (tl (replies w)) (tl (fresh w)) (clock w) (supabaseUrl w) (uid w)
             (log w ++ [InsertReservation data]) (console w)).
Proof.
  intros H Hs He Hle. unfold insert_reservation, bind, remote.
  rewrite (unfailing_hd _ H), Hs, He.
  apply Z.leb_le in Hle. cbn. rewrite Hle. reflexivity.
Qed.

(** The tables after a Create that finds the item available and all of whose
    remote calls are answered. *)
Lemma handleSubmit_run p ty f photos w s e :
  photos <> [] ->
  truthy (selectedId f) = true ->
  startDate f = Some s ->
  endDate f = Some e ->
  s <= e ->
  filter (conflict_filter (field_of ty) (selectedId f) e s)
         (reservations (seenBy (uid w) (db w))) = [] ->
  unfailing w ->
  let w' := snd (handleSubmit (Some p) ty f photos w) in
  fst (handleSubmit (Some p) ty f photos w) = mkUi "" true false
  /\ reservations (db w')
     = (reservations (db w) ++ [created_row p ty f photos w s e])%list
  /\ equipment (db w')
     = map (fun e => if mem (eq_id e) (created_targets ty f (db w))
                        && may_update (uid w) e
                     then set_status EmUso e else e)
           (equipment (db w))
  /\ kit_equipment (db w') = kit_equipment (db w).
Proof.
  intros Hph Hid Hs He Hle Hfree Hw. cbv zeta.
  remember (handleSubmit (Some p) ty f photos w) as res eqn:Hres.
  unfold handleSubmit, handler in Hres.
  rewrite (nonempty_length _ Hph) in Hres.
  unfold bind at 1 in Hres.
  rewrite (checkAvailability_run ty f w s e Hid Hs He), Hfree in Hres.
  rewrite orb_true_r in Hres. cbn [negb length Nat.eqb] in Hres.
  unfold bind at 1 in Hres.
  rewrite promiseAll_upload_ok in Hres by unfailing_tac.
  unfold bind at 1 in Hres.
  rewrite (insert_reservation_ok _ _ s e) in Hres;
    [|unfailing_tac|exact Hs|exact He|exact Hle].
  cbn [negb] in Hres.
  unfold created_row, created_targets, kit_members.
  destruct ty.
  - repeat run Hres. subst res.
    cbn [fst snd db reservations equipment kit_equipment add_reservation
         set_equipment_status after_uploads fresh supabaseUrl new_row
         d_user_id d_equipment_id d_kit_id d_reason d_status d_pickup_photos].
    repeat split; reflexivity.
  - repeat run Hres. subst res.
    cbn [fst snd db reservations equipment kit_equipment add_reservation
         set_equipment_status after_uploads fresh supabaseUrl new_row
         d_user_id d_equipment_id d_kit_id d_reason d_status d_pickup_photos].
    repeat split; reflexivity.
Qed.

(* ------------------------------------------------------------------ *)
(** ** Equipment status and the reservations that claim it              *)
(* ------------------------------------------------------------------ *)



(** With every call answered: the camera is reserved, then the kit that
    contains it, then the camera is returned.  The camera ends available
    while the reservation of the kit is in use. *)
Lemma return_frees_shared_equipment :
  fst Sample.create_camera = mkUi "" true false
  /\ db (snd Sample.create_camera) = Sample.db_after_camera
  /\ fst Sample.create_kit = mkUi "" true false
  /\ db (snd Sample.create_kit) = Sample.db_after_kit
  /\ fst Sample.return_camera = mkUi "" true false
  /\ db (snd Sample.return_camera) = Sample.db_after_return.
Proof.
  split; [vm_compute; reflexivity|].
  split; [vm_compute; reflexivity|].
  split; [vm_compute; reflexivity|].
  split; [vm_compute; reflexivity|].
  split; vm_compute; reflexivity.
Qed.


(** The same drift without any failure: Return frees equipment that the
    reservation of a kit still claims. *)
Lemma status_invariant_breaks_without_failure :
  Reachable Sample.db_empty Sample.db_after_return
  /\ ~ StatusInvariant Sample.db_after_return.
Proof.
  destruct return_frees_shared_equipment as [_ [H1 [_ [H2 [_ H3]]]]].
  split.
  - rewrite <- H3. unfold Sample.return_camera. apply reach_return.
    + change (Reachable Sample.db_empty Sample.db_after_kit).
      rewrite <- H2. unfold Sample.create_kit. apply reach_create.
      change (Reachable Sample.db_empty Sample.db_after_camera).
      rewrite <- H1. unfold Sample.create_camera. apply reach_create.
      apply reach_init.
    + intros it [<-|[]]. left. reflexivity.
  - intros Hinv.
    destruct (Hinv Sample.camera (or_introl eq_refl)) as [_ Hback].
    assert (Habs : eq_status Sample.camera = EmUso).
    { apply Hback. exists Sample.row_R2.
      split; [right; left; reflexivity|].
      split; [left; reflexivity|].
      right. exists "K1". split; [reflexivity|]. left. reflexivity. }
    discriminate Habs.
Qed.

Lemma truthy_nonempty s : s <> "" -> truthy s = true.
Proof.
  intros H. unfold truthy. destruct (String.eqb s "") eqn:E; [|reflexivity].
  apply String.eqb_eq in E. contradiction.
Qed.


Lemma not_blocking_filter d field target s e :
  ~ Blocking d field target s e ->
  filter (conflict_filter field target e s) (reservations d) = [].
Proof.
  intros Hfree.
  destruct (filter (conflict_filter field target e s) (reservations d)) as [|r l] eqn:E;
    [reflexivity|].
  exfalso. apply Hfree. exists r.
  assert (Hin : In r (filter (conflict_filter field target e s) (reservations d)))
    by (rewrite E; now left).
  apply filter_In in Hin. destruct Hin as [Hin Hf].
  apply conflict_filter_iff in Hf. tauto.
Qed.






(* ------------------------------------------------------------------ *)
(** ** Choosing and removing photos                                     *)
(* ------------------------------------------------------------------ *)

Lemma validateImageFile_accepts file :
  ImageFile.validateImageFile file = None <-> PhotoInput.Valid file.
Proof.
  unfold ImageFile.validateImageFile, PhotoInput.Valid.
  destruct (mem (ImageFile.file_type file) ImageFile.validTypes) eqn:Hm; cbn [negb].
  - apply mem_In in Hm.
    destruct (ImageFile.file_size file >? 5 * 1024 * 1024) eqn:Hs.
    + split; [discriminate|]. intros [_ H].
      apply Z.gtb_lt in Hs. change (5 * 1024 * 1024) with 5242880 in Hs. lia.
    + split; [|reflexivity]. intros _. split; [exact Hm|].
      assert (H := Z.gtb_spec (ImageFile.file_size file) (5 * 1024 * 1024)).
      rewrite Hs in H. inversion H. change (5 * 1024 * 1024) with 5242880 in *. lia.
  - split; [discriminate|]. intros [H _]. apply mem_In in H. congruence.
Qed.

Lemma firstError_none files :
  PhotoInput.firstError files = None <-> Forall PhotoInput.Valid files.
Proof.
  induction files as [|file rest IH]; cbn.
  - split; [constructor|reflexivity].
  - destruct (ImageFile.validateImageFile file) as [msg|] eqn:Hv.
    + split; [discriminate|]. intros H. inversion H; subst.
      apply validateImageFile_accepts in H2. congruence.
    + rewrite IH. split.
      * intros H. constructor; [now apply validateImageFile_accepts|exact H].
      * intros H. now inversion H.
Qed.

Lemma firstError_some files msg :
  PhotoInput.firstError files = Some msg ->
  exists bad, In bad files /\ ImageFile.validateImageFile bad = Some msg.
Proof.
  induction files as [|file rest IH]; cbn; [discriminate|].
  destruct (ImageFile.validateImageFile file) as [m|] eqn:Hv.
  - intros H. injection H as <-. exists file. auto.
  - intros H. destruct (IH H) as [bad [Hin Hb]]. exists bad. auto.
Qed.

(** X1. [handlePhotoAdd] takes all the chosen files or none: when every file
    passes [validateImageFile] they are appended, in order, and the message
    is left as it was; when one of them fails, the list is unchanged and the
    message is the one of a refused file.  A list of accepted files stays a
    list of accepted files. *)
Theorem handlePhotoAdd_all_or_nothing files st :
  (Forall PhotoInput.Valid files ->
   PhotoInput.handlePhotoAdd files st
   = PhotoInput.mkPhotoState (PhotoInput.pickupPhotos st ++ files)
                             (PhotoInput.photoPreviews st) (PhotoInput.error st))
  /\ (~ Forall PhotoInput.Valid files ->
      PhotoInput.pickupPhotos (PhotoInput.handlePhotoAdd files st)
      = PhotoInput.pickupPhotos st
      /\ exists bad,
          In bad files
          /\ ~ PhotoInput.Valid bad
          /\ ImageFile.validateImageFile bad
             = Some (PhotoInput.error (PhotoInput.handlePhotoAdd files st)))
  /\ (Forall PhotoInput.Valid (PhotoInput.pickupPhotos st) ->
      Forall PhotoInput.Valid
             (PhotoInput.pickupPhotos (PhotoInput.handlePhotoAdd files st))).
Proof.
  unfold PhotoInput.handlePhotoAdd.
  destruct (PhotoInput.firstError files) as [msg|] eqn:Hf.
  - split; [|split].
    + intros H. apply firstError_none in H. congruence.
    + intros _. split; [reflexivity|].
      destruct (firstError_some _ _ Hf) as [bad [Hin Hb]].
      exists bad. split; [exact Hin|]. split; [|exact Hb].
      intros Hv. apply validateImageFile_accepts in Hv. congruence.
    + intros H. exact H.
  - apply firstError_none in Hf. split; [|split].
    + intros _. reflexivity.
    + intros H. contradiction.
    + intros H. cbn. apply Forall_app. split; assumption.
Qed.

Lemma handlePhotoAdd_all_or_nothing_witness :
  let jpg := ImageFile.mkPickedFile (mkFile "frente.jpg") "image/jpeg" 5242880 in
  let big := ImageFile.mkPickedFile (mkFile "verso.png") "image/png" 5242881 in
  let st := PhotoInput.mkPhotoState [jpg] [] "" in
  PhotoInput.handlePhotoAdd [jpg; jpg] st = PhotoInput.mkPhotoState [jpg; jpg; jpg] [] ""
  /\ PhotoInput.pickupPhotos (PhotoInput.handlePhotoAdd [jpg; big] st) = [jpg]
  /\ Forall PhotoInput.Valid (PhotoInput.pickupPhotos (PhotoInput.handlePhotoAdd [jpg; big] st)).
Proof.
  intros jpg big st.
  assert (Hj : PhotoInput.Valid jpg).
  { split; [left; reflexivity|]. cbn. lia. }
  assert (Hb : ~ Forall PhotoInput.Valid [jpg; big]).
  { intros H. inversion H as [|? ? _ H2]; subst. inversion H2 as [|? ? [_ H3] _]; subst.
    cbn in H3. lia. }
  destruct (handlePhotoAdd_all_or_nothing [jpg; jpg] st) as [Hall _].
  destruct (handlePhotoAdd_all_or_nothing [jpg; big] st) as [_ [Hnone Hinv]].
  split.
  { apply Hall. apply Forall_cons; [exact Hj|].
    apply Forall_cons; [exact Hj|apply Forall_nil]. }
  split; [exact (proj1 (Hnone Hb))|].
  apply Hinv. apply Forall_cons; [exact Hj|apply Forall_nil].
Defined.

Lemma filterIndex_past {A} index i (l : list A) :
  (index < i)%nat ->
  PhotoInput.filterIndex (fun j => negb (j =? index)%nat) i l = l.
Proof.
  revert i. induction l as [|x l IH]; intros i Hi; cbn [PhotoInput.filterIndex].
  - reflexivity.
  - destruct (Nat.eqb_spec i index) as [E|_]; [lia|]. cbn [negb].
    now rewrite IH by lia.
Qed.

Lemma filterIndex_from {A} index i (l : list A) :
  (i <= index)%nat ->
  PhotoInput.filterIndex (fun j => negb (j =? index)%nat) i l
  = (firstn (index - i) l ++ skipn (S (index - i)) l)%list.
Proof.
  revert i. induction l as [|x l IH]; intros i Hi; cbn [PhotoInput.filterIndex].
  - now rewrite firstn_nil, skipn_nil.
  - destruct (Nat.eqb_spec i index) as [->|Hne]; cbn [negb].
    + rewrite Nat.sub_diag. cbn [firstn skipn app].
      apply filterIndex_past. lia.
    + rewrite IH by lia.
      replace (index - i)%nat with (S (index - S i)) by lia.
      reflexivity.
Qed.

Lemma kept_firstn {A} (P : A -> Prop) n (l : list A) :
  Forall P l -> Forall P (firstn n l).
Proof.
  intros H. revert n. induction H as [|x l Hx Hl IH]; intros [|n]; cbn; auto.
Qed.

Lemma kept_skipn {A} (P : A -> Prop) n (l : list A) :
  Forall P l -> Forall P (skipn n l).
Proof.
  intros H. revert n. induction H as [|x l Hx Hl IH]; intros [|n]; cbn; auto.
Qed.

(** X2. [removePhoto] takes the element at the given index out of the photo
    list and out of the preview list and keeps the other elements in their
    order; an index past the end changes nothing, and accepted files stay
    accepted files. *)
Theorem removePhoto_drops_index index st :
  PhotoInput.pickupPhotos (PhotoInput.removePhoto index st)
  = (firstn index (PhotoInput.pickupPhotos st)
     ++ skipn (S index) (PhotoInput.pickupPhotos st))%list
  /\ PhotoInput.photoPreviews (PhotoInput.removePhoto index st)
     = (firstn index (PhotoInput.photoPreviews st)
        ++ skipn (S index) (PhotoInput.photoPreviews st))%list
  /\ ((index < length (PhotoInput.pickupPhotos st))%nat ->
      S (length (PhotoInput.pickupPhotos (PhotoInput.removePhoto index st)))
      = length (PhotoInput.pickupPhotos st))
  /\ ((length (PhotoInput.pickupPhotos st) <= index)%nat ->
      PhotoInput.pickupPhotos (PhotoInput.removePhoto index st)
      = PhotoInput.pickupPhotos st)
  /\ (Forall PhotoInput.Valid (PhotoInput.pickupPhotos st) ->
      Forall PhotoInput.Valid (PhotoInput.pickupPhotos (PhotoInput.removePhoto index st))).
Proof.
  unfold PhotoInput.removePhoto. cbn [PhotoInput.pickupPhotos PhotoInput.photoPreviews].
  rewrite !filterIndex_from by lia. rewrite Nat.sub_0_r.
  split; [reflexivity|]. split; [reflexivity|].
  split; [|split].
  - intros Hlt. rewrite length_app, length_firstn, length_skipn. lia.
  - intros Hge. rewrite firstn_all2 by exact Hge.
    rewrite skipn_all2 by lia. apply app_nil_r.
  - intros Hall. apply Forall_app.
    split; [now apply kept_firstn|now apply kept_skipn].
Qed.

Lemma removePhoto_drops_index_witness :
  let a := ImageFile.mkPickedFile (mkFile "a.jpg") "image/jpeg" 10 in
  let b := ImageFile.mkPickedFile (mkFile "b.jpg") "image/jpeg" 20 in
  let c := ImageFile.mkPickedFile (mkFile "c.jpg") "image/jpeg" 30 in
  let st := PhotoInput.mkPhotoState [a; b; c] ["pa"; "pb"; "pc"] "" in
  PhotoInput.pickupPhotos (PhotoInput.removePhoto 1 st) = [a; c]
  /\ PhotoInput.photoPreviews (PhotoInput.removePhoto 1 st) = ["pa"; "pc"]
  /\ PhotoInput.pickupPhotos (PhotoInput.removePhoto 3 st) = [a; b; c].
Proof.
  intros a b c st.
  destruct (removePhoto_drops_index 1 st) as [H1 [H2 _]].
  destruct (removePhoto_drops_index 3 st) as [_ [_ [_ [H3 _]]]].
  split; [exact H1|]. split; [exact H2|].
  apply H3. cbn. lia.
Defined.

(* ------------------------------------------------------------------ *)
(** ** The path of an uploaded file                                     *)
(* ------------------------------------------------------------------ *)

Lemma string_app_assoc (a b c : string) : (a ++ b) ++ c = a ++ (b ++ c).
Proof. induction a as [|x a IH]; cbn; [reflexivity|now rewrite IH]. Qed.

Lemma string_app_nil_r (a : string) : a ++ "" = a.
Proof. induction a as [|x a IH]; cbn; [reflexivity|now rewrite IH]. Qed.

Lemma lastSegment_plain ext acc :
  Text.hasChar "." ext = false -> lastSegment ext acc = acc ++ ext.
Proof.
  revert acc. induction ext as [|c ext IH]; intros acc H; cbn in *.
  - now rewrite string_app_nil_r.
  - apply orb_false_iff in H. destruct H as [Hc Hext]. rewrite Hc.
    rewrite (IH _ Hext), string_app_assoc. reflexivity.
Qed.

Lemma lastSegment_after_dot pre ext acc :
  Text.hasChar "." ext = false -> lastSegment (pre ++ String "." ext) acc = ext.
Proof.
  revert acc. induction pre as [|c pre IH]; intros acc H; cbn.
  - now rewrite lastSegment_plain.
  - destruct (Ascii.eqb c "."); now apply IH.
Qed.

(** X3. [uploadImage] sends the file to [folder/stem.ext], where [stem] is
    the generated name and [ext] is what follows the last dot of the file's
    name (the whole name when it has no dot); it returns the public URL of
    that path when the store accepts the file, throws the store's error
    otherwise, and writes to no table. *)
Theorem uploadImage_path file folder w ext :
  Text.hasChar "." ext = false ->
  file_name file = ext \/ (exists pre, file_name file = pre ++ "." ++ ext) ->
  let filePath := folder ++ "/" ++ (hd "" (fresh w) ++ "." ++ ext) in
  log (snd (uploadImage file folder w)) = (log w ++ [StorageUpload filePath file])%list
  /\ db (snd (uploadImage file folder w)) = db w
  /\ (answers w = true ->
      fst (uploadImage file folder w) = inr (getPublicUrl (supabaseUrl w) filePath))
  /\ (forall message, hd Ok (replies w) = Err message ->
      fst (uploadImage file folder w) = inl (JsError message)).
Proof.
  intros Hext Hname. cbv zeta.
  assert (Hseg : lastSegment (file_name file) EmptyString = ext).
  { destruct Hname as [->|[pre ->]].
    - now rewrite lastSegment_plain.
    - now apply lastSegment_after_dot. }
  unfold uploadImage, bind, draw, remote, answers. cbn. rewrite Hseg.
  destruct (hd Ok (replies w)) as [|m] eqn:Hr; cbn.
  - repeat split; try reflexivity. discriminate.
  - repeat split; try reflexivity; [discriminate|].
    intros message H. now injection H as <-.
Qed.

Lemma uploadImage_path_witness :
  let w := Sample.world_of Sample.db_empty [] ["a1"] in
  log (snd (uploadImage (mkFile "foto.de.frente.JPG") "returns/U1" w))
  = [StorageUpload "returns/U1/a1.JPG" (mkFile "foto.de.frente.JPG")]
  /\ log (snd (uploadImage (mkFile "foto") "returns/U1" w))
     = [StorageUpload "returns/U1/a1.foto" (mkFile "foto")].
Proof.
  intros w. split.
  - apply (uploadImage_path (mkFile "foto.de.frente.JPG") "returns/U1" w "JPG" eq_refl).
    right. exists "foto.de.frente". reflexivity.
  - apply (uploadImage_path (mkFile "foto") "returns/U1" w "foto" eq_refl).
    left. reflexivity.
Defined.

(* ------------------------------------------------------------------ *)
(** ** The month view of the calendar                                   *)
(* ------------------------------------------------------------------ *)

Lemma localDay_mono off a b : a <= b -> JsDate.localDay off a <= JsDate.localDay off b.
Proof.
  intros H. unfold JsDate.localDay, JsDate.msPerDay.
  apply Z.div_le_mono; lia.
Qed.

Lemma localDay_ofDateOnly off day :
  JsDate.localDay off (JsDate.ofDateOnly day)
  = day + (off * JsDate.msPerMinute) / JsDate.msPerDay.
Proof.
  unfold JsDate.localDay, JsDate.ofDateOnly.
  rewrite Z.div_add_l by (unfold JsDate.msPerDay; lia). reflexivity.
Qed.

(** X4. Once a reservation is eligible for pickup it stays eligible at every
    later instant, as long as it stays scheduled. *)
Theorem isPickupEligible_stays off now later r :
  now <= later ->
  isPickupEligible off now r = true ->
  isPickupEligible off later r = true.
Proof.
  intros Hle. unfold isPickupEligible.
  destruct (negb (reservation_status_eqb (status r) Agendado)); [discriminate|].
  rewrite !setHours0_le. intros H.
  pose proof (localDay_mono off now later Hle). lia.
Qed.

Lemma isPickupEligible_stays_witness :
  isPickupEligible (-180) (JsDate.ofDateOnly (Sample.jan 20))
                   (Sample.booking "R1" (Some "E1") None (Sample.jan 10) (Sample.jan 12)
                                   Agendado)
  = true.
Proof.
  apply (isPickupEligible_stays (-180) (JsDate.ofDateOnly (Sample.jan 10))).
  - vm_compute. discriminate.
  - reflexivity.
Defined.

Lemma getReservationsForDate_shift off reservations date r :
  In r (CalendarMonth.getReservationsForDate off reservations date)
  <-> In r reservations
      /\ start_date (CalendarMonth.details_row r)
         + (off * JsDate.msPerMinute) / JsDate.msPerDay
         <= JsDate.localDay off date
         <= end_date (CalendarMonth.details_row r)
            + (off * JsDate.msPerMinute) / JsDate.msPerDay.
Proof.
  unfold CalendarMonth.getReservationsForDate.
  rewrite filter_In, andb_true_iff, Z.geb_le, Z.leb_le.
  unfold JsDate.setHours0. rewrite !localDay_ofDateOnly.
  set (shift := (off * JsDate.msPerMinute) / JsDate.msPerDay).
  set (today := JsDate.localDay off date).
  unfold JsDate.msPerDay. intuition lia.
Qed.

(** X5. [getReservationsForDate] reads the dates of a reservation as
    midnight UTC and compares local days.  At UTC and east of it a
    reservation is listed on the days from its start date to its end date;
    west of Greenwich it is listed from the day before its start date to
    the day before its end date. *)
Theorem getReservationsForDate_days off reservations date r :
  (0 <= off * JsDate.msPerMinute < JsDate.msPerDay ->
   (In r (CalendarMonth.getReservationsForDate off reservations date)
    <-> In r reservations
        /\ start_date (CalendarMonth.details_row r) <= JsDate.localDay off date
           <= end_date (CalendarMonth.details_row r)))
  /\ ((- JsDate.msPerDay) <= off * JsDate.msPerMinute < 0 ->
      (In r (CalendarMonth.getReservationsForDate off reservations date)
       <-> In r reservations
           /\ start_date (CalendarMonth.details_row r) - 1 <= JsDate.localDay off date
              <= end_date (CalendarMonth.details_row r) - 1)).
Proof.
  split; intros Hoff; rewrite getReservationsForDate_shift.
  - rewrite (Z.div_small _ _ Hoff). intuition lia.
  - replace (off * JsDate.msPerMinute)
      with ((-1) * JsDate.msPerDay + (off * JsDate.msPerMinute + JsDate.msPerDay)) by lia.
    rewrite Z.div_add_l by (unfold JsDate.msPerDay; lia).
    rewrite Z.div_small by lia. intuition lia.
Qed.

Lemma getReservationsForDate_days_witness :
  let r := CalendarMonth.mkDetails
             (Sample.booking "R1" (Some "E1") None (Sample.jan 10) (Sample.jan 12) Agendado)
             (Some Sample.camera) None None in
  In r (CalendarMonth.getReservationsForDate
          0 [r] (JsCalendar.localMidnight 0 (Sample.jan 12)))
  /\ In r (CalendarMonth.getReservationsForDate
             (-180) [r] (JsCalendar.localMidnight (-180) (Sample.jan 9)))
  /\ ~ In r (CalendarMonth.getReservationsForDate
               (-180) [r] (JsCalendar.localMidnight (-180) (Sample.jan 12))).
Proof.
  intros r.
  destruct (getReservationsForDate_days 0 [r] (JsCalendar.localMidnight 0 (Sample.jan 12)) r)
    as [Heast _].
  destruct (getReservationsForDate_days (-180) [r]
              (JsCalendar.localMidnight (-180) (Sample.jan 9)) r) as [_ Hwest9].
  destruct (getReservationsForDate_days (-180) [r]
              (JsCalendar.localMidnight (-180) (Sample.jan 12)) r) as [_ Hwest12].
  split; [|split].
  - apply Heast; [vm_compute; split; [discriminate|reflexivity]|].
    split; [left; reflexivity|]. vm_compute. split; discriminate.
  - apply Hwest9; [vm_compute; split; [discriminate|reflexivity]|].
    split; [left; reflexivity|]. vm_compute. split; discriminate.
  - intros Hin. apply Hwest12 in Hin; [|vm_compute; split; [discriminate|reflexivity]].
    destruct Hin as [_ [_ H]]. vm_compute in H. apply H. reflexivity.
Defined.

Lemma isoDay_localMidnight off day :
  JsDate.isoDay (JsCalendar.localMidnight off day)
  = day + (- (off * JsDate.msPerMinute)) / JsDate.msPerDay.
Proof.
  unfold JsDate.isoDay, JsCalendar.localMidnight.
  replace (day * JsDate.msPerDay - off * JsDate.msPerMinute)
    with (day * JsDate.msPerDay + - (off * JsDate.msPerMinute)) by lia.
  rewrite Z.div_add_l by (unfold JsDate.msPerDay; lia). reflexivity.
Qed.

(** The year and month a [Date] reports for a month index that overflows. *)
Lemma makeDay_normalised year month date :
  JsCalendar.makeDay (year + month / 12) (month mod 12) date
  = JsCalendar.makeDay year month date.
Proof.
  unfold JsCalendar.makeDay.
  rewrite Z.mod_mod by lia.
  rewrite (Z.div_small (month mod 12) 12) by (apply Z.mod_pos_bound; lia).
  rewrite Z.add_0_r. reflexivity.
Qed.

(** The rows [loadReservations] shows when its query is answered. *)
Lemma loadReservations_rows off year month kits profiles d current item :
  In item (CalendarMonth.loadReservations Ok off year month kits profiles d current)
  <-> exists r,
      In r (reservations d)
      /\ item = CalendarMonth.mkDetails r (CalendarMonth.joinEquipment d r)
                  (CalendarMonth.joinKit kits r) (CalendarMonth.joinProfile profiles r)
      /\ (status r = Agendado \/ status r = REmUso)
      /\ JsDate.isoDay (JsCalendar.localMidnight off (JsCalendar.makeDay year month 1))
         <= start_date r
      /\ end_date r
         <= JsDate.isoDay (JsCalendar.localMidnight off
                             (JsCalendar.makeDay year (month + 1) 0)).
Proof.
  unfold CalendarMonth.loadReservations. cbn [is_ok].
  rewrite in_map_iff. split.
  - intros [r [Hitem Hin]]. apply filter_In in Hin. destruct Hin as [Hin Hf].
    rewrite !andb_true_iff, Z.geb_le, Z.leb_le, status_in_active in Hf.
    exists r. intuition.
  - intros [r [Hin [Hitem [Hst [Hs He]]]]]. exists r. split; [now symmetry|].
    apply filter_In. split; [exact Hin|].
    rewrite !andb_true_iff, Z.geb_le, Z.leb_le, status_in_active. tauto.
Qed.

(** X6. The month view asks for the reservations that start and end inside
    the month.  A reservation that starts before the first day of the next
    month and ends on or after it is listed neither in the month nor in the
    next one.  The days are the UTC dates of the local midnights: from UTC
    westwards the first day of the next month itself, east of Greenwich the
    day before. *)
Theorem loadReservations_skips_spanning off year month kits profiles d current item :
  let boundary :=
    JsDate.isoDay (JsCalendar.localMidnight off (JsCalendar.makeDay year (month + 1) 1)) in
  ((- JsDate.msPerDay) < off * JsDate.msPerMinute <= 0 ->
   boundary = JsCalendar.makeDay year (month + 1) 1)
  /\ (0 < off * JsDate.msPerMinute <= JsDate.msPerDay ->
      boundary = JsCalendar.makeDay year (month + 1) 1 - 1)
  /\ (start_date (CalendarMonth.details_row item) < boundary
      <= end_date (CalendarMonth.details_row item) ->
      ~ In item (CalendarMonth.loadReservations Ok off year month kits profiles d current)
      /\ ~ In item (CalendarMonth.loadReservations
                      Ok off (year + (month + 1) / 12) ((month + 1) mod 12)
                      kits profiles d current)).
Proof.
  cbv zeta. rewrite !isoDay_localMidnight.
  split; [|split].
  - intros Hoff. rewrite Z.div_small by lia. lia.
  - intros Hoff.
    replace (- (off * JsDate.msPerMinute))
      with ((-1) * JsDate.msPerDay + (JsDate.msPerDay - off * JsDate.msPerMinute)) by lia.
    rewrite Z.div_add_l by (unfold JsDate.msPerDay; lia).
    rewrite Z.div_small by lia. lia.
  - intros [Hstart Hend]. split; intros Hin;
      apply loadReservations_rows in Hin;
      destruct Hin as [r [_ [-> [_ [Hs He]]]]];
      cbn [CalendarMonth.details_row] in *;
      rewrite ?makeDay_normalised in *;
      rewrite !isoDay_localMidnight in *.
    + replace (JsCalendar.makeDay year (month + 1) 1)
        with (JsCalendar.makeDay year (month + 1) 0 + 1) in Hend
        by (unfold JsCalendar.makeDay; lia).
      lia.
    + lia.
Qed.

Lemma loadReservations_skips_spanning_witness :
  let r := Sample.booking "R9" (Some "E1") None (Sample.jan 30) (Sample.jan 33) Agendado in
  let d := mkDatabase [Sample.camera] [] [r] in
  let item := CalendarMonth.mkDetails r (Some Sample.camera) None None in
  ~ In item (CalendarMonth.loadReservations Ok (-180) 2025 0 [] [] d [])
  /\ ~ In item (CalendarMonth.loadReservations Ok (-180) 2025 1 [] [] d []).
Proof.
  intros r d item.
  destruct (loadReservations_skips_spanning (-180) 2025 0 [] [] d [] item)
    as [_ [_ H]].
  apply H. vm_compute. split; [reflexivity|discriminate].
Defined.

(** X7. The cells of the month grid, seven to a row below the headers from
    Sunday to Saturday: the empty cells come first, every day of the month
    is there, and every day sits in the column of its day of the week. *)
Theorem getDaysInMonth_columns year month :
  let firstDay := JsCalendar.makeDay year month 1 in
  let lastDay := JsCalendar.makeDay year (month + 1) 0 in
  (forall i, (i < Z.to_nat (JsCalendar.weekDay firstDay))%nat ->
             nth_error (CalendarMonth.getDaysInMonth year month) i = Some None)
  /\ (forall i day,
         nth_error (CalendarMonth.getDaysInMonth year month) i = Some (Some day) ->
         Z.of_nat i mod 7 = JsCalendar.weekDay day
         /\ firstDay <= day <= lastDay)
  /\ (forall day, firstDay <= day <= lastDay ->
                  In (Some day) (CalendarMonth.getDaysInMonth year month)).
Proof.
  cbv zeta. unfold CalendarMonth.getDaysInMonth.
  set (firstDay := JsCalendar.makeDay year month 1).
  set (lastDay := JsCalendar.makeDay year (month + 1) 0).
  set (k := Z.to_nat (JsCalendar.weekDay firstDay)).
  assert (Hk : Z.of_nat k = JsCalendar.weekDay firstDay).
  { unfold k. apply Z2Nat.id. unfold JsCalendar.weekDay.
    apply Z.mod_pos_bound. lia. }
  assert (Hday : forall j, JsCalendar.makeDay year month (Z.of_nat j)
                           = firstDay + Z.of_nat j - 1).
  { intros j. unfold firstDay, JsCalendar.makeDay. lia. }
  split; [|split].
  - intros i Hi. rewrite nth_error_app1 by now rewrite repeat_length.
    apply nth_error_repeat. exact Hi.
  - intros i day Hnth.
    destruct (Nat.lt_ge_cases i k) as [Hlt|Hge].
    + rewrite nth_error_app1 in Hnth by now rewrite repeat_length.
      rewrite nth_error_repeat in Hnth by exact Hlt. discriminate.
    + rewrite nth_error_app2 in Hnth by now rewrite repeat_length.
      rewrite repeat_length in Hnth.
      rewrite nth_error_map in Hnth.
      destruct (nth_error (seq 1 (Z.to_nat (lastDay - firstDay + 1))) (i - k)) as [j|] eqn:Hj;
        [|discriminate].
      cbn in Hnth. injection Hnth as <-.
      assert (Hlen : (i - k < Z.to_nat (lastDay - firstDay + 1))%nat).
      { assert (Hn : nth_error (seq 1 (Z.to_nat (lastDay - firstDay + 1))) (i - k) <> None)
          by (rewrite Hj; discriminate).
        apply nth_error_Some in Hn. now rewrite length_seq in Hn. }
      apply nth_error_nth with (d := 0%nat) in Hj.
      rewrite seq_nth in Hj by exact Hlen. subst j.
      rewrite Hday. split.
      * unfold JsCalendar.weekDay in *.
        replace (Z.of_nat i) with (Z.of_nat k + Z.of_nat (i - k)) by lia.
        rewrite Hk, Z.add_mod_idemp_l by lia.
        f_equal. lia.
      * lia.
  - intros day Hrange. apply in_or_app. right.
    apply in_map_iff. exists (Z.to_nat (day - firstDay + 1)).
    split.
    + rewrite Hday. f_equal. lia.
    + apply in_seq. lia.
Qed.

Lemma getDaysInMonth_columns_witness :
  nth_error (CalendarMonth.getDaysInMonth 2025 0) 12 = Some (Some (Sample.jan 10))
  /\ 12 mod 7 = JsCalendar.weekDay (Sample.jan 10)
  /\ In (Some (Sample.jan 31)) (CalendarMonth.getDaysInMonth 2025 0).
Proof.
  destruct (getDaysInMonth_columns 2025 0) as [_ [Hcol Hall]].
  assert (H : nth_error (CalendarMonth.getDaysInMonth 2025 0) 12 = Some (Some (Sample.jan 10)))
    by reflexivity.
  split; [exact H|]. split.
  - exact (proj1 (Hcol 12%nat (Sample.jan 10) H)).
  - apply Hall. vm_compute. split; discriminate.
Defined.

(* ------------------------------------------------------------------ *)
(** ** What the handlers leave untouched                                *)
(* ------------------------------------------------------------------ *)

Lemma handler_world fallback (body : M unit) w :
  snd (handler fallback body w) = snd (body w).
Proof.
  unfold handler. destruct (body w) as [[[m|]|u] w']; reflexivity.
Qed.

Lemma handler_failure fallback (body : M unit) w :
  success (fst (handler fallback body w)) = false -> exists e, fst (body w) = inl e.
Proof.
  unfold handler. destruct (body w) as [[e|u] w']; cbn.
  - intros _. now exists e.
  - discriminate.
Qed.

Lemma reads_uploads folder photos :
  Effects.reads (promiseAll (fun photo => uploadImage photo folder) photos).
Proof. intros w. now rewrite promiseAll_upload_world. Qed.

Lemma reads_checkAvailability ty f : Effects.reads (checkAvailability ty f).
Proof.
  intros w. unfold checkAvailability.
  destruct (negb (truthy (selectedId f)) || negb (truthy_date (startDate f))
            || negb (truthy_date (endDate f))); [reflexivity|].
  unfold select_reservations, bind, remote, get_db, ret. cbn.
  destruct (is_ok (hd Ok (replies w))), (endDate f), (startDate f); reflexivity.
Qed.

Lemma total_ret {A} (a : A) : Effects.total (ret a).
Proof. intros w. now exists a. Qed.

Lemma total_bind {A B} (c : M A) (k : A -> M B) :
  Effects.total c -> (forall a, Effects.total (k a)) -> Effects.total (bind c k).
Proof.
  intros Hc Hk w. unfold bind. destruct (Hc w) as [a Ha].
  destruct (c w) as [[e|a'] w1]; cbn [fst] in Ha; [discriminate|].
  apply Hk.
Qed.

Lemma total_update_reservation rid p : Effects.total (update_reservation rid p).
Proof. intros w. rewrite update_reservation_run. now eexists. Qed.

Lemma total_update_equipment_eq eid st : Effects.total (update_equipment_eq eid st).
Proof. intros w. rewrite update_equipment_eq_run. now eexists. Qed.

Lemma total_update_equipment_in eids st : Effects.total (update_equipment_in eids st).
Proof. intros w. rewrite update_equipment_in_run. now eexists. Qed.

Lemma total_select_kit_equipment kid : Effects.total (select_kit_equipment kid).
Proof. intros w. rewrite select_kit_equipment_run. now eexists. Qed.

Lemma total_get_clock : Effects.total get_clock.
Proof. intros w. now eexists. Qed.

Lemma total_sendSummaryEmail net profile it :
  Effects.total (sendSummaryEmail net profile it).
Proof.
  destruct profile as [p|]; intros w.
  - rewrite sendSummaryEmail_run. now eexists.
  - now exists tt.
Qed.

Ltac total_tac :=
  repeat first
    [ apply total_ret | apply total_update_reservation
    | apply total_update_equipment_eq | apply total_update_equipment_in
    | apply total_select_kit_equipment | apply total_get_clock
    | apply total_sendSummaryEmail
    | apply total_bind; [|intros ?]
    | match goal with
      | |- Effects.total (if ?b then _ else _) => destruct b
      | |- Effects.total (match ?x with Some _ => _ | None => _ end) => destruct x
      end ].

Lemma failsClean_throw {A} e : Effects.failsClean (@throw A e).
Proof. intros w e' _. reflexivity. Qed.

Lemma failsClean_total {A} (c : M A) : Effects.total c -> Effects.failsClean c.
Proof. intros H w e He. destruct (H w) as [a Ha]. congruence. Qed.

Lemma failsClean_bind {A B} (c : M A) (k : A -> M B) :
  Effects.reads c -> (forall a, Effects.failsClean (k a)) ->
  Effects.failsClean (bind c k).
Proof.
  intros Hc Hk w e. unfold bind. specialize (Hc w).
  destruct (c w) as [[e'|a] w1]; cbn [snd] in *; [intros _; exact Hc|].
  intros He. rewrite (Hk a w1 e He). exact Hc.
Qed.

(** A write whose refusal makes the handler throw: either it is refused and
    the tables are as before, or the rest of the handler cannot throw. *)
Lemma failsClean_guarded_write (c : M bool) (rest : M unit) :
  (forall w, exists b, fst (c w) = inr b /\ (b = false -> db (snd (c w)) = db w)) ->
  Effects.total rest ->
  Effects.failsClean (bind c (fun done => if negb done then throw Thrown else rest)).
Proof.
  intros Hc Hrest w e. unfold bind.
  destruct (Hc w) as [b [Hb Hdb]].
  destruct (c w) as [[e'|b'] w1]; cbn [fst snd] in *; [discriminate|].
  injection Hb as ->. destruct b; cbn [negb].
  - intros He. destruct (Hrest w1) as [a Ha]. congruence.
  - intros _. now apply Hdb.
Qed.

Lemma insert_reservation_refused data w :
  exists b, fst (insert_reservation data w) = inr b
            /\ (b = false -> db (snd (insert_reservation data w)) = db w).
Proof.
  unfold insert_reservation, bind, remote. cbn.
  destruct (is_ok (hd Ok (replies w))); [|exists false; auto].
  destruct (d_start_date data) as [s|]; [|exists false; auto].
  destruct (d_end_date data) as [e|]; [|exists false; auto].
  destruct (s <=? e); [|exists false; auto].
  exists true. split; [reflexivity|discriminate].
Qed.

Lemma update_reservation_refused rid p w :
  exists b, fst (update_reservation rid p w) = inr b
            /\ (b = false -> db (snd (update_reservation rid p w)) = db w).
Proof.
  rewrite update_reservation_run. exists (answers w). split; [reflexivity|].
  cbn. now intros ->.
Qed.

Lemma handler_failsClean fallback (body : M unit) w :
  Effects.failsClean body ->
  success (fst (handler fallback body w)) = false ->
  db (snd (handler fallback body w)) = db w.
Proof.
  intros Hbody H. apply handler_failure in H. destruct H as [e He].
  rewrite handler_world. exact (Hbody w e He).
Qed.

(** X8. A Create that ends with an error message has written to no table,
    whatever the remote services answered. *)
Theorem handleSubmit_error_leaves_tables profile ty f photos w :
  success (fst (handleSubmit profile ty f photos w)) = false ->
  db (snd (handleSubmit profile ty f photos w)) = db w.
Proof.
  unfold handleSubmit. apply handler_failsClean.
  destruct profile as [p|]; [|apply failsClean_throw].
  destruct (length photos =? 0)%nat; [apply failsClean_throw|].
  apply failsClean_bind; [apply reads_checkAvailability|]. intros isAvailable.
  destruct (negb isAvailable); [apply failsClean_throw|].
  apply failsClean_bind; [apply reads_uploads|]. intros photoUrls. cbv zeta.
  apply failsClean_guarded_write; [intros w'; apply insert_reservation_refused|].
  destruct ty; total_tac.
Qed.

Lemma handleSubmit_error_leaves_tables_witness :
  let w := Sample.world_of Sample.db_empty [Ok; Ok; Err "duplicate key"] ["a1"; "R1"] in
  db (snd (handleSubmit (Some Sample.ana) TEquipment (Sample.form "E1" 10 12)
                        [Sample.photo] w))
  = Sample.db_empty.
Proof.
  intros w.
  apply (handleSubmit_error_leaves_tables (Some Sample.ana) TEquipment
           (Sample.form "E1" 10 12) [Sample.photo] w).
  vm_compute. reflexivity.
Defined.

(** X9. A Pickup that ends with an error message has written to no table. *)
Theorem handlePickup_error_leaves_tables net profile items sel photos w :
  success (fst (handlePickup net profile items sel photos w)) = false ->
  db (snd (handlePickup net profile items sel photos w)) = db w.
Proof.
  unfold handlePickup. apply handler_failsClean.
  destruct (negb (truthy sel)); [apply failsClean_throw|].
  destruct (length photos =? 0)%nat; [apply failsClean_throw|].
  destruct (find _ items) as [it|]; [|apply failsClean_throw].
  destruct profile as [p|]; [|apply failsClean_throw].
  apply failsClean_bind; [apply reads_uploads|]. intros photoUrls.
  apply failsClean_total. total_tac.
Qed.

Lemma handlePickup_error_leaves_tables_witness :
  let w := Sample.world_of Sample.db_scheduled [Err "Payload too large"] ["a1"] in
  db (snd (handlePickup NetworkError (Some Sample.ana) [Sample.item_R1 Agendado] "R1"
                        [Sample.photo] w))
  = Sample.db_scheduled.
Proof.
  intros w.
  apply (handlePickup_error_leaves_tables NetworkError (Some Sample.ana)
           [Sample.item_R1 Agendado] "R1" [Sample.photo] w).
  vm_compute. reflexivity.
Defined.

(** X10. A Return that ends with an error message has written to no
    table. *)
Theorem handleReturn_error_leaves_tables items sel photos w :
  success (fst (handleReturn items sel photos w)) = false ->
  db (snd (handleReturn items sel photos w)) = db w.
Proof.
  unfold handleReturn. apply handler_failsClean.
  destruct (negb (truthy sel)); [apply failsClean_throw|].
  destruct (length photos =? 0)%nat; [apply failsClean_throw|].
  destruct (find _ items) as [it|]; [|apply failsClean_throw].
  apply failsClean_bind; [apply reads_uploads|]. intros photoUrls.
  apply failsClean_guarded_write; [intros w'; apply update_reservation_refused|].
  total_tac.
Qed.

Lemma handleReturn_error_leaves_tables_witness :
  let w := Sample.world_of Sample.db_10_12 [Ok; Err "permission denied"] ["a3"] in
  db (snd (handleReturn [Sample.item_R1 REmUso] "R1" [Sample.photo] w))
  = Sample.db_10_12.
Proof.
  intros w.
  apply (handleReturn_error_leaves_tables [Sample.item_R1 REmUso] "R1" [Sample.photo] w).
  vm_compute. reflexivity.
Defined.

(* ------------------------------------------------------------------ *)
(** ** What the handlers may change                                *)
(* ------------------------------------------------------------------ *)

Lemma keeps_bind {A B} (R : Database -> Database -> Prop) (c : M A) (k : A -> M B) :
  (forall x y z, R x y -> R y z -> R x z) ->
  Effects.keeps R c -> (forall a, Effects.keeps R (k a)) ->
  Effects.keeps R (bind c k).
Proof.
  intros Htrans Hc Hk w. unfold bind. specialize (Hc w).
  destruct (c w) as [[e|a] w1]; cbn [snd] in *; [exact Hc|].
  exact (Htrans _ _ _ Hc (Hk a w1)).
Qed.

Lemma keeps_reads {A} (R : Database -> Database -> Prop) (c : M A) :
  (forall x, R x x) -> Effects.reads c -> Effects.keeps R c.
Proof. intros Hrefl Hc w. rewrite Hc. apply Hrefl. Qed.

Lemma touchesOnly_refl sel d : Effects.touchesOnly sel d d.
Proof. repeat split. Qed.

Lemma touchesOnly_trans sel x y z :
  Effects.touchesOnly sel x y -> Effects.touchesOnly sel y z -> Effects.touchesOnly sel x z.
Proof.
  unfold Effects.touchesOnly. intros [A1 [B1 [C1 [D1 E1]]]] [A2 [B2 [C2 [D2 E2]]]].
  repeat split; congruence.
Qed.

Lemma statusOnly_refl d : Effects.statusOnly d d.
Proof. repeat split. Qed.

Lemma statusOnly_trans x y z :
  Effects.statusOnly x y -> Effects.statusOnly y z -> Effects.statusOnly x z.
Proof.
  unfold Effects.statusOnly. intros [A1 [B1 [C1 D1]]] [A2 [B2 [C2 D2]]].
  repeat split; congruence.
Qed.

Lemma set_equipment_status_statusOnly caller eids st d :
  Effects.statusOnly d (set_equipment_status caller eids st d).
Proof.
  unfold Effects.statusOnly, set_equipment_status. cbn.
  repeat split; rewrite map_map; apply map_ext; intros e;
    destruct (mem (eq_id e) eids && may_update caller e); reflexivity.
Qed.

Lemma statusOnly_touchesOnly sel d d' :
  Effects.statusOnly d d' -> Effects.touchesOnly sel d d'.
Proof.
  unfold Effects.statusOnly, Effects.touchesOnly. intros [A [B [C D]]].
  rewrite A. repeat split; assumption.
Qed.

Lemma patch_reservations_touchesOnly sel p d :
  Effects.touchesOnly sel d (patch_reservations sel p d).
Proof.
  unfold Effects.touchesOnly, patch_reservations. cbn.
  repeat split.
  - rewrite map_map. apply map_ext. intros r.
    destruct (String.eqb (id r) sel); [apply apply_patch_id|reflexivity].
  - induction (reservations d) as [|r l IH]; cbn; [reflexivity|].
    destruct (String.eqb (id r) sel) eqn:E.
    + rewrite apply_patch_id, E. cbn. exact IH.
    + rewrite E. cbn. now rewrite IH.
Qed.

Lemma keeps_statusOnly_update_eq eid st :
  Effects.keeps Effects.statusOnly (update_equipment_eq eid st).
Proof.
  intros w. rewrite update_equipment_eq_run. cbn.
  destruct (answers w); [apply set_equipment_status_statusOnly|apply statusOnly_refl].
Qed.

Lemma keeps_statusOnly_update_in eids st :
  Effects.keeps Effects.statusOnly (update_equipment_in eids st).
Proof.
  intros w. rewrite update_equipment_in_run. cbn.
  destruct (answers w); [apply set_equipment_status_statusOnly|apply statusOnly_refl].
Qed.

Lemma reads_select_kit_equipment kid : Effects.reads (select_kit_equipment kid).
Proof. intros w. now rewrite select_kit_equipment_run. Qed.

Lemma reads_ret {A} (a : A) : Effects.reads (ret a).
Proof. intros w. reflexivity. Qed.

Lemma reads_throw {A} e : Effects.reads (@throw A e).
Proof. intros w. reflexivity. Qed.

Lemma reads_get_clock : Effects.reads get_clock.
Proof. intros w. reflexivity. Qed.

Lemma reads_sendSummaryEmail net profile it :
  Effects.reads (sendSummaryEmail net profile it).
Proof.
  destruct profile as [p|]; intros w; [now rewrite sendSummaryEmail_run|reflexivity].
Qed.

Ltac statusOnly_tac :=
  repeat first
    [ apply keeps_statusOnly_update_eq | apply keeps_statusOnly_update_in
    | apply (keeps_reads Effects.statusOnly); [exact statusOnly_refl|];
      first [ apply reads_ret | apply reads_select_kit_equipment | apply reads_throw ]
    | apply (keeps_bind Effects.statusOnly); [exact statusOnly_trans| |intros ?]
    | match goal with
      | |- Effects.keeps _ (if ?b then _ else _) => destruct b
      | |- Effects.keeps _ (match ?x with Some _ => _ | None => _ end) => destruct x
      | |- Effects.keeps _ (let _ := _ in _) => cbv zeta
      end ].

Lemma keeps_weaken {A} (R R' : Database -> Database -> Prop) (c : M A) :
  (forall x y, R x y -> R' x y) -> Effects.keeps R c -> Effects.keeps R' c.
Proof. intros H Hc w. apply H, Hc. Qed.

Lemma keeps_touchesOnly_update_reservation sel p :
  Effects.keeps (Effects.touchesOnly sel) (update_reservation sel p).
Proof.
  intros w. rewrite update_reservation_run. cbn.
  destruct (answers w); [apply patch_reservations_touchesOnly|apply touchesOnly_refl].
Qed.

Lemma handler_keeps (R : Database -> Database -> Prop) fallback (body : M unit) w :
  Effects.keeps R body -> R (db w) (db (snd (handler fallback body w))).
Proof. intros H. rewrite handler_world. apply H. Qed.

(** X11. Whatever the remote services answer, a Pickup adds and removes no
    row: the kit memberships are as before, the equipment rows keep their
    ids and names, and the reservation rows keep their ids; the rows of
    every reservation other than the selected one are unchanged. *)
Theorem handlePickup_touches_only_selected net profile items sel photos w :
  Effects.touchesOnly sel (db w) (db (snd (handlePickup net profile items sel photos w))).
Proof.
  unfold handlePickup. apply handler_keeps.
  assert (Hthrow : forall e, Effects.keeps (Effects.touchesOnly sel) (@throw unit e)).
  { intros e. apply keeps_reads; [apply touchesOnly_refl|apply reads_throw]. }
  destruct (negb (truthy sel)); [apply Hthrow|].
  destruct (length photos =? 0)%nat; [apply Hthrow|].
  destruct (find _ items) as [it|]; [|apply Hthrow].
  destruct profile as [p|]; [|apply Hthrow].
  apply keeps_bind; [apply touchesOnly_trans| |intros photoUrls].
  { apply keeps_reads; [apply touchesOnly_refl|apply reads_uploads]. }
  apply keeps_bind; [apply touchesOnly_trans| |intros now].
  { apply keeps_reads; [apply touchesOnly_refl|apply reads_get_clock]. }
  apply keeps_bind; [apply touchesOnly_trans| |intros _].
  { apply keeps_touchesOnly_update_reservation. }
  apply keeps_bind; [apply touchesOnly_trans| |intros _].
  { apply (keeps_weaken Effects.statusOnly); [apply statusOnly_touchesOnly|].
    statusOnly_tac. }
  apply keeps_bind; [apply touchesOnly_trans| |intros _].
  { apply keeps_touchesOnly_update_reservation. }
  apply keeps_reads; [apply touchesOnly_refl|apply reads_sendSummaryEmail].
Qed.

(** X12. Whatever the remote services answer, a Return adds and removes no
    row and leaves the rows of every reservation other than the selected
    one unchanged. *)
Theorem handleReturn_touches_only_selected items sel photos w :
  Effects.touchesOnly sel (db w) (db (snd (handleReturn items sel photos w))).
Proof.
  unfold handleReturn. apply handler_keeps.
  assert (Hthrow : forall e, Effects.keeps (Effects.touchesOnly sel) (@throw unit e)).
  { intros e. apply keeps_reads; [apply touchesOnly_refl|apply reads_throw]. }
  destruct (negb (truthy sel)); [apply Hthrow|].
  destruct (length photos =? 0)%nat; [apply Hthrow|].
  destruct (find _ items) as [it|]; [|apply Hthrow].
  apply keeps_bind; [apply touchesOnly_trans| |intros photoUrls].
  { apply keeps_reads; [apply touchesOnly_refl|apply reads_uploads]. }
  apply keeps_bind; [apply touchesOnly_trans| |intros updated].
  { apply keeps_touchesOnly_update_reservation. }
  destruct (negb updated); [apply Hthrow|].
  apply (keeps_weaken Effects.statusOnly); [apply statusOnly_touchesOnly|].
  statusOnly_tac.
Qed.

Lemma appendsRow_refl d : Effects.appendsRow d d.
Proof.
  repeat split. exists []. split; [now rewrite app_nil_r|cbn; lia].
Qed.

Lemma keeps_seq {A B} (R1 R2 R3 : Database -> Database -> Prop)
      (c : M A) (k : A -> M B) :
  (forall x y z, R1 x y -> R2 y z -> R3 x z) ->
  (forall x y, R1 x y -> R3 x y) ->
  Effects.keeps R1 c -> (forall a, Effects.keeps R2 (k a)) ->
  Effects.keeps R3 (bind c k).
Proof.
  intros Hcomp Hsub Hc Hk w. unfold bind. specialize (Hc w).
  destruct (c w) as [[e|a] w1]; cbn [snd] in *; [exact (Hsub _ _ Hc)|].
  exact (Hcomp _ _ _ Hc (Hk a w1)).
Qed.

Lemma appendsRow_statusOnly x y z :
  Effects.appendsRow x y -> Effects.statusOnly y z -> Effects.appendsRow x z.
Proof.
  unfold Effects.appendsRow, Effects.statusOnly.
  intros [A1 [B1 [C1 D1]]] [A2 [B2 [C2 D2]]].
  rewrite A2, B2, C2, D2. repeat split; assumption.
Qed.

Lemma keeps_appendsRow_insert data :
  Effects.keeps Effects.appendsRow (insert_reservation data).
Proof.
  intros w. unfold insert_reservation, bind, remote. cbn.
  destruct (is_ok (hd Ok (replies w))); [|apply appendsRow_refl].
  destruct (d_start_date data) as [s0|]; [|apply appendsRow_refl].
  destruct (d_end_date data) as [e0|]; [|apply appendsRow_refl].
  destruct (s0 <=? e0); [|apply appendsRow_refl].
  cbn. repeat split. eexists [_]. split; [reflexivity|cbn; lia].
Qed.

(** X13. Whatever the remote services answer, a Create leaves every
    reservation row in place and appends at most one; the kit memberships
    are as before and the equipment rows keep their ids and names. *)
Theorem handleSubmit_appends_one_row profile ty f photos w :
  Effects.appendsRow (db w) (db (snd (handleSubmit profile ty f photos w))).
Proof.
  unfold handleSubmit. apply handler_keeps.
  assert (Hthrow : forall e, Effects.keeps Effects.appendsRow (@throw unit e)).
  { intros e. apply keeps_reads; [apply appendsRow_refl|apply reads_throw]. }
  assert (Hid : forall x y z : Database, x = y -> Effects.appendsRow y z -> Effects.appendsRow x z).
  { now intros x y z ->. }
  assert (Hsub : forall x y : Database, x = y -> Effects.appendsRow x y).
  { intros x y ->. apply appendsRow_refl. }
  destruct profile as [p|]; [|apply Hthrow].
  destruct (length photos =? 0)%nat; [apply Hthrow|].
  apply (keeps_seq eq Effects.appendsRow); [exact Hid|exact Hsub| |intros isAvailable].
  { intros w0. symmetry. apply reads_checkAvailability. }
  destruct (negb isAvailable); [apply Hthrow|].
  apply (keeps_seq eq Effects.appendsRow); [exact Hid|exact Hsub| |intros photoUrls].
  { intros w0. symmetry. apply reads_uploads. }
  cbv zeta.
  apply (keeps_seq Effects.appendsRow Effects.statusOnly);
    [exact appendsRow_statusOnly|auto|apply keeps_appendsRow_insert|intros inserted].
  destruct (negb inserted); [|destruct ty]; statusOnly_tac.
Qed.

(* ------------------------------------------------------------------ *)
(** ** The requests the handlers send                              *)
(* ------------------------------------------------------------------ *)

Lemma sends_quiet {A} (Q : Call -> Prop) (c : M A) :
  (forall w, log (snd (c w)) = log w) -> Effects.sends Q c.
Proof.
  intros H w. exists []. split; [now rewrite H, app_nil_r|constructor].
Qed.

Lemma sends_bind {A B} (Q : Call -> Prop) (c : M A) (k : A -> M B) :
  Effects.sends Q c -> (forall a, Effects.sends Q (k a)) ->
  Effects.sends Q (bind c k).
Proof.
  intros Hc Hk w. unfold bind. destruct (Hc w) as [n1 [E1 F1]].
  destruct (c w) as [[e|a] w1]; cbn [snd] in *; [exists n1; auto|].
  destruct (Hk a w1) as [n2 [E2 F2]].
  exists (n1 ++ n2)%list. split.
  - now rewrite E2, E1, app_assoc.
  - apply Forall_app. auto.
Qed.

Lemma sends_remote (Q : Call -> Prop) c : Q c -> Effects.sends Q (remote c).
Proof. intros H w. exists [c]. split; [reflexivity|auto]. Qed.

Lemma sends_runAll {A B} (Q : Call -> Prop) (f : A -> M B) xs w :
  (forall x, Effects.sends Q (f x)) ->
  exists news, log (snd (runAll f xs w)) = (log w ++ news)%list /\ Forall Q news.
Proof.
  intros Hf. revert w. induction xs as [|x rest IH]; intros w; cbn [runAll].
  - exists []. split; [now rewrite app_nil_r|constructor].
  - destruct (Hf x w) as [n1 [E1 F1]]. destruct (f x w) as [o w1]. cbn [snd] in *.
    destruct (IH w1) as [n2 [E2 F2]]. destruct (runAll f rest w1) as [os w2].
    cbn [snd] in *. exists (n1 ++ n2)%list. split.
    + now rewrite E2, E1, app_assoc.
    + apply Forall_app. auto.
Qed.

Lemma sends_promiseAll {A B} (Q : Call -> Prop) (f : A -> M B) xs :
  (forall x, Effects.sends Q (f x)) -> Effects.sends Q (promiseAll f xs).
Proof.
  intros Hf w. destruct (sends_runAll Q f xs w Hf) as [news H].
  exists news. unfold promiseAll. destruct (runAll f xs w). exact H.
Qed.

Ltac sends_tac :=
  repeat first
    [ apply sends_remote; cbn; solve [auto]
    | apply sends_quiet; intros ?; reflexivity
    | apply sends_promiseAll; intros ?
    | apply sends_bind; [|intros ?]
    | match goal with
      | |- Effects.sends _ (if ?b then _ else _) => destruct b
      | |- Effects.sends _ (match ?x with Some _ => _ | None => _ end) => destruct x
      | |- Effects.sends _ (match ?x with Ok => _ | Err _ => _ end) => destruct x
      | |- Effects.sends _ (match ?x with TEquipment => _ | TKit => _ end) => destruct x
      | |- Effects.sends _ (match ?x with Responded _ _ => _ | NetworkError => _ end) =>
          destruct x
      | |- Effects.sends _ (let _ := _ in _) => cbv zeta
      end
    | progress unfold uploadImage, checkAvailability, select_reservations,
        insert_reservation, update_reservation, update_equipment_eq,
        update_equipment_in, select_kit_equipment ].

Lemma handler_sends (Q : Call -> Prop) fallback (body : M unit) w :
  Effects.sends Q body ->
  exists news,
    log (snd (handler fallback body w)) = (log w ++ news)%list /\ Forall Q news.
Proof.
  intros H. destruct (H w) as [news Hn]. exists news.
  unfold handler. destruct (body w) as [[[m|]|u] w']; exact Hn.
Qed.

(** X14. Whatever the remote services answer, neither a Create nor a
    Return sends a notification request: every request they add to the log
    goes to the storage or to the database. *)
Theorem create_and_return_send_no_notification profile ty f items sel photos w :
  (exists news,
      log (snd (handleSubmit profile ty f photos w)) = (log w ++ news)%list
      /\ Forall (fun c => is_post c = false) news)
  /\ (exists news,
         log (snd (handleReturn items sel photos w)) = (log w ++ news)%list
         /\ Forall (fun c => is_post c = false) news).
Proof.
  split.
  - unfold handleSubmit. apply handler_sends. sends_tac.
  - unfold handleReturn. apply handler_sends. sends_tac.
Qed.

Lemma sends_sendSummaryEmail (P : EmailData -> Prop) net p it :
  (forall now, P (emailDataOf p it now)) ->
  Effects.sends (Effects.postsOnly P) (sendSummaryEmail net (Some p) it).
Proof.
  intros HP w. rewrite sendSummaryEmail_run.
  exists [PostSummaryEmail (emailDataOf p it (clock w))]. split; [reflexivity|].
  constructor; [apply HP|constructor].
Qed.

Lemma find_singleton {A} (f : A -> bool) x y : find f [x] = Some y -> y = x.
Proof. cbn. destruct (f x); congruence. Qed.

(** X15. A Pickup opened from the calendar for a reservation with no joined
    equipment row (a reservation of a kit) that succeeds ends with a
    notification request whose item name is "Item" and whose item type is
    "kit", whatever the name of the reserved kit: the dialog looks for the
    kit under [kit], the calendar row has it under [kits]. *)
Theorem calendar_kit_pickup_is_announced_as_Item net p r sel photos w :
  CalendarMonth.details_equipment r = None ->
  success (fst (handlePickup net (Some p) (CalendarMonth.handlePickupClick r)
                             sel photos w)) = true ->
  exists pre payload,
    log (snd (handlePickup net (Some p) (CalendarMonth.handlePickupClick r)
                           sel photos w))
    = (log w ++ pre ++ [PostSummaryEmail payload])%list
    /\ itemName payload = "Item"
    /\ itemType payload = "kit".
Proof.
  intros Hkit Hok.
  destruct (handlePickup_shape (Some p) (CalendarMonth.handlePickupClick r) sel photos w)
    as [ui [d' [news [Hall Hcase]]]].
  destruct (Hall net) as [Hui [_ [Hlog _]]].
  rewrite Hui in Hok.
  destruct Hcase as [[Hfail _]|[_ [_ [pre [payload [Hnews _]]]]]]; [congruence|].
  exists (pre ++ [UpdateReservation sel EmailSentPatch])%list, payload.
  split; [rewrite Hlog, Hnews, <- !app_assoc; reflexivity|].
  assert (Hsends : exists news',
             log (snd (handlePickup net (Some p) (CalendarMonth.handlePickupClick r)
                                    sel photos w)) = (log w ++ news')%list
             /\ Forall (Effects.postsOnly
                          (fun e => itemName e = "Item" /\ itemType e = "kit")) news').
  { unfold handlePickup. apply handler_sends.
    destruct (negb (truthy sel)); [sends_tac|].
    destruct (length photos =? 0)%nat; [sends_tac|].
    destruct (find _ _) as [it|] eqn:Hfind; [|sends_tac].
    apply find_singleton in Hfind. subst it.
    apply sends_bind; [sends_tac|intros photoUrls].
    apply sends_bind; [sends_tac|intros now].
    apply sends_bind; [sends_tac|intros _].
    apply sends_bind; [sends_tac|intros _].
    apply sends_bind; [sends_tac|intros _].
    apply sends_sendSummaryEmail. intros now'. cbn. rewrite Hkit. cbn. auto. }
  destruct Hsends as [news' [Hlog' Hall']].
  rewrite Hlog in Hlog'. apply app_inv_head in Hlog'. subst news'.
  rewrite Hnews in Hall'. apply Forall_app in Hall'. destruct Hall' as [_ Hlast].
  inversion Hlast as [|x l _ Hrest]. inversion Hrest as [|x' l' Hx _]. exact Hx.
Qed.

Lemma calendar_kit_pickup_is_announced_as_Item_witness :
  let row := Sample.booking "R2" None (Some "K1") (Sample.jan 10) (Sample.jan 12) Agendado in
  let r := CalendarMonth.mkDetails row None (Some Sample.studio) (Some Sample.ana) in
  let w := Sample.world_of
             (mkDatabase [Sample.camera] [mkKitEquipment "K1" "E1"] [row]) [] ["a1"] in
  exists pre payload,
    log (snd (handlePickup (Responded true "") (Some Sample.ana)
                           (CalendarMonth.handlePickupClick r) "R2" [Sample.photo] w))
    = (log w ++ pre ++ [PostSummaryEmail payload])%list
    /\ itemName payload = "Item"
    /\ itemType payload = "kit".
Proof.
  intros row r w.
  apply (calendar_kit_pickup_is_announced_as_Item
           (Responded true "") Sample.ana r "R2" [Sample.photo] w).
  - reflexivity.
  - vm_compute. reflexivity.
Defined.

(* ------------------------------------------------------------------ *)
(** ** The tables after a handler that succeeds                    *)
(* ------------------------------------------------------------------ *)

Lemma yields_bind {A B} (c : M A) (k : A -> M B)
      (P : A -> Database -> Database -> Prop)
      (Q : A -> B -> Database -> Database -> Prop)
      (R : B -> Database -> Database -> Prop) :
  (forall a b x y z, P a x y -> Q a b y z -> R b x z) ->
  Effects.yields c P -> (forall a, Effects.yields (k a) (Q a)) ->
  Effects.yields (bind c k) R.
Proof.
  intros Hcomp Hc Hk w b. unfold bind. specialize (Hc w).
  destruct (c w) as [[e|a] w1]; cbn [fst snd] in *; [discriminate|].
  intros Hb. exact (Hcomp a b _ _ _ (Hc a eq_refl) (Hk a w1 b Hb)).
Qed.

Lemma yields_throw {A} e (Post : A -> Database -> Database -> Prop) :
  Effects.yields (@throw A e) Post.
Proof. intros w a H. discriminate. Qed.

Lemma yields_keeps {A} (R : Database -> Database -> Prop) (c : M A) :
  Effects.keeps R c -> Effects.yields c (fun _ => R).
Proof. intros H w a _. apply H. Qed.

Lemma yields_update_reservation rid p :
  Effects.yields (update_reservation rid p)
                 (fun updated d d' => updated = true -> d' = patch_reservations rid p d).
Proof.
  intros w a. rewrite update_reservation_run. cbn.
  destruct (answers w); intros H Ha; [reflexivity|congruence].
Qed.

Lemma handler_yields fallback (body : M unit) (Post : Database -> Database -> Prop) w :
  Effects.yields body (fun _ => Post) ->
  success (fst (handler fallback body w)) = true ->
  Post (db w) (db (snd (handler fallback body w))).
Proof.
  intros H. specialize (H w). unfold handler.
  destruct (body w) as [[[m|]|u] w']; cbn; try discriminate.
  intros _. exact (H u eq_refl).
Qed.

(** The reservation rows after a Return that succeeds: the rows with the
    selected id carry the patch of the Return, the others are as before. *)
Lemma handleReturn_success_rows items sel photos w :
  success (fst (handleReturn items sel photos w)) = true ->
  exists urls,
    reservations (db (snd (handleReturn items sel photos w)))
    = reservations (patch_reservations sel (ReturnPatch urls) (db w)).
Proof.
  unfold handleReturn.
  apply (handler_yields _ _
           (fun x z => exists urls,
                reservations z = reservations (patch_reservations sel (ReturnPatch urls) x))).
  destruct (negb (truthy sel)); [apply yields_throw|].
  destruct (length photos =? 0)%nat; [apply yields_throw|].
  destruct (find _ items) as [it|]; [|apply yields_throw].
  apply (yields_bind _ _ (fun _ x y => x = y)
           (fun urls _ y z =>
              reservations z = reservations (patch_reservations sel (ReturnPatch urls) y))).
  { intros urls b x y z -> Hz. exists urls. exact Hz. }
  { apply yields_keeps, keeps_reads; [reflexivity|apply reads_uploads]. }
  intros urls.
  apply (yields_bind _ _
           (fun updated y y' =>
              updated = true -> y' = patch_reservations sel (ReturnPatch urls) y)
           (fun updated _ y' z => updated = true /\ reservations z = reservations y')).
  { intros updated b x y z Hp [Hu Hz]. now rewrite Hz, (Hp Hu). }
  { apply yields_update_reservation. }
  intros updated. destruct updated; cbn [negb]; [|apply yields_throw].
  intros w' a _. split; [reflexivity|].
  assert (Hk : Effects.keeps Effects.statusOnly
                 (if truthy_opt (equipment_id (row it)) then
                    match equipment_id (row it) with
                    | Some eid => update_equipment_eq eid Disponivel ;;; ret tt
                    | None => ret tt
                    end
                  else if truthy_opt (kit_id (row it)) then
                    match kit_id (row it) with
                    | Some kid =>
                        kitEquipment <- select_kit_equipment kid ;;
                        match kitEquipment with
                        | Some rows =>
                            let equipmentIds := map ke_equipment_id rows in
                            update_equipment_in equipmentIds Disponivel ;;; ret tt
                        | None => ret tt
                        end
                    | None => ret tt
                    end
                  else ret tt)) by statusOnly_tac.
  apply Hk.
Qed.

Lemma patched_row_origin rid p l r :
  In r (map (fun r0 => if String.eqb (id r0) rid then apply_patch p r0 else r0) l) ->
  (id r <> rid /\ In r l)
  \/ (exists r0, In r0 l /\ id r0 = rid /\ r = apply_patch p r0).
Proof.
  intros H. apply in_map_iff in H. destruct H as [r0 [Hr Hin]].
  destruct (String.eqb (id r0) rid) eqn:E.
  - right. exists r0. apply String.eqb_eq in E. auto.
  - left. subst r. apply String.eqb_neq in E. auto.
Qed.

(** X16. After a Return that succeeds, the list of pending returns that the
    dashboard loads again does not hold the returned reservation. *)
Theorem returned_reservation_leaves_pending_list items sel photos w reply p current it :
  success (fst (handleReturn items sel photos w)) = true ->
  is_ok reply = true ->
  In it (DashboardView.loadPendingReturns
           reply (Some p) (db (snd (handleReturn items sel photos w))) current) ->
  id (row it) <> sel.
Proof.
  intros Hok Hreply Hin.
  destruct (handleReturn_success_rows items sel photos w Hok) as [urls Hrows].
  unfold DashboardView.loadPendingReturns in Hin. rewrite Hreply in Hin.
  apply in_map_iff in Hin. destruct Hin as [r [<- Hr]]. cbn [row].
  apply filter_In in Hr. destruct Hr as [Hr Hst].
  apply andb_true_iff in Hst. destruct Hst as [_ Hst].
  rewrite Hrows in Hr. unfold patch_reservations in Hr. cbn [reservations] in Hr.
  apply patched_row_origin in Hr. destruct Hr as [[Hid _]|[r0 [_ [_ ->]]]].
  - exact Hid.
  - cbn in Hst. discriminate.
Qed.

Lemma returned_reservation_leaves_pending_list_witness :
  let w := Sample.world_of Sample.db_after_kit [] ["a3"] in
  let items := [mkReservationItem (Sample.row_R1 REmUso []) (Some Sample.camera) None] in
  let pending := DashboardView.loadPendingReturns
                   Ok (Some Sample.ana)
                   (db (snd (handleReturn items "R1" [Sample.photo] w))) [] in
  pending = [mkReservationItem Sample.row_R2 None None]
  /\ forall it, In it pending -> id (row it) <> "R1".
Proof.
  intros w items pending. split; [vm_compute; reflexivity|].
  intros it Hin.
  apply (returned_reservation_leaves_pending_list
           items "R1" [Sample.photo] w Ok Sample.ana [] it).
  - vm_compute. reflexivity.
  - reflexivity.
  - exact Hin.
Defined.

Lemma checkAvailability_false_blocking ty f w :
  fst (checkAvailability ty f w) = inr false ->
  exists s e,
    startDate f = Some s /\ endDate f = Some e
    /\ Blocking (seenBy (uid w) (db w)) (field_of ty) (selectedId f) s e.
Proof.
  intros H.
  destruct (truthy (selectedId f)) eqn:Hid.
  2:{ unfold checkAvailability in H. rewrite Hid in H. discriminate. }
  destruct (startDate f) as [s|] eqn:Hs.
  2:{ unfold checkAvailability in H. rewrite Hid, Hs in H. discriminate. }
  destruct (endDate f) as [e|] eqn:He.
  2:{ unfold checkAvailability in H. rewrite Hid, Hs, He in H. discriminate. }
  exists s, e. split; [reflexivity|]. split; [reflexivity|].
  apply (checkAvailability_false_iff ty f w s e Hid Hs He). exact H.
Qed.

(** X17. When the availability check reports a conflict on the tables left
    by a Return that succeeded, an active reservation on the target other
    than the returned one was in the table before the Return. *)
Theorem conflict_after_return_comes_from_another_reservation
        items sel photos w ty f w' :
  success (fst (handleReturn items sel photos w)) = true ->
  db w' = db (snd (handleReturn items sel photos w)) ->
  fst (checkAvailability ty f w') = inr false ->
  exists r,
    In r (reservations (db w))
    /\ id r <> sel
    /\ fk_value (field_of ty) r = Some (selectedId f)
    /\ (status r = Agendado \/ status r = REmUso).
Proof.
  intros Hok Hdb Hcheck.
  destruct (handleReturn_success_rows items sel photos w Hok) as [urls Hrows].
  destruct (checkAvailability_false_blocking ty f w' Hcheck)
    as [s [e [_ [_ [r [Hin [Hfk [Hst _]]]]]]]].
  apply filter_In in Hin. destruct Hin as [Hin _].
  rewrite Hdb, Hrows in Hin. unfold patch_reservations in Hin. cbn [reservations] in Hin.
  apply patched_row_origin in Hin. destruct Hin as [[Hid Hin]|[r0 [_ [_ ->]]]].
  - exists r. auto.
  - cbn in Hst. destruct Hst; discriminate.
Qed.

Lemma conflict_after_return_comes_from_another_reservation_witness :
  let w := Sample.world_of Sample.db_after_kit [] ["a3"] in
  let items := [mkReservationItem (Sample.row_R1 REmUso []) (Some Sample.camera) None] in
  exists r,
    In r (reservations (db w))
    /\ id r <> "R1"
    /\ fk_value KitId r = Some "K1"
    /\ (status r = Agendado \/ status r = REmUso).
Proof.
  intros w items.
  apply (conflict_after_return_comes_from_another_reservation
           items "R1" [Sample.photo] w TKit (Sample.form "K1" 20 22)
           (Sample.world_of Sample.db_after_return [] [])).
  - vm_compute. reflexivity.
  - vm_compute. reflexivity.
  - vm_compute. reflexivity.
Defined.

Lemma yields_insert_reservation data :
  Effects.yields (insert_reservation data)
    (fun inserted d d' =>
       inserted = true ->
       exists rid s e,
         d_start_date data = Some s /\ d_end_date data = Some e /\ s <= e
         /\ d' = add_reservation (new_row rid data s e) d).
Proof.
  intros w a. unfold insert_reservation, bind, remote. cbn.
  destruct (is_ok (hd Ok (replies w))); [|cbn; congruence].
  destruct (d_start_date data) as [s|]; [|cbn; congruence].
  destruct (d_end_date data) as [e|]; [|cbn; congruence].
  destruct (s <=? e) eqn:Hle; [|cbn; congruence].
  cbn. intros _ _. exists (hd "" (fresh w)), s, e.
  apply Z.leb_le in Hle. auto.
Qed.

(** The row left in the table by a Create that succeeds. *)
Lemma handleSubmit_success_row profile ty f photos w :
  success (fst (handleSubmit profile ty f photos w)) = true ->
  exists p r,
    profile = Some p
    /\ reservations (db (snd (handleSubmit profile ty f photos w)))
       = (reservations (db w) ++ [r])%list
    /\ user_id r = profile_id p
    /\ fk_value (field_of ty) r = Some (selectedId f)
    /\ status r = REmUso
    /\ start_date r <= end_date r.
Proof.
  destruct profile as [p|]; [|discriminate].
  intros Hok. exists p.
  assert (H : exists r,
             reservations (db (snd (handleSubmit (Some p) ty f photos w)))
             = (reservations (db w) ++ [r])%list
             /\ user_id r = profile_id p
             /\ fk_value (field_of ty) r = Some (selectedId f)
             /\ status r = REmUso
             /\ start_date r <= end_date r);
    [|destruct H as [r Hr]; exists r; split; [reflexivity|exact Hr]].
  revert Hok. unfold handleSubmit.
  set (Booked := fun x z : Database =>
         exists r, reservations z = (reservations x ++ [r])%list
                   /\ user_id r = profile_id p
                   /\ fk_value (field_of ty) r = Some (selectedId f)
                   /\ status r = REmUso
                   /\ start_date r <= end_date r).
  apply (handler_yields _ _ Booked).
  destruct (length photos =? 0)%nat; [apply yields_throw|].
  apply (yields_bind _ _ (fun _ x y => x = y) (fun _ _ y z => Booked y z)).
  { now intros a b x y z ->. }
  { apply yields_keeps, keeps_reads; [reflexivity|apply reads_checkAvailability]. }
  intros isAvailable.
  destruct (negb isAvailable); [apply yields_throw|].
  apply (yields_bind _ _ (fun _ x y => x = y) (fun _ _ y z => Booked y z)).
  { now intros a b x y z ->. }
  { apply yields_keeps, keeps_reads; [reflexivity|apply reads_uploads]. }
  intros photoUrls. cbv zeta.
  apply (yields_bind _ _
           (fun inserted y y' => inserted = true -> Booked y y')
           (fun inserted _ y' z => inserted = true /\ reservations z = reservations y')).
  { intros inserted b x y z Hp [Hi Hz]. destruct (Hp Hi) as [r Hr].
    exists r. rewrite Hz. exact Hr. }
  { intros w0 a Ha He.
    destruct (yields_insert_reservation _ w0 a Ha He) as [rid [s [e [Hs [Hen [Hle Hd]]]]]].
    rewrite Hd. eexists. split; [reflexivity|].
    cbn in Hs, Hen. cbn. destruct ty; cbn; auto. }
  intros inserted. destruct inserted; cbn [negb]; [|apply yields_throw].
  intros w' a _. split; [reflexivity|].
  assert (Hk : Effects.keeps Effects.statusOnly
                 (match ty with
                  | TEquipment => update_equipment_eq (selectedId f) EmUso ;;; ret tt
                  | TKit =>
                      kitEquipment <- select_kit_equipment (selectedId f) ;;
                      match kitEquipment with
                      | Some rows =>
                          let equipmentIds := map ke_equipment_id rows in
                          update_equipment_in equipmentIds EmUso ;;; ret tt
                      | None => ret tt
                      end
                  end)) by (destruct ty; statusOnly_tac).
  apply Hk.
Qed.

(** X18. Once a Create has succeeded, a later Create for the same item by
    the same user is refused with the message of the availability check,
    whatever window it asks for, as long as the availability query is
    answered: the row of the first Create is in use and blocks every
    window.  For any other user the availability check answers as it
    would on the tables before the first Create: the query runs over the
    caller's own reservations, which the new row is not among. *)
Theorem same_user_cannot_book_an_item_twice
        profile ty f photos w p' f' photos' w' s' e' :
  success (fst (handleSubmit profile ty f photos w)) = true ->
  db w' = db (snd (handleSubmit profile ty f photos w)) ->
  selectedId f' = selectedId f ->
  truthy (selectedId f') = true ->
  startDate f' = Some s' ->
  endDate f' = Some e' ->
  s' <= e' ->
  answers w' = true ->
  photos' <> [] ->
  (option_map profile_id profile = Some (uid w') ->
   fst (handleSubmit (Some p') ty f' photos' w')
   = mkUi "Este item já está reservado para o período selecionado" false false)
  /\ (option_map profile_id profile <> Some (uid w') ->
      fst (checkAvailability ty f' w')
      = fst (checkAvailability ty f' (set_db (db w) w'))).
Proof.
  intros Hok Hdb Hsame Hid Hs He Hle Hans Hphotos.
  destruct (handleSubmit_success_row profile ty f photos w Hok)
    as [p [r [-> [Hres [Hu [Hfk [Hst Hr]]]]]]].
  cbn [option_map]. split.
  - intros Hcaller. injection Hcaller as Hcaller.
    assert (Hcheck : fst (checkAvailability ty f' w') = inr false).
    { apply (checkAvailability_false_iff ty f' w' s' e' Hid Hs He).
      split; [exact Hans|].
      apply (any_active_reservation_blocks
               (seenBy (uid w') (db w')) (field_of ty) (selectedId f') s' e' r);
        auto; [|now rewrite Hsame].
      cbn. apply filter_In. split.
      - rewrite Hdb, Hres. apply in_or_app. right. now left.
      - rewrite Hu, Hcaller. apply String.eqb_refl. }
    unfold handleSubmit, handler. rewrite (nonempty_length _ Hphotos).
    unfold bind at 1. destruct (checkAvailability ty f' w') as [[e|a] w1].
    + discriminate.
    + cbn in Hcheck. injection Hcheck as ->. reflexivity.
  - intros Hother.
    rewrite (checkAvailability_complete ty f' w' s' e' Hid Hs He).
    rewrite (checkAvailability_complete ty f' (set_db (db w) w') s' e' Hid Hs He).
    unfold answers, seenBy. cbn [set_db replies uid db reservations].
    rewrite Hdb, Hres, filter_app. cbn [filter].
    destruct (String.eqb (user_id r) (uid w')) eqn:E.
    + apply String.eqb_eq in E. exfalso. apply Hother. now rewrite <- E, Hu.
    + now rewrite app_nil_r.
Qed.

Lemma same_user_cannot_book_an_item_twice_witness :
  let later := Sample.world_of Sample.db_after_camera [] ["b1"; "R3"] in
  let other := mkWorld Sample.db_after_camera [] ["b1"; "R3"] (clock later)
                       (supabaseUrl later) "U2" [] [] in
  fst (handleSubmit (Some Sample.ana) TEquipment (Sample.form "E1" 20 22) [Sample.photo]
                    later)
  = mkUi "Este item já está reservado para o período selecionado" false false
  /\ fst (checkAvailability TEquipment (Sample.form "E1" 10 12) other) = inr true.
Proof.
  intros later other. split.
  - apply (same_user_cannot_book_an_item_twice
             (Some Sample.ana) TEquipment (Sample.form "E1" 10 12) [Sample.photo]
             (Sample.world_of Sample.db_empty [] ["a1"; "R1"])
             Sample.ana (Sample.form "E1" 20 22) [Sample.photo] later
             (Sample.jan 20) (Sample.jan 22));
      [ vm_compute; reflexivity | vm_compute; reflexivity | reflexivity | reflexivity
      | reflexivity | reflexivity | vm_compute; discriminate | reflexivity
      | discriminate | reflexivity ].
  - assert (H : fst (checkAvailability TEquipment (Sample.form "E1" 10 12) other)
                = fst (checkAvailability TEquipment (Sample.form "E1" 10 12)
                                         (set_db Sample.db_empty other))).
    { apply (same_user_cannot_book_an_item_twice
               (Some Sample.ana) TEquipment (Sample.form "E1" 10 12) [Sample.photo]
               (Sample.world_of Sample.db_empty [] ["a1"; "R1"])
               Sample.ana (Sample.form "E1" 10 12) [Sample.photo] other
               (Sample.jan 10) (Sample.jan 12));
        [ vm_compute; reflexivity | vm_compute; reflexivity | reflexivity | reflexivity
        | reflexivity | reflexivity | vm_compute; discriminate | reflexivity
        | discriminate | discriminate ]. }
    rewrite H. reflexivity.
Defined.

(* ------------------------------------------------------------------ *)
(** ** The list of kits                                            *)
(* ------------------------------------------------------------------ *)

Lemma filter_nil_iff {A} (f : A -> bool) (l : list A) :
  filter f l = [] <-> forall x, In x l -> f x = false.
Proof.
  induction l as [|a l IH]; cbn.
  - split; [intros _ x []|reflexivity].
  - destruct (f a) eqn:Ha.
    + split; [discriminate|]. intros H. rewrite (H a) in Ha; [discriminate|now left].
    + rewrite IH. split.
      * intros H x [<-|Hx]; auto.
      * intros H x Hx. apply H. now right.
Qed.

Lemma getKitStatus_vazio k : getKitStatus k = Vazio <-> members k = [].
Proof.
  unfold getKitStatus. destruct (members k) as [|m ms]; cbn [length Nat.eqb].
  - tauto.
  - split; [|discriminate].
    destruct (forallb _ (m :: ms)); [discriminate|].
    destruct (existsb _ (m :: ms)); discriminate.
Qed.

(** X19. When the list of kits is loaded, every kit of the table is shown,
    in the order of the reply, each with equipment rows that are joined to
    it; a kit is shown as 'vazio' exactly when one of its two queries fails
    or no equipment row is joined to it. *)
Theorem loadKits_shows_every_kit kitsReply kitsData membershipReply equipmentReply d current :
  is_ok kitsReply = true ->
  let shown :=
    KitListView.loadKits kitsReply kitsData membershipReply equipmentReply d current in
  map kit shown = kitsData
  /\ forall k, In k shown ->
       (forall e, In e (members k) ->
                  In e (equipment d) /\ In (eq_id e) (kit_members d (kit_id_of (kit k))))
       /\ (getKitStatus k = Vazio
           <-> is_ok (membershipReply (kit k)) = false
               \/ is_ok (equipmentReply (kit k)) = false
               \/ forall e, In e (equipment d) ->
                            ~ In (eq_id e) (kit_members d (kit_id_of (kit k)))).
Proof.
  intros Hok shown. subst shown. unfold KitListView.loadKits. rewrite Hok.
  split.
  - rewrite map_map. rewrite <- (map_id kitsData) at 2. apply map_ext. intros a.
    destruct (is_ok (membershipReply a)); [|reflexivity].
    destruct (0 <? length _)%nat; reflexivity.
  - intros k Hin. apply in_map_iff in Hin. destruct Hin as [a [<- _]].
    rewrite getKitStatus_vazio.
    destruct (is_ok (membershipReply a)) eqn:Hm.
    2:{ cbn. rewrite Hm. split; [intros e []|]. split; auto. }
    fold (kit_members d (kit_id_of a)).
    destruct (filter (fun ke => String.eqb (ke_kit_id ke) (kit_id_of a)) (kit_equipment d))
      as [|ke kes] eqn:Hrows.
    { cbn. rewrite Hm. split; [intros e []|]. split; [|reflexivity].
      intros _. right. right. intros e _. unfold kit_members. rewrite Hrows.
      intros []. }
    cbn [length Nat.ltb Nat.leb].
    destruct (is_ok (equipmentReply a)) eqn:He; cbn [kit members].
    2:{ rewrite Hm, He. split; [intros e []|]. split; auto. }
    rewrite Hm, He. split.
    + intros e Hin. apply filter_In in Hin. destruct Hin as [Hin Hmem].
      split; [exact Hin|]. now apply mem_In.
    + rewrite filter_nil_iff. split.
      * intros H. right. right. intros e Hin Hmem.
        apply mem_In in Hmem. rewrite (H e Hin) in Hmem. discriminate.
      * intros [H|[H|H]]; try discriminate.
        intros e Hin. destruct (mem (eq_id e) _) eqn:Hmem; [|reflexivity].
        apply mem_In in Hmem. destruct (H e Hin Hmem).
Qed.

Lemma loadKits_shows_every_kit_witness :
  let shown :=
    KitListView.loadKits Ok [Sample.studio; mkKit "K2" "Audio"]
                         (fun _ => Ok) (fun k => if String.eqb (kit_id_of k) "K1"
                                                 then Err "timeout" else Ok)
                         Sample.db_kit_busy [] in
  map kit shown = [Sample.studio; mkKit "K2" "Audio"]
  /\ map getKitStatus shown = [Vazio; Vazio].
Proof.
  intros shown. split.
  - apply (loadKits_shows_every_kit
             Ok [Sample.studio; mkKit "K2" "Audio"] (fun _ => Ok)
             (fun k => if String.eqb (kit_id_of k) "K1" then Err "timeout" else Ok)
             Sample.db_kit_busy [] eq_refl).
  - vm_compute. reflexivity.
Defined.

(* ------------------------------------------------------------------ *)
(** ** The name in the header and the path of a stored file        *)
(* ------------------------------------------------------------------ *)

Lemma string_length_app (a b : string) :
  String.length (a ++ b) = (String.length a + String.length b)%nat.
Proof. induction a as [|x a IH]; cbn; [reflexivity|now rewrite IH]. Qed.

Lemma splitOn_nonempty c s : DashboardView.splitOn c s <> [].
Proof.
  destruct s as [|a s]; cbn; [discriminate|].
  destruct (Ascii.eqb a c); [discriminate|].
  destruct (DashboardView.splitOn c s); discriminate.
Qed.

Lemma join_cons_char sep a piece pieces :
  DashboardView.join sep (String a piece :: pieces)
  = String a (DashboardView.join sep (piece :: pieces)).
Proof. destruct pieces; reflexivity. Qed.

(** [s.split(c).join(c)] is [s]. *)
Lemma join_splitOn c s :
  DashboardView.join (String c "") (DashboardView.splitOn c s) = s.
Proof.
  induction s as [|a s IH]; cbn [DashboardView.splitOn]; [reflexivity|].
  destruct (Ascii.eqb a c) eqn:E.
  - apply Ascii.eqb_eq in E. subst a.
    destruct (DashboardView.splitOn c s) as [|p ps] eqn:Hs;
      [destruct (splitOn_nonempty c s Hs)|].
    cbn [DashboardView.join]. cbn. now rewrite <- IH.
  - destruct (DashboardView.splitOn c s) as [|p ps] eqn:Hs;
      [destruct (splitOn_nonempty c s Hs)|].
    rewrite join_cons_char. now rewrite IH.
Qed.

Lemma join_firstn_prefix sep n l :
  exists rest,
    DashboardView.join sep l = DashboardView.join sep (firstn n l) ++ rest.
Proof.
  revert n. induction l as [|p l IH]; intros n.
  - exists "". destruct n; reflexivity.
  - destruct n as [|n]; [exists (DashboardView.join sep (p :: l)); reflexivity|].
    destruct l as [|q l]; [exists ""; cbn [firstn]; rewrite firstn_nil; cbn; now rewrite string_app_nil_r|].
    destruct n as [|n].
    + exists (sep ++ DashboardView.join sep (q :: l)). reflexivity.
    + destruct (IH (S n)) as [rest Hrest]. exists rest.
      change (DashboardView.join sep (p :: q :: l))
        with (p ++ sep ++ DashboardView.join sep (q :: l)).
      change (firstn (S (S n)) (p :: q :: l)) with (p :: q :: firstn n l).
      change (DashboardView.join sep (p :: q :: firstn n l))
        with (p ++ sep ++ DashboardView.join sep (q :: firstn n l)).
      change (firstn (S n) (q :: l)) with (q :: firstn n l) in Hrest.
      rewrite Hrest, !string_app_assoc. reflexivity.
Qed.

Lemma countChar_app c a b :
  Text.countChar c (a ++ b) = (Text.countChar c a + Text.countChar c b)%nat.
Proof. induction a as [|x a IH]; cbn; [reflexivity|rewrite IH; lia]. Qed.

Lemma splitOn_pieces c s :
  Forall (fun piece => Text.countChar c piece = 0%nat) (DashboardView.splitOn c s).
Proof.
  induction s as [|a s IH]; cbn [DashboardView.splitOn].
  - constructor; [reflexivity|constructor].
  - destruct (Ascii.eqb a c) eqn:E.
    + constructor; [reflexivity|exact IH].
    + destruct (DashboardView.splitOn c s) as [|p ps];
        [constructor; [cbn; now rewrite E|constructor]|].
      inversion IH as [|x l Hp Hps]. constructor; [cbn; now rewrite E|exact Hps].
Qed.

Lemma splitOn_length c s :
  length (DashboardView.splitOn c s) = S (Text.countChar c s).
Proof.
  induction s as [|a s IH]; cbn [DashboardView.splitOn Text.countChar]; [reflexivity|].
  destruct (Ascii.eqb a c).
  - cbn. now rewrite IH.
  - destruct (DashboardView.splitOn c s) as [|p ps]; cbn in *; [discriminate|exact IH].
Qed.

Lemma splitOn_first_piece c piece s :
  Text.countChar c piece = 0%nat ->
  DashboardView.splitOn c (piece ++ String c s) = piece :: DashboardView.splitOn c s.
Proof.
  induction piece as [|x piece IH]; intros Hfree; cbn [append DashboardView.splitOn].
  - now rewrite Ascii.eqb_refl.
  - cbn [Text.countChar] in Hfree.
    destruct (Ascii.eqb x c); [discriminate|].
    now rewrite (IH Hfree).
Qed.

(** X20. The name shown in the header: a full name with at most one space
    is shown whole; of a full name with more, what comes before the second
    space is shown, that is the first two of the pieces that the spaces
    separate, joined by a space.  In every case the name shown is the
    beginning of the full name and holds at most one space. *)
Theorem getFirstTwoNames_is_a_prefix (fullName : string) :
  (exists rest, fullName = DashboardView.getFirstTwoNames fullName ++ rest)
  /\ (Text.countChar " " (DashboardView.getFirstTwoNames fullName) <= 1)%nat
  /\ ((Text.countChar " " fullName <= 1)%nat ->
      DashboardView.getFirstTwoNames fullName = fullName)
  /\ (forall first second rest,
         Text.countChar " " first = 0%nat ->
         Text.countChar " " second = 0%nat ->
         fullName = first ++ " " ++ second ++ " " ++ rest ->
         DashboardView.getFirstTwoNames fullName = first ++ " " ++ second).
Proof.
  unfold DashboardView.getFirstTwoNames.
  pose proof (join_splitOn " " fullName) as Hjoin.
  pose proof (splitOn_pieces " " fullName) as Hpieces.
  pose proof (splitOn_length " " fullName) as Hlen.
  split; [|split; [|split]].
  - destruct (join_firstn_prefix " " 2 (DashboardView.splitOn " " fullName)) as [rest H].
    exists rest. now rewrite <- H.
  - destruct (DashboardView.splitOn " " fullName) as [|p [|q l]].
    + cbn. lia.
    + inversion Hpieces as [|x l' Hp _]. cbn. rewrite Hp. lia.
    + inversion Hpieces as [|x l' Hp Hrest]. inversion Hrest as [|x' l'' Hq _].
      cbn [firstn DashboardView.join].
      rewrite !countChar_app, Hp, Hq. cbn. lia.
  - intros Hfew. rewrite <- Hjoin at 2. f_equal.
    apply firstn_all2. lia.
  - intros first second rest Hfirst Hsecond ->.
    change (first ++ " " ++ second ++ " " ++ rest)
      with (first ++ String " " (second ++ String " " rest)).
    rewrite (splitOn_first_piece _ _ _ Hfirst), (splitOn_first_piece _ _ _ Hsecond).
    reflexivity.
Qed.

Lemma getFirstTwoNames_is_a_prefix_witness :
  DashboardView.getFirstTwoNames "Ana Souza" = "Ana Souza"
  /\ DashboardView.getFirstTwoNames "Ana Maria de Souza" = "Ana Maria".
Proof.
  split.
  - apply (getFirstTwoNames_is_a_prefix "Ana Souza"). cbn. lia.
  - apply (proj2 (proj2 (proj2 (getFirstTwoNames_is_a_prefix "Ana Maria de Souza")))
             "Ana" "Maria" "de Souza"); reflexivity.
Defined.

Lemma cut_eq sep s :
  ImageFile.cut sep s
  = match ImageFile.dropPrefix sep s with
    | Some rest => Some (EmptyString, rest)
    | None =>
        match s with
        | EmptyString => None
        | String c s' =>
            match ImageFile.cut sep s' with
            | Some (before, rest) => Some (String c before, rest)
            | None => None
            end
        end
    end.
Proof. destruct s; reflexivity. Qed.

Lemma dropPrefix_app p rest : ImageFile.dropPrefix p (p ++ rest) = Some rest.
Proof.
  induction p as [|a p IH]; cbn; [reflexivity|].
  now rewrite Ascii.eqb_refl.
Qed.

Lemma dropPrefix_none_app p u v :
  ImageFile.dropPrefix p u = None ->
  (String.length p <= String.length u)%nat ->
  ImageFile.dropPrefix p (u ++ v) = None.
Proof.
  revert u. induction p as [|a p IH]; intros u H Hlen; cbn in *; [discriminate|].
  destruct u as [|b u]; cbn in *; [lia|].
  destruct (Ascii.eqb a b); [|reflexivity].
  apply IH; [exact H|lia].
Qed.

(** The first occurrence of a separator that does not start earlier. *)
Lemma cut_first sep0 c X rest :
  ImageFile.cut (sep0 ++ String c "") (X ++ sep0) = None ->
  ImageFile.cut (sep0 ++ String c "") (X ++ (sep0 ++ String c "") ++ rest)
  = Some (X, rest).
Proof.
  induction X as [|a X IH]; intros H.
  - cbn [append]. rewrite cut_eq, dropPrefix_app. reflexivity.
  - cbn [append] in *. rewrite cut_eq in H. rewrite cut_eq.
    destruct (ImageFile.dropPrefix _ (String a (X ++ sep0))) eqn:D; [discriminate|].
    destruct (ImageFile.cut _ (X ++ sep0)) as [[b r]|] eqn:C; [discriminate|].
    assert (E : String a (X ++ (sep0 ++ String c "") ++ rest)
                = String a (X ++ sep0) ++ String c rest).
    { cbn [append]. f_equal. rewrite !string_app_assoc. reflexivity. }
    rewrite E at 1.
    rewrite (dropPrefix_none_app _ _ _ D).
    + now rewrite (IH eq_refl).
    + cbn [String.length]. rewrite !string_length_app. cbn. lia.
Qed.

(** X21. [deleteImage] recovers, from the public URL that [uploadImage]
    returns, the path under which the file was stored: when the separator
    '/equipment-images/' occurs neither in the path nor earlier in the URL
    and the path is not empty, the path given to [remove] is the path
    given to [upload]. *)
Theorem deleteImage_recovers_uploaded_path base filePath :
  ImageFile.cut "/equipment-images/"
                (base ++ "/storage/v1/object/public/equipment-images") = None ->
  ImageFile.cut "/equipment-images/" filePath = None ->
  filePath <> "" ->
  ImageFile.deleteImage (getPublicUrl base filePath) = Some filePath.
Proof.
  intros Hbase Hpath Hne.
  unfold ImageFile.deleteImage, ImageFile.secondPiece, getPublicUrl.
  assert (E : base ++ "/storage/v1/object/public/equipment-images/" ++ filePath
              = (base ++ "/storage/v1/object/public")
                ++ ("/equipment-images" ++ "/") ++ filePath).
  { rewrite string_app_assoc. reflexivity. }
  rewrite E.
  change "/equipment-images/" with ("/equipment-images" ++ "/") at 1.
  rewrite cut_first.
  - rewrite Hpath. rewrite (truthy_nonempty _ Hne). reflexivity.
  - rewrite string_app_assoc. exact Hbase.
Qed.

Lemma deleteImage_recovers_uploaded_path_witness :
  ImageFile.deleteImage
    (getPublicUrl "https://project.supabase.co" "reservations/U1/a1.jpg")
  = Some "reservations/U1/a1.jpg".
Proof.
  apply (deleteImage_recovers_uploaded_path
           "https://project.supabase.co" "reservations/U1/a1.jpg").
  - vm_compute. reflexivity.
  - vm_compute. reflexivity.
  - discriminate.
Defined.

(* ------------------------------------------------------------------ *)
(** ** The equipment offered by the form                           *)
(* ------------------------------------------------------------------ *)

(** X22. Once a Create has run with every remote call answered, the list of
    equipment that the form loads again offers none of the units it booked
    that the caller registered: neither the reserved equipment nor a member
    of the reserved kit.  A unit that someone else registered and that was
    available is offered as before, booked or not: the update of its
    status is left out by the policy of the table. *)
Theorem booked_equipment_leaves_the_list_for_its_creator
        orderByName reply current p ty f photos w s e :
  (forall l x, In x (orderByName l) <-> In x l) ->
  photos <> [] ->
  selectedId f <> "" ->
  startDate f = Some s ->
  endDate f = Some e ->
  s <= e ->
  ~ Blocking (seenBy (uid w) (db w)) (field_of ty) (selectedId f) s e ->
  unfailing w ->
  is_ok reply = true ->
  let offer :=
    FormLists.loadEquipment orderByName reply
                            (db (snd (handleSubmit (Some p) ty f photos w))) current in
  (forall offered,
      In offered offer ->
      In (eq_id offered) (created_targets ty f (db w)) ->
      eq_created_by offered <> Some (uid w))
  /\ (forall unit,
         In unit (equipment (db w)) ->
         eq_status unit = Disponivel ->
         eq_created_by unit <> Some (uid w) ->
         In unit offer).
Proof.
  intros Hperm Hph Hid Hs He Hle Hfree Hw Hreply offer. subst offer.
  destruct (handleSubmit_run p ty f photos w s e Hph (truthy_nonempty _ Hid)
                             Hs He Hle (not_blocking_filter _ _ _ _ _ Hfree) Hw)
    as [_ [_ [Heq _]]].
  unfold FormLists.loadEquipment. rewrite Hreply, Heq. split.
  - intros offered Hin Htarget Hc.
    apply (proj1 (Hperm _ _)) in Hin. apply filter_In in Hin.
    destruct Hin as [Hin Hst].
    rewrite (status_set_targets _ _ _ _ _ Hin Htarget Hc) in Hst. discriminate.
  - intros unit Hin Hst Hc. apply (proj2 (Hperm _ _)). apply filter_In.
    split; [now apply status_set_foreign|]. now rewrite Hst.
Qed.

Lemma booked_equipment_leaves_the_list_for_its_creator_witness :
  let microphone := mkEquipment "E9" "Microfone" Disponivel (Some "U2") in
  let d := mkDatabase [Sample.camera; microphone]
                      [mkKitEquipment "K1" "E1"; mkKitEquipment "K1" "E9"] [] in
  let w := Sample.world_of d [] ["a1"; "R1"] in
  let offer :=
    FormLists.loadEquipment
      (fun l => l) Ok
      (db (snd (handleSubmit (Some Sample.ana) TKit (Sample.form "K1" 10 12)
                             [Sample.photo] w)))
      [] in
  Forall (fun offered => In (eq_id offered) ["E1"; "E9"] ->
                         eq_created_by offered <> Some "U1") offer
  /\ In microphone offer.
Proof.
  intros microphone d w offer.
  destruct (booked_equipment_leaves_the_list_for_its_creator
              (fun l => l) Ok [] Sample.ana TKit (Sample.form "K1" 10 12)
              [Sample.photo] w (Sample.jan 10) (Sample.jan 12))
    as [Hgone Hstays].
  - intros l x. reflexivity.
  - discriminate.
  - discriminate.
  - reflexivity.
  - reflexivity.
  - vm_compute. discriminate.
  - intros [r [[] _]].
  - constructor.
  - reflexivity.
  - split.
    + apply Forall_forall. intros offered Hin. exact (Hgone offered Hin).
    + apply Hstays; [right; left; reflexivity|reflexivity|discriminate].
Defined.

(* ------------------------------------------------------------------ *)
(** ** Photos and their previews                                   *)
(* ------------------------------------------------------------------ *)

Lemma onloadend_all results st :
  fold_left (fun s result => PhotoInput.onloadend result s) results st
  = PhotoInput.mkPhotoState (PhotoInput.pickupPhotos st)
                            (PhotoInput.photoPreviews st ++ results)
                            (PhotoInput.error st).
Proof.
  revert st. induction results as [|r results IH]; intros st; cbn [fold_left].
  - rewrite app_nil_r. destruct st; reflexivity.
  - rewrite IH. cbn. now rewrite <- app_assoc.
Qed.

Lemma filterIndex_length {A B} index (l : list A) (l' : list B) :
  length l = length l' ->
  length (PhotoInput.filterIndex (fun j => negb (j =? index)%nat) 0 l)
  = length (PhotoInput.filterIndex (fun j => negb (j =? index)%nat) 0 l').
Proof.
  intros H. rewrite !filterIndex_from by lia.
  rewrite !length_app, !length_firstn, !length_skipn. lia.
Qed.

(** X23. The photo list and the preview list stay of the same length: once
    the reader of every file added by [handlePhotoAdd] has finished, in
    whatever order, there is one preview for each photo, and [removePhoto]
    takes one element out of both lists or out of neither. *)
Theorem previews_follow_photos files results st index :
  Forall PhotoInput.Valid files ->
  length results = length files ->
  length (PhotoInput.pickupPhotos st) = length (PhotoInput.photoPreviews st) ->
  let st' := fold_left (fun s result => PhotoInput.onloadend result s) results
                       (PhotoInput.handlePhotoAdd files st) in
  length (PhotoInput.pickupPhotos st') = length (PhotoInput.photoPreviews st')
  /\ length (PhotoInput.pickupPhotos (PhotoInput.removePhoto index st'))
     = length (PhotoInput.photoPreviews (PhotoInput.removePhoto index st')).
Proof.
  intros Hvalid Hres Hst st'.
  assert (Hlen : length (PhotoInput.pickupPhotos st')
                 = length (PhotoInput.photoPreviews st')).
  { subst st'. rewrite onloadend_all. unfold PhotoInput.handlePhotoAdd.
    apply firstError_none in Hvalid. rewrite Hvalid. cbn.
    rewrite !length_app. lia. }
  split; [exact Hlen|].
  unfold PhotoInput.removePhoto. cbn [PhotoInput.pickupPhotos PhotoInput.photoPreviews].
  apply filterIndex_length. exact Hlen.
Qed.

Lemma previews_follow_photos_witness :
  let jpg := ImageFile.mkPickedFile (mkFile "frente.jpg") "image/jpeg" 1024 in
  let png := ImageFile.mkPickedFile (mkFile "verso.png") "image/png" 2048 in
  let st' := fold_left (fun s result => PhotoInput.onloadend result s)
                       ["data:image/png;base64,AAAA"; "data:image/jpeg;base64,BBBB"]
                       (PhotoInput.handlePhotoAdd [jpg; png]
                                                  (PhotoInput.mkPhotoState [] [] "")) in
  length (PhotoInput.pickupPhotos st') = length (PhotoInput.photoPreviews st')
  /\ length (PhotoInput.pickupPhotos (PhotoInput.removePhoto 0 st'))
     = length (PhotoInput.photoPreviews (PhotoInput.removePhoto 0 st')).
Proof.
  intros jpg png.
  apply (previews_follow_photos
           [jpg; png] ["data:image/png;base64,AAAA"; "data:image/jpeg;base64,BBBB"]
           (PhotoInput.mkPhotoState [] [] "") 0%nat).
  - apply Forall_cons; [split; [left; reflexivity|cbn; lia]|].
    apply Forall_cons; [split; [right; right; left; reflexivity|cbn; lia]|].
    apply Forall_nil.
  - reflexivity.
  - reflexivity.
Defined.

(* ------------------------------------------------------------------ *)
(** ** The tables along the lifecycle                                   *)
(* ------------------------------------------------------------------ *)

Lemma rowsKept_refl d : Effects.rowsKept d d.
Proof. repeat split. exists []. now rewrite app_nil_r. Qed.

Lemma rowsKept_trans x y z :
  Effects.rowsKept x y -> Effects.rowsKept y z -> Effects.rowsKept x z.
Proof.
  unfold Effects.rowsKept.
  intros [A1 [B1 [C1 [a1 D1]]]] [A2 [B2 [C2 [a2 D2]]]].
  rewrite A2, B2, C2, D2, D1.
  repeat split; try assumption.
  exists (a1 ++ a2)%list. now rewrite app_assoc.
Qed.

Lemma touchesOnly_rowsKept sel d d' :
  Effects.touchesOnly sel d d' -> Effects.rowsKept d d'.
Proof.
  unfold Effects.touchesOnly, Effects.rowsKept. intros [A [B [C [D _]]]].
  repeat split; try assumption. exists []. now rewrite app_nil_r.
Qed.

Lemma appendsRow_rowsKept d d' :
  Effects.appendsRow d d' -> Effects.rowsKept d d'.
Proof.
  unfold Effects.appendsRow, Effects.rowsKept. intros [A [B [C [extra [D _]]]]].
  repeat split; try assumption. exists (map id extra). now rewrite D, map_app.
Qed.

Lemma statusOnly_rowsKept d d' :
  Effects.statusOnly d d' -> Effects.rowsKept d d'.
Proof.
  unfold Effects.statusOnly, Effects.rowsKept. intros [A [B [C D]]].
  rewrite A. repeat split; try assumption. exists []. now rewrite app_nil_r.
Qed.

Ltac rowsKept_tac :=
  repeat first
    [ apply (keeps_weaken Effects.statusOnly);
        [exact statusOnly_rowsKept|];
        first [ apply keeps_statusOnly_update_eq | apply keeps_statusOnly_update_in ]
    | eapply (keeps_weaken (Effects.touchesOnly _));
        [intros ? ?; apply touchesOnly_rowsKept|];
        apply keeps_touchesOnly_update_reservation
    | apply (keeps_weaken Effects.appendsRow);
        [exact appendsRow_rowsKept|]; apply keeps_appendsRow_insert
    | apply (keeps_reads Effects.rowsKept); [exact rowsKept_refl|];
        first [ apply reads_ret | apply reads_throw | apply reads_get_clock
              | apply reads_uploads | apply reads_checkAvailability
              | apply reads_select_kit_equipment | apply reads_sendSummaryEmail ]
    | apply (keeps_bind Effects.rowsKept); [exact rowsKept_trans| |intros ?]
    | match goal with
      | |- Effects.keeps _ (if ?b then _ else _) => destruct b
      | |- Effects.keeps _ (match ?x with Some _ => _ | None => _ end) => destruct x
      | |- Effects.keeps _ (match ?x with TEquipment => _ | TKit => _ end) => destruct x
      | |- Effects.keeps _ (let _ := _ in _) => cbv zeta
      end ].

(** X24. In every state reached from a state [d0] by Create, Pickup and
    Return, whatever the remote services answered along the way, the kit
    memberships are those of [d0], the equipment rows have the ids and the
    names they had in [d0], and the reservation rows of [d0] are all still
    there, under their ids and in their order, followed by the rows created
    since: no operation of the lifecycle deletes or renames anything. *)
Theorem lifecycle_keeps_every_row d0 d :
  Reachable d0 d ->
  kit_equipment d = kit_equipment d0
  /\ map eq_id (equipment d) = map eq_id (equipment d0)
  /\ map eq_name (equipment d) = map eq_name (equipment d0)
  /\ exists added,
      map id (reservations d) = (map id (reservations d0) ++ added)%list.
Proof.
  intros H. change (Effects.rowsKept d0 d).
  induction H as [|w profile ty f photos _ IH
                  |w net profile items sel photos _ IH _
                  |w items sel photos _ IH _].
  - apply rowsKept_refl.
  - apply (rowsKept_trans _ _ _ IH).
    unfold handleSubmit. apply handler_keeps. rowsKept_tac.
  - apply (rowsKept_trans _ _ _ IH).
    unfold handlePickup. apply handler_keeps. rowsKept_tac.
  - apply (rowsKept_trans _ _ _ IH).
    unfold handleReturn. apply handler_keeps. rowsKept_tac.
Qed.

Lemma lifecycle_keeps_every_row_witness :
  let d := db (snd (handleReturn
                      [mkReservationItem (Sample.row_R1 REmUso []) (Some Sample.camera) None]
                      "R1" [Sample.photo]
                      (Sample.world_of
                         (db (snd (handleSubmit (Some Sample.ana) TEquipment
                                                (Sample.form "E1" 10 12) [Sample.photo]
                                                (Sample.world_of Sample.db_empty []
                                                                 ["a1"; "R1"]))))
                         [] ["a3"]))) in
  kit_equipment d = kit_equipment Sample.db_empty
  /\ map eq_id (equipment d) = map eq_id (equipment Sample.db_empty)
  /\ map eq_name (equipment d) = map eq_name (equipment Sample.db_empty)
  /\ exists added,
      map id (reservations d) = (map id (reservations Sample.db_empty) ++ added)%list.
Proof.
  intros d.
  apply (lifecycle_keeps_every_row Sample.db_empty d).
  apply (reach_return Sample.db_empty
           (Sample.world_of
              (db (snd (handleSubmit (Some Sample.ana) TEquipment
                                     (Sample.form "E1" 10 12) [Sample.photo]
                                     (Sample.world_of Sample.db_empty [] ["a1"; "R1"]))))
              [] ["a3"])).
  - apply (reach_create Sample.db_empty
             (Sample.world_of Sample.db_empty [] ["a1"; "R1"])).
    apply reach_init.
  - intros it [<-|[]]. vm_compute. left. reflexivity.
Defined.
